(** * OAuth 1.0a client: signing and credential exchange

    A shallow embedding of [oauth1_client.go] (package [oauth2_client]) and
    the properties of its signing algorithm and of its temporary-to-access
    credential exchange.

    Go strings are byte sequences: they are modelled as [string] (a list of
    8-bit [ascii]).  [url.Values] is a Go [map[string][]string]: it is
    modelled as [gmap string (list string)].  Package-level variables
    ([oauth1TokenSecretMap], [nonceCounter]) and the client's current
    credentials live in an explicit [State] threaded through a small monad.

    The repository holds two generations of the file.  The definitions at
    top level follow the current one (the one with [oauth1SecretInfo]);
    [Module Legacy] records where the older generation differs. *)

From Stdlib Require Import ZArith String Ascii List Bool Lia.
From Stdlib Require Import DecimalString HexadecimalString HexadecimalN HexadecimalPos.
From stdpp Require Import gmap strings list fin_maps sorting.

Open Scope string_scope.
Open Scope Z_scope.

(** ** Bytes and strings of the Go runtime *)

Abbreviation byte := ascii.

Definition byteval (c : byte) : Z := Z.of_N (N_of_ascii c).

(** [s[i]] for an index known to be in range; Go panics outside, which no
    caller below reaches (see [index_upperhex_hi] and [index_upperhex_lo]). *)
Definition index (s : string) (i : Z) : byte :=
  match String.get (Z.to_nat i) s with
  | Some c => c
  | None => "000"%char
  end.

Definition len (s : string) : Z := Z.of_nat (String.length s).

Definition in_range (lo hi c : byte) : bool :=
  (byteval lo <=? byteval c) && (byteval c <=? byteval hi).

Definition byte_eqb (a b : byte) : bool := Ascii.eqb a b.

Fixpoint byte_in (c : byte) (set : string) : bool :=
  match set with
  | EmptyString => false
  | String d rest => byte_eqb c d || byte_in c rest
  end.

(** [strings.Join(elems, sep)] *)
Fixpoint Join (elems : list string) (sep : string) : string :=
  match elems with
  | [] => ""
  | [e] => e
  | e :: rest => e ++ sep ++ Join rest sep
  end.

(** [strings.Contains(s, "?")], specialised to a one-byte needle. *)
Definition ContainsByte (s : string) (c : byte) : bool := byte_in c s.

(** [strings.SplitN(s, sep, 2)[0]] for a one-byte separator: the part of
    [s] before the first [sep], all of [s] when there is none. *)
Fixpoint SplitN2_head (s : string) (sep : byte) : string :=
  match s with
  | EmptyString => ""
  | String c rest => if byte_eqb c sep then "" else String c (SplitN2_head rest sep)
  end.

(** A string from its byte codes. *)
Definition bytes (codes : list Z) : string :=
  string_of_list_ascii (map (fun z => ascii_of_N (Z.to_N z)) codes).

(** The runes [unicode.IsSpace] accepts, in UTF-8: tab, line feed,
    vertical tab, form feed, carriage return, space, U+0085, U+00A0,
    U+1680, U+2000 to U+200A, U+2028, U+2029, U+202F, U+205F and U+3000. *)
Definition spaceRunes : list string :=
  map bytes
    [[9]; [10]; [11]; [12]; [13]; [32]; [194; 133]; [194; 160]; [225; 154; 128];
     [226; 128; 128]; [226; 128; 129]; [226; 128; 130]; [226; 128; 131];
     [226; 128; 132]; [226; 128; 133]; [226; 128; 134]; [226; 128; 135];
     [226; 128; 136]; [226; 128; 137]; [226; 128; 138]; [226; 128; 168];
     [226; 128; 169]; [226; 128; 175]; [226; 129; 159]; [227; 128; 128]].

(** [s] without its prefix [prefix], if it has it. *)
Fixpoint stripPrefix (prefix s : string) : option string :=
  match prefix, s with
  | EmptyString, _ => Some s
  | String a prefix', String b s' =>
      if byte_eqb a b then stripPrefix prefix' s' else None
  | String _ _, EmptyString => None
  end.

(** [s] without the first of [runes] it starts with. *)
Fixpoint stripRune (runes : list string) (s : string) : option string :=
  match runes with
  | [] => None
  | r :: more =>
      match stripPrefix r s with
      | Some t => Some t
      | None => stripRune more s
      end
  end.

(** At most [n] leading runes of [runes] removed from [s]. *)
Fixpoint trimRunes (runes : list string) (n : nat) (s : string) : string :=
  match n with
  | O => s
  | S n' =>
      match stripRune runes s with
      | Some t => trimRunes runes n' t
      | None => s
      end
  end.

Definition string_rev (s : string) : string :=
  string_of_list_ascii (rev (list_ascii_of_string s)).

(** [strings.TrimLeftFunc(s, unicode.IsSpace)] *)
Definition TrimLeft (s : string) : string :=
  trimRunes spaceRunes (String.length s) s.

(** [strings.TrimRightFunc(s, unicode.IsSpace)]: a string ends with the
    encoding of a rune exactly when its reversal starts with the reversed
    encoding. *)
Definition TrimRight (s : string) : string :=
  string_rev (trimRunes (map string_rev spaceRunes) (String.length s) (string_rev s)).

(** [strings.TrimSpace]: leading and trailing white space removed.  (Its
    fast path for ASCII bytes gives the same result as the rune-wise
    trimming it falls back to.) *)
Definition TrimSpace (s : string) : string := TrimRight (TrimLeft s).

Definition toUpperByte (c : byte) : byte :=
  if in_range "a" "z" c then ascii_of_N (N_of_ascii c - 32) else c.

(** [strings.ToUpper] on ASCII text. *)
Fixpoint ToUpper (s : string) : string :=
  match s with
  | EmptyString => ""
  | String c rest => String (toUpperByte c) (ToUpper rest)
  end.

(** [strconv.FormatInt(n, 10)] *)
Definition FormatInt10 (n : Z) : string :=
  DecimalString.NilZero.string_of_int (Z.to_int n).

(** [strconv.FormatUint(n, 16)] for [0 <= n < 2^64]: lowercase digits. *)
Definition FormatUint16 (n : Z) : string :=
  HexadecimalString.NilZero.string_of_uint (N.to_hex_uint (Z.to_N n)).

(** ** Errors

    A Go [error] is observed through its text only. *)

Inductive error : Type :=
| errors_New (text : string)          (* errors.New(text) *)
| EscapeError (fragment : string)     (* url.EscapeError *)
| SemicolonError                      (* "invalid semicolon separator in query" *)
| LibraryError (text : string).       (* an error produced by net/http or the transport *)

(** The double quote, byte 34. *)
Definition dquote : byte := "034"%char.

Definition Error (e : error) : string :=
  match e with
  | errors_New t => t
  | EscapeError f => "invalid URL escape " ++ String dquote (f ++ String dquote "")
  | SemicolonError => "invalid semicolon separator in query"
  | LibraryError t => t
  end.

#[global] Instance error_eq_dec : EqDecision error.
Proof. solve_decision. Defined.

(** ** [url.Values] *)

Abbreviation Values := (gmap string (list string)).

Module Values.

(** [v.Get(key)]: the first value, the empty string when there is none. *)
Definition Get (v : Values) (key : string) : string :=
  match v !! key with
  | Some (x :: _) => x
  | _ => ""
  end.

(** [v.Set(key, value)] *)
Definition Set_ (v : Values) (key value : string) : Values :=
  <[key := [value]]> v.

(** [v.Add(key, value)]: [v[key] = append(v[key], value)] *)
Definition Add (v : Values) (key value : string) : Values :=
  <[key := (default [] (v !! key) ++ [value])%list]> v.

(** [v.Del(key)] *)
Definition Del (v : Values) (key : string) : Values := delete key v.

End Values.

(** Byte-wise lexical order, the order of Go's [<] on strings. *)
Definition string_le (a b : string) : Prop := String.leb a b = true.

#[global] Instance string_le_dec : RelDecision string_le.
Proof. intros a b. unfold string_le. solve_decision. Defined.

(** [sort.Strings] *)
Definition sort_Strings (arr : list string) : list string :=
  merge_sort string_le arr.

(** ** Package [net/url] *)

Module url.

Definition upperhex : string := "0123456789ABCDEF".

Definition isAlnum (c : byte) : bool :=
  in_range "A" "Z" c || in_range "a" "z" c || in_range "0" "9" c.

(** The five marks [! * ' ( )].  The library changed on them: its early
    [shouldEscape] follows RFC 2396 and leaves them unescaped (the
    comment in [oauthEncode] speaks of that library); today's follows
    RFC 3986 and escapes them. *)
Definition marks : string := "!*'()".

(** [shouldEscape(c, encodeQueryComponent)].  [marks_safe] tells whether
    the release treats the five marks as unreserved. *)
Definition shouldEscape (marks_safe : bool) (c : byte) : bool :=
  if isAlnum c then false
  else if byte_in c "-_.~" then false
  else if byte_in c marks then negb marks_safe
  else true.

Definition hexEscape (c : byte) : string :=
  String "%" (String (index upperhex (Z.shiftr (byteval c) 4))
             (String (index upperhex (Z.land (byteval c) 15)) "")).

Fixpoint escape (marks_safe : bool) (s : string) : string :=
  match s with
  | EmptyString => ""
  | String c rest =>
      (if shouldEscape marks_safe c
       then if byte_eqb c " " then "+" else hexEscape c
       else String c "") ++ escape marks_safe rest
  end.

(** [url.QueryEscape] of the library the client is built with today:
    only letters, digits and [- _ . ~] stand for themselves, the space
    becomes [+], every other byte [%XX]. *)
Definition QueryEscape (s : string) : string := escape false s.

(** [url.QueryEscape] of the early library, which the comment in
    [oauthEncode] describes: the five marks stand for themselves too. *)
Definition QueryEscape2396 (s : string) : string := escape true s.

Definition ishex (c : byte) : bool :=
  in_range "0" "9" c || in_range "a" "f" c || in_range "A" "F" c.

Definition unhex (c : byte) : Z :=
  if in_range "0" "9" c then byteval c - byteval "0"
  else if in_range "a" "f" c then byteval c - byteval "a" + 10
  else if in_range "A" "F" c then byteval c - byteval "A" + 10
  else 0.

Definition byte_of_Z (z : Z) : byte := ascii_of_N (Z.to_N z).

(** At most the first three bytes of [s]: the fragment an [EscapeError]
    reports. *)
Definition prefix3 (s : string) : string := String.substring 0 3 s.

(** [unescape(s, encodeQueryComponent)]: a first malformed [%] aborts
    with an [EscapeError] and the empty string; otherwise [%XX] becomes
    the byte and [+] a space. *)
Fixpoint unescape (s : string) : string * option error :=
  match s with
  | EmptyString => ("", None)
  | String c rest =>
      if byte_eqb c "%" then
        match rest with
        | String h (String l rest') =>
            if ishex h && ishex l then
              match unescape rest' with
              | (t, None) => (String (byte_of_Z (Z.lor (Z.shiftl (unhex h) 4) (unhex l))) t, None)
              | (_, Some e) => ("", Some e)
              end
            else ("", Some (EscapeError (prefix3 s)))
        | _ => ("", Some (EscapeError (prefix3 s)))
        end
      else
        match unescape rest with
        | (t, None) => (String (if byte_eqb c "+" then " "%char else c) t, None)
        | (_, Some e) => ("", Some e)
        end
  end.

Definition QueryUnescape (s : string) : string * option error := unescape s.

(** [strings.Cut(s, sep)] for a one-byte separator. *)
Fixpoint Cut (s : string) (sep : byte) : string * string :=
  match s with
  | EmptyString => ("", "")
  | String c rest =>
      if byte_eqb c sep then ("", rest)
      else let '(a, b) := Cut rest sep in (String c a, b)
  end.

(** The segments the loop of [parseQuery] visits: [query] cut at every
    [&]. *)
Fixpoint segments (query : string) : list string :=
  match query with
  | EmptyString => []
  | String c rest =>
      if byte_eqb c "&" then "" :: segments rest
      else match segments rest with
           | [] => [String c ""]
           | seg :: more => String c seg :: more
           end
  end.

(** One turn of the loop of [parseQuery]. *)
Definition parseSegment (acc : Values * option error) (seg : string)
  : Values * option error :=
  let '(m, err) := acc in
  if ContainsByte seg ";" then (m, Some SemicolonError)
  else if String.eqb seg "" then (m, err)
  else
    let '(key, value) := Cut seg "=" in
    match url.QueryUnescape key with
    | (_, Some err1) => (m, if err is None then Some err1 else err)
    | (key, None) =>
        match url.QueryUnescape value with
        | (_, Some err1) => (m, if err is None then Some err1 else err)
        | (value, None) => (Values.Add m key value, err)
        end
    end.

(** [url.ParseQuery]: the map is always allocated, also when an error is
    returned; the error is the first decoding error met.  (A semicolon in
    a segment is an error of its own since Go 1.17; releases before that
    took it for a second separator.) *)
Definition ParseQuery (query : string) : option Values * option error :=
  let '(m, err) := fold_left parseSegment (segments query) (∅, None) in
  (Some m, err).

(** [v.Encode()]: sorted by key, every value a pair of its own. *)
Definition Encode (v : Values) : string :=
  Join (flat_map (fun k =>
          map (fun x => url.QueryEscape k ++ "=" ++ url.QueryEscape x)
              (default [] (v !! k)))
        (sort_Strings (map_to_list v).*1)) "&".

End url.

(** ** The OAuth percent-encoder *)

Definition isOAuthMark (c : byte) : bool := byte_in c url.marks.

(** The first loop of [oauthEncode]: how many marks the escaped text holds.
    The source ranges over runes; the escaped text is pure ASCII (see
    [escape_ascii]), so runes and bytes coincide. *)
Fixpoint countMarks (s : string) : Z :=
  match s with
  | EmptyString => 0
  | String c rest => (if isOAuthMark c then 1 else 0) + countMarks rest
  end.

(** The second loop: every mark becomes [%XX], every other byte is copied. *)
Fixpoint expandMarks (s : string) : string :=
  match s with
  | EmptyString => ""
  | String c rest =>
      if isOAuthMark c
      then String "%" (String (index "0123456789ABCDEF" (Z.shiftr (byteval c) 4))
                      (String (index "0123456789ABCDEF" (Z.land (byteval c) 15))
                              (expandMarks rest)))
      else String c (expandMarks rest)
  end.

Definition oauthEncodeWith (QueryEscape : string -> string) (text : string) : string :=
  let s := QueryEscape text in
  let count := countMarks s in
  if 0 <? count then expandMarks s else s.

Definition oauthEncode (text : string) : string :=
  oauthEncodeWith url.QueryEscape text.

(** [getKeys]: the keys in the order the map is ranged over.  Go leaves
    that order unspecified; [getSortedKeys_any_order] shows that the only
    caller does not depend on it. *)
Definition getKeys (m : Values) : list string := (map_to_list m).*1.

Definition getSortedKeys (m : Values) : list string :=
  sort_Strings (getKeys m).

(** ** Packages [crypto/hmac], [crypto/sha1] and [encoding/base64] *)

Module crypto.

(** SHA-1 (FIPS 180-1), HMAC (RFC 2104) and the standard base64 alphabet
    with padding, on bytes as [Z]. *)

Definition bytes_of (s : string) : list Z :=
  map (fun c => Z.of_N (N_of_ascii c)) (list_ascii_of_string s).

Definition string_of (l : list Z) : string :=
  string_of_list_ascii (map (fun z => ascii_of_N (Z.to_N (z mod 256))) l).

Definition w32 (x : Z) : Z := x mod 2 ^ 32.

Definition rotl (n x : Z) : Z :=
  w32 (Z.lor (Z.shiftl x n) (Z.shiftr x (32 - n))).

(** big-endian bytes of [x], [n] of them *)
Fixpoint be_bytes (n : nat) (x : Z) : list Z :=
  match n with
  | O => []
  | S n' => (Z.shiftr x (8 * Z.of_nat n')) mod 256 :: be_bytes n' x
  end.

Definition be_word (b : list Z) : Z :=
  fold_left (fun acc x => acc * 256 + x) b 0.

Definition pad (msg : list Z) : list Z :=
  let l := Z.of_nat (length msg) in
  let zeros := Z.to_nat ((55 - l) mod 64) in
  (msg ++ [128] ++ repeat 0 zeros ++ be_bytes 8 (8 * l))%list.

Fixpoint chunks (fuel : nat) (n : nat) (l : list Z) : list (list Z) :=
  match fuel with
  | O => []
  | S f => match l with
           | [] => []
           | _ => firstn n l :: chunks f n (skipn n l)
           end
  end.

(** the 80-word message schedule, most recent word first *)
Fixpoint schedule (n : nat) (rev_w : list Z) : list Z :=
  match n with
  | O => rev_w
  | S n' =>
      let w := rotl 1 (Z.lxor (Z.lxor (nth 2 rev_w 0) (nth 7 rev_w 0))
                              (Z.lxor (nth 13 rev_w 0) (nth 15 rev_w 0))) in
      schedule n' (w :: rev_w)
  end.

Definition round (t : Z) (st : Z * Z * Z * Z * Z) (w : Z) : Z * Z * Z * Z * Z :=
  let '(a, b, c, d, e) := st in
  let '(f, k) :=
    if t <? 20 then (Z.lor (Z.land b c) (Z.land (Z.lxor b 4294967295) d), 1518500249)
    else if t <? 40 then (Z.lxor (Z.lxor b c) d, 1859775393)
    else if t <? 60 then (Z.lor (Z.lor (Z.land b c) (Z.land b d)) (Z.land c d), 2400959708)
    else (Z.lxor (Z.lxor b c) d, 3395469782) in
  (w32 (rotl 5 a + f + e + k + w), a, rotl 30 b, c, d).

Fixpoint rounds (t : Z) (ws : list Z) (st : Z * Z * Z * Z * Z) : Z * Z * Z * Z * Z :=
  match ws with
  | [] => st
  | w :: rest => rounds (t + 1) rest (round t st w)
  end.

Definition block (h : Z * Z * Z * Z * Z) (blk : list Z) : Z * Z * Z * Z * Z :=
  let w16 := map be_word (chunks 16 4 blk) in
  let ws := rev (schedule 64 (rev w16)) in
  let '(h0, h1, h2, h3, h4) := h in
  let '(a, b, c, d, e) := rounds 0 ws h in
  (w32 (h0 + a), w32 (h1 + b), w32 (h2 + c), w32 (h3 + d), w32 (h4 + e)).

Definition sha1_bytes (msg : list Z) : list Z :=
  let p := pad msg in
  let '(h0, h1, h2, h3, h4) :=
    fold_left block (chunks (length p) 64 p)
      (1732584193, 4023233417, 2562383102, 271733878, 3285377520) in
  (be_bytes 4 h0 ++ be_bytes 4 h1 ++ be_bytes 4 h2 ++ be_bytes 4 h3 ++ be_bytes 4 h4)%list.

Definition hmac_sha1_bytes (key msg : list Z) : list Z :=
  let key := if 64 <? Z.of_nat (length key) then sha1_bytes key else key in
  let key := (key ++ repeat 0 (64 - length key)%nat)%list in
  sha1_bytes (map (Z.lxor 92) key ++ sha1_bytes (map (Z.lxor 54) key ++ msg))%list.

(** [h := hmac.New(sha1.New, []byte(key)); h.Write([]byte(message));
    h.Sum(nil)] *)
Definition hmac_sha1 (key message : string) : string :=
  string_of (hmac_sha1_bytes (bytes_of key) (bytes_of message)).

Definition encodeStd : string :=
  "ABCDEFGHIJKLMNOPQRSTUVWXYZabcdefghijklmnopqrstuvwxyz0123456789+/".

Definition b64 (i : Z) : byte := index encodeStd i.

Fixpoint base64_bytes (l : list Z) : list ascii :=
  match l with
  | [] => []
  | [a] => [b64 (Z.shiftr a 2); b64 (Z.land (Z.shiftl a 4) 63); "="; "="]%char
  | [a; b] => [b64 (Z.shiftr a 2);
               b64 (Z.land (Z.lor (Z.shiftl a 4) (Z.shiftr b 4)) 63);
               b64 (Z.land (Z.shiftl b 2) 63); "="%char]
  | a :: b :: c :: rest =>
      b64 (Z.shiftr a 2) ::
      b64 (Z.land (Z.lor (Z.shiftl a 4) (Z.shiftr b 4)) 63) ::
      b64 (Z.land (Z.lor (Z.shiftl b 2) (Z.shiftr c 6)) 63) ::
      b64 (Z.land c 63) :: base64_bytes rest
  end.

(** [base64.StdEncoding.Encode] *)
Definition base64 (s : string) : string :=
  string_of_list_ascii (base64_bytes (bytes_of s)).

(** Lowercase hexadecimal, to state test vectors. *)
Definition hex (l : list Z) : string :=
  string_of_list_ascii (flat_map (fun z =>
    [index "0123456789abcdef" (z / 16); index "0123456789abcdef" (z mod 16)]) l).
End crypto.

(** ** Data model *)

Record stdAuthToken := { token : string; secret : string }.

(** The interface type [AuthToken]: [None] is the nil interface. *)
Abbreviation AuthToken := (option stdAuthToken).

Definition NewStandardAuthToken : stdAuthToken := {| token := ""; secret := "" |}.

#[global] Instance stdAuthToken_eq_dec : EqDecision stdAuthToken.
Proof. solve_decision. Defined.

Record oauth1SecretInfo := { service : string; info_token : string; info_secret : string }.

#[global] Instance oauth1SecretInfo_eq_dec : EqDecision oauth1SecretInfo.
Proof. solve_decision. Defined.

(** The read-only part of the interface [OAuth1Client]: what a provider
    adapter answers.  [CurrentCredentials]/[SetCurrentCredentials] act on
    the [currentCredentials] field of the state below. *)
Record OAuth1Client := {
  ServiceId : string;
  Realm : string;
  ConsumerKey : string;
  ConsumerSecret : string;
  RequestUrl : string;
  RequestUrlMethod : string;
  RequestUrlProtected : bool;
  AccessUrl : string;
  AccessUrlMethod : string;
  AccessUrlProtected : bool;
  AuthorizationUrl : string;
  AuthorizedResourceProtected : bool;
  CallbackUrl : string;
  ParseRequestTokenResult : string -> AuthToken * option error;
  ParseAccessTokenResult : string -> AuthToken * option error
}.

(** [time.Time], as far as [IsZero] and [Unix] read it. *)
Record Time := { Unix : Z; Nanosecond : Z }.

(** The zero [time.Time{}] is January 1, year 1, 00:00:00 UTC. *)
Definition zeroTime : Time := {| Unix := -62135596800; Nanosecond := 0 |}.

Definition IsZero (t : Time) : bool :=
  (Unix t =? Unix zeroTime) && (Nanosecond t =? 0).

(** [*url.URL], as far as the client reads it. *)
Record URL := { RawQuery : string }.

(** [u.Query()]: [ParseQuery(u.RawQuery)] with the error dropped. *)
Definition Query (u : URL) : Values :=
  default ∅ (url.ParseQuery (RawQuery u)).1.

(** [*http.Request].  An outgoing request carries what
    [oauth1GenerateRequest] puts into it; of an incoming callback the
    client reads [URL.Query()] only. *)
Record Request := {
  Method : string;
  RequestURL : string;
  ReqURL : URL;
  Header : option Values;
  Body : option string
}.

(** [resp.Body] as [ioutil.ReadAll] finds it: the bytes read and the read
    error, if any. *)
Record ReadCloser := { data : string; readErr : option error }.

(** [*http.Response] *)
Record Response := { RespBody : option ReadCloser }.

(** What the client calls and this file does not hold: the standard
    library's URL parser and request constructor, the transport, the clock
    and the random source, and the helpers [splitUrl], [MakeUrl] and
    [MakeRequest] of the package's OAuth2 half. *)
Record Runtime := {
  (** [url.Parse]; [None] when it returns an error *)
  url_Parse : string -> option URL;
  (** the error of [http.NewRequest(method, url, body)], if any *)
  http_NewRequest : string -> string -> option error;
  (** [MakeRequest(p, req)]: the exchange with the provider, which may
      depend on the requests sent before *)
  MakeRequest : list Request -> Request -> option Response * option error;
  splitUrl : string -> option Values -> string * option Values;
  MakeUrl : string -> option Values -> string;
  (** the n-th reading of [time.Now().UTC()] *)
  time_Now : nat -> Time;
  (** the n-th 64-bit value read from [rand.Reader] *)
  rand_Uint64 : nat -> Z
}.

(** The constant [GET] of the package. *)
Definition GET : string := "GET".

(** ** State and effects *)

Record State := {
  (** the package variable; [None] is the nil map *)
  oauth1TokenSecretMap : option (gmap string oauth1SecretInfo);
  (** the package variable, a [uint64] *)
  nonceCounter : Z;
  (** the field of [stdOAuth1Client] *)
  currentCredentials : AuthToken;
  (** requests handed to [MakeRequest], oldest first *)
  sent : list Request;
  clockReads : nat;
  randReads : nat
}.

Definition initialState : State :=
  {| oauth1TokenSecretMap := None; nonceCounter := 0; currentCredentials := None;
     sent := []; clockReads := 0; randReads := 0 |}.

Inductive Outcome (A : Type) : Type :=
| Ret (a : A) (s : State)
| Panic (reason : string).
Arguments Ret {A} a s.
Arguments Panic {A} reason.

Definition M (A : Type) : Type := State -> Outcome A.

#[global] Instance M_ret : MRet M := fun A a s => Ret a s.

#[global] Instance M_bind : MBind M := fun A B f c s =>
  match c s with
  | Ret a s' => f a s'
  | Panic r => Panic r
  end.

Definition panic {A} (reason : string) : M A := fun _ => Panic reason.
Definition get : M State := fun s => Ret s s.
Definition put (s : State) : M unit := fun _ => Ret tt s.
Definition modify (f : State -> State) : M unit := fun s => Ret tt (f s).

Definition set_oauth1TokenSecretMap (m : option (gmap string oauth1SecretInfo)) (s : State) : State :=
  {| oauth1TokenSecretMap := m; nonceCounter := nonceCounter s;
     currentCredentials := currentCredentials s; sent := sent s;
     clockReads := clockReads s; randReads := randReads s |}.

Definition set_nonceCounter (n : Z) (s : State) : State :=
  {| oauth1TokenSecretMap := oauth1TokenSecretMap s; nonceCounter := n;
     currentCredentials := currentCredentials s; sent := sent s;
     clockReads := clockReads s; randReads := randReads s |}.

Definition set_currentCredentials (c : AuthToken) (s : State) : State :=
  {| oauth1TokenSecretMap := oauth1TokenSecretMap s; nonceCounter := nonceCounter s;
     currentCredentials := c; sent := sent s;
     clockReads := clockReads s; randReads := randReads s |}.

Definition set_sent (l : list Request) (s : State) : State :=
  {| oauth1TokenSecretMap := oauth1TokenSecretMap s; nonceCounter := nonceCounter s;
     currentCredentials := currentCredentials s; sent := l;
     clockReads := clockReads s; randReads := randReads s |}.

Definition set_clockReads (n : nat) (s : State) : State :=
  {| oauth1TokenSecretMap := oauth1TokenSecretMap s; nonceCounter := nonceCounter s;
     currentCredentials := currentCredentials s; sent := sent s;
     clockReads := n; randReads := randReads s |}.

Definition set_randReads (n : nat) (s : State) : State :=
  {| oauth1TokenSecretMap := oauth1TokenSecretMap s; nonceCounter := nonceCounter s;
     currentCredentials := currentCredentials s; sent := sent s;
     clockReads := clockReads s; randReads := n |}.

(** [p.SetCurrentCredentials(value)] *)
Definition SetCurrentCredentials (value : AuthToken) : M unit :=
  modify (set_currentCredentials value).

(** [p.CurrentCredentials()] *)
Definition CurrentCredentials : M AuthToken :=
  fun s => Ret (currentCredentials s) s.

Definition uint64 (n : Z) : Z := n mod 2 ^ 64.

Section Client.

Context (R : Runtime).

(** [time.Now().UTC()] *)
Definition Now : M Time := fun s =>
  Ret (time_Now R (clockReads s)) (set_clockReads (S (clockReads s)) s).

(** [binary.Read(rand.Reader, binary.BigEndian, &nonceCounter)] *)
Definition readNonceSeed : M unit := fun s =>
  Ret tt (set_randReads (S (randReads s))
           (set_nonceCounter (uint64 (rand_Uint64 R (randReads s))) s)).

(** [newNonce]; the lock matters to concurrent callers only. *)
Definition newNonce : M string :=
  s ← get;
  _ ← (if nonceCounter s =? 0 then readNonceSeed else mret tt);
  s ← get;
  let result := FormatUint16 (nonceCounter s) in
  _ ← modify (set_nonceCounter (uint64 (nonceCounter s + 1)));
  mret result.

(** *** Signing: [oauth1PrepareRequest] *)

(** [for _, v := range arr { params.Add(k, v) }] *)
Definition addValues (k : string) (arr : list string) (params : Values) : Values :=
  fold_left (fun params v => Values.Add params k v) arr params.

(** [for k, arr := range theurl.Query() { for _, v := range arr {
    params.Add(k, v) } }].  The fold visits the keys in one fixed order;
    [lookup_addQueryParams] shows that the result is the same for any. *)
Definition addQueryParams (query params : Values) : Values :=
  map_fold addValues params query.

(** [for k, arr := range additional_params { if len(arr) > 0 {
    params.Del(k); for _, v := range arr { params.Add(k, v) } } }] *)
Definition replaceParams (additional_params params : Values) : Values :=
  map_fold (fun k arr params =>
              if 0 <? Z.of_nat (length arr)
              then addValues k arr (Values.Del params k)
              else params) params additional_params.

(** The parameter set before it is signed: the protocol parameters, the
    parameters of the URL's own query string, then the additional ones,
    which replace same-named parameters. *)
Definition oauth1Params (p : OAuth1Client) (credentials : AuthToken)
    (uri : string) (additional_params : option Values)
    (timestamp : Time) (nonce : string) : Values :=
  let theurl := url_Parse R uri in
  let params : Values := ∅ in
  let params :=
    if 0 <? len (Realm p) then Values.Set_ params "realm" (Realm p) else params in
  let params := Values.Set_ params "oauth_consumer_key" (ConsumerKey p) in
  let params := Values.Set_ params "oauth_signature_method" "HMAC-SHA1" in
  let params := Values.Set_ params "oauth_timestamp" (FormatInt10 (Unix timestamp)) in
  let params := Values.Set_ params "oauth_nonce" nonce in
  let params := Values.Set_ params "oauth_version" "1.0" in
  let params :=
    match credentials with
    | Some c =>
        if 0 <? len (token c) then Values.Set_ params "oauth_token" (token c)
        else if 0 <? len (CallbackUrl p)
             then Values.Set_ params "oauth_callback" (CallbackUrl p) else params
    | None =>
        if 0 <? len (CallbackUrl p)
        then Values.Set_ params "oauth_callback" (CallbackUrl p) else params
    end in
  let params :=
    match theurl with
    | Some u =>
        if 0 <? Z.of_nat (size (Query u))
        then addQueryParams (Query u) params
        else params
    | None => params
    end in
  match additional_params with
  | Some ap =>
      if 0 <? Z.of_nat (size ap)
      then replaceParams ap params
      else params
  | None => params
  end.

(** [params_arr]: for every key in sorted order, one [name=value] entry
    per value. *)
Definition oauth1ParamsArr (params : Values) : list string :=
  flat_map (fun k =>
              let arr := default [] (params !! k) in
              let ek := oauthEncode k in
              map (fun v => Join [ek; oauthEncode v] "=") arr)
           (getSortedKeys params).

(** [params_str] *)
Definition oauth1ParamsStr (params : Values) : string :=
  Join (oauth1ParamsArr params) "&".

(** [method] after the default of the first lines. *)
Definition oauth1Method (method : string) : string :=
  if len method <=? 0 then GET else method.

(** [message], the signature base string. *)
Definition oauth1Message (method uri : string) (params : Values) : string :=
  Join [oauth1Method method;
        oauthEncode (TrimSpace (SplitN2_head uri "?"));
        oauthEncode (oauth1ParamsStr params)] "&".

(** [key], the signing key. *)
Definition oauth1Key (p : OAuth1Client) (credentials : AuthToken) : string :=
  let secret :=
    match credentials with
    | Some c => if 0 <? len (secret c) then secret c else ""
    | None => ""
    end in
  Join [ConsumerSecret p; secret] "&".

(** [signature] *)
Definition oauth1Signature (key message : string) : string :=
  TrimSpace (crypto.base64 (crypto.hmac_sha1 key message)).

Definition oauth1PrepareRequest (p : OAuth1Client) (credentials : AuthToken)
    (method uri : string) (additional_params : option Values)
    (timestamp : Time) (nonce : string) : M Values :=
  timestamp ← (if IsZero timestamp then Now else mret timestamp);
  nonce ← (if len nonce <=? 0 then newNonce else mret nonce);
  let params := oauth1Params p credentials uri additional_params timestamp nonce in
  let message := oauth1Message method uri params in
  let key := oauth1Key p credentials in
  let signature := oauth1Signature key message in
  mret (Values.Set_ params "oauth_signature" signature).

(** *** Request assembly *)

Definition authorizationHeader (v : Values) : string :=
  let realm := Values.Get v "realm" in
  let oauth_realm :=
    if 0 <? len realm
    then "realm=" ++ String dquote (url.QueryEscape realm ++ String dquote ",")
    else "" in
  let field (name : string) :=
    name ++ "=" ++ String dquote (url.QueryEscape (Values.Get v name) ++ String dquote "") in
  "OAuth " ++ oauth_realm ++
  Join [field "oauth_nonce"; field "oauth_timestamp"; field "oauth_version";
        field "oauth_signature_method"; field "oauth_consumer_key";
        field "oauth_token"; field "oauth_signature"] ",".

Definition delOAuthParams (v : Values) : Values :=
  fold_left Values.Del
    ["realm"; "oauth_nonce"; "oauth_timestamp"; "oauth_version";
     "oauth_signature_method"; "oauth_consumer_key"; "oauth_token";
     "oauth_signature"] v.

Definition oauth1GenerateRequest (p : OAuth1Client) (credentials : AuthToken)
    (headers : option Values) (method uri : string)
    (additional_params : option Values) (protected : bool)
    : M (option Request * option error) :=
  let '(finalUri, params) := splitUrl R uri additional_params in
  v ← oauth1PrepareRequest p credentials method uri params zeroTime "";
  let '(headers, v) :=
    if protected
    then (Some (Values.Set_ (default ∅ headers) "Authorization" (authorizationHeader v)),
          delOAuthParams v)
    else (headers, v) in
  let '(finalUri, r) :=
    if String.eqb method GET
    then (if protected then MakeUrl R uri additional_params
          else MakeUrl R finalUri (Some v), None)
    else (uri, Some (url.Encode v)) in
  match http_NewRequest R method finalUri with
  | Some err => mret (None, Some err)
  | None =>
      mret (Some {| Method := if String.eqb method "" then "GET" else method;
                    RequestURL := finalUri;
                    ReqURL := default {| RawQuery := "" |} (url_Parse R finalUri);
                    Header := headers;
                    Body := r |}, None)
  end.

(** The transport, with the request recorded as sent. *)
Definition doMakeRequest (req : Request) : M (option Response * option error) :=
  fun s => Ret (MakeRequest R (sent s) req) (set_sent (sent s ++ [req])%list s).

Definition OAuth1MakeSyncRequest (p : OAuth1Client) (credentials : AuthToken)
    (headers : option Values) (method uri : string)
    (additional_params : option Values) (protected : bool)
    : M (option Response * option error) :=
  '(req, err) ← oauth1GenerateRequest p credentials headers method uri additional_params protected;
  match err, req with
  | Some e, _ => mret (None, Some e)
  | None, Some req => doMakeRequest req
  | None, None => panic "nil request"
  end.

(** *** Credential exchange *)

Definition parseRequestTokenResult (p : OAuth1Client) (value : string) :=
  ParseRequestTokenResult p value.

Definition parseAccessTokenResult (p : OAuth1Client) (value : string) :=
  ParseAccessTokenResult p value.

(** [c != nil && len(c.Token()) > 0 && len(c.Secret()) > 0] *)
Definition usable (c : AuthToken) : bool :=
  match c with
  | Some c => (0 <? len (token c)) && (0 <? len (secret c))
  | None => false
  end.

(** [oauth1TokenSecretMap[key]], which reads a nil map as an empty one. *)
Definition lookupSecretInfo (s : State) (key : string) : option oauth1SecretInfo :=
  default ∅ (oauth1TokenSecretMap s) !! key.

(** The table with the entry of [c] written. *)
Definition withSecretInfo (p : OAuth1Client) (c : stdAuthToken)
    (m : gmap string oauth1SecretInfo) : gmap string oauth1SecretInfo :=
  <[token c := {| service := ServiceId p;
                  info_token := token c;
                  info_secret := secret c |}]> m.

(** [oauth1TokenSecretMap[c.Token()] = &oauth1SecretInfo{...}]; writing
    to a nil map panics. *)
Definition storeSecretInfo (p : OAuth1Client) (c : stdAuthToken) : M unit :=
  fun s =>
    match oauth1TokenSecretMap s with
    | Some m => Ret tt (set_oauth1TokenSecretMap (Some (withSecretInfo p c m)) s)
    | None => Panic "assignment to entry in nil map"
    end.

Definition makeSecretMap (s : State) : State :=
  match oauth1TokenSecretMap s with
  | Some _ => s
  | None => set_oauth1TokenSecretMap (Some ∅) s
  end.

(** [if oauth1TokenSecretMap == nil { oauth1TokenSecretMap = make(...) }] *)
Definition ensureSecretMap : M unit := modify makeSecretMap.

(** [else if err == nil && len(body) > 0 { err = errors.New(body) }] *)
Definition bodyAsError (err2 : option error) (body : string) : option error :=
  if bool_decide (err2 = None) && (0 <? len body)
  then Some (errors_New body) else err2.

Definition getAuthToken (p : OAuth1Client) : M (AuthToken * option error) :=
  '(resp, err) ← OAuth1MakeSyncRequest p None None (RequestUrlMethod p)
                   (RequestUrl p) None (RequestUrlProtected p);
  match err with
  | Some e => mret (None, Some e)
  | None =>
      match resp with
      | None => panic "nil pointer dereference"
      | Some resp =>
          match RespBody resp with
          | None => panic "nil pointer dereference"
          | Some rc =>
              let body := data rc in
              let '(credentials, err) := parseRequestTokenResult p body in
              match credentials with
              | Some c =>
                  if usable credentials
                  then _ ← ensureSecretMap;
                       _ ← storeSecretInfo p c;
                       mret (credentials, err)
                  else mret (credentials, bodyAsError err body)
              | None => mret (credentials, bodyAsError err body)
              end
          end
      end
  end.

(** The secret [oauth1RequestToken] signs with: the table's, under the
    unescaped token; the credentials' own when the table gives none. *)
Definition resolveSecret (s : State) (auth_token : string)
    (credentials : stdAuthToken) : string :=
  let auth_secret :=
    match lookupSecretInfo s auth_token with
    | Some info => info_secret info
    | None => ""
    end in
  if (len auth_secret <=? 0) && (0 <? len (secret credentials))
  then secret credentials else auth_secret.

(** [cred], the credentials the access-token request is signed with. *)
Definition signingCredentials (s : State) (credentials : stdAuthToken) : stdAuthToken :=
  let auth_token := (url.QueryUnescape (token credentials)).1 in
  {| token := auth_token; secret := resolveSecret s auth_token credentials |}.

(** [additional_params] of the access-token request. *)
Definition verifierParams (verifier : string) : Values :=
  let auth_verifier := (url.QueryUnescape verifier).1 in
  if 0 <? len auth_verifier
  then Values.Set_ ∅ "oauth_verifier" auth_verifier else ∅.

(** What [ioutil.ReadAll(resp.Body)] leaves in [body] and [err2]; both
    stay zero when there is no response or no body. *)
Definition readBody (resp : option Response) : string * option error :=
  match resp with
  | Some resp =>
      match RespBody resp with
      | Some rc => (data rc, readErr rc)
      | None => ("", None)
      end
  | None => ("", None)
  end.

(** [if err == nil { err = err2; if err == nil { err = err3 } }] *)
Definition firstError (err err2 err3 : option error) : option error :=
  match err with
  | Some e => Some e
  | None => match err2 with
            | Some e => Some e
            | None => err3
            end
  end.

Definition oauth1RequestToken (p : OAuth1Client) (credentials : AuthToken)
    (verifier : string) : M (AuthToken * string * option error) :=
  _ ← ensureSecretMap;
  match credentials with
  | None => panic "nil pointer dereference"
  | Some credentials =>
      s ← get;
      let cred := signingCredentials s credentials in
      let additional_params := verifierParams verifier in
      '(resp, err) ← OAuth1MakeSyncRequest p (Some cred) None (AccessUrlMethod p)
                       (AccessUrl p) (Some additional_params) (AccessUrlProtected p);
      let '(body, err2) := readBody resp in
      let '(c, err3) := parseAccessTokenResult p body in
      err2 ← match c with
             | Some c' =>
                 if usable c
                 then _ ← storeSecretInfo p c'; mret err2
                 else mret (bodyAsError err2 body)
             | None => mret (bodyAsError err2 body)
             end;
      mret (c, body, firstError err err2 err3)
  end.

Definition defaultOAuth1ParseAuthToken (value : string) : AuthToken * option error :=
  let '(m, err) := url.ParseQuery value in
  let cred :=
    match m with
    | Some m => {| token := Values.Get m "oauth_token";
                   secret := Values.Get m "oauth_token_secret" |}
    | None => NewStandardAuthToken
    end in
  (Some cred, err).

(** [oauth1GenerateAuthorizationUrl]; a nil [temporaryCredentials] is a
    nil dereference. *)
Definition oauth1GenerateAuthorizationUrl (p : OAuth1Client)
    (temporaryCredentials : stdAuthToken) : string :=
  let authUrl := AuthorizationUrl p in
  if ContainsByte authUrl "?"
  then authUrl ++ "&oauth_token=" ++ oauthEncode (token temporaryCredentials)
  else authUrl ++ "?oauth_token=" ++ oauthEncode (token temporaryCredentials).

Definition oauth1GenerateRequestTokenUrl (p : OAuth1Client) : M string :=
  '(cred, err) ← getAuthToken p;
  match cred, err with
  | Some c, None => mret (oauth1GenerateAuthorizationUrl p c)
  | _, _ => mret ""
  end.

Definition oauth1RequestTokenGranted (p : OAuth1Client) (req : option Request)
    : M bool :=
  match req with
  | None => mret false
  | Some req =>
      let q := Query (ReqURL req) in
      let token := Values.Get q "oauth_token" in
      let verifier := Values.Get q "oauth_verifier" in
      if len token <=? 0 then mret false
      else
        let tempCredentials := {| token := token; secret := "" |} in
        '(newCredentials, _, err) ← oauth1RequestToken p (Some tempCredentials) verifier;
        match err, newCredentials with
        | None, Some _ =>
            _ ← SetCurrentCredentials newCredentials;
            mret true
        | _, _ => mret false
        end
  end.

Definition oauth1ExchangeRequestTokenForAccess (p : OAuth1Client)
    (req : option Request) : M (option error) :=
  match req with
  | None => mret (Some (errors_New "Request cannot be nil"))
  | Some req =>
      let q := Query (ReqURL req) in
      let token := Values.Get q "oauth_token" in
      let verifier := Values.Get q "oauth_verifier" in
      if len token <=? 0 then mret (Some (errors_New "Expected oauth_token"))
      else
        s ← get;
        let secret :=
          match lookupSecretInfo s token with
          | Some info => info_secret info
          | None => ""
          end in
        let tempCredentials := {| token := token; secret := secret |} in
        '(newCredentials, body, err) ← oauth1RequestToken p (Some tempCredentials) verifier;
        match err with
        | Some e => mret (Some e)
        | None =>
            if usable newCredentials
            then _ ← SetCurrentCredentials newCredentials; mret None
            else if 0 <? len body then mret (Some (errors_New body))
                 else mret None
        end
  end.

Definition oauth1CreateAuthorizedRequest (p : OAuth1Client) (method : string)
    (headers : option Values) (uri : string) (query : option Values)
    : M (option Request * option error) :=
  let method := if len method <=? 0 then GET else method in
  let method := ToUpper method in
  let headers := Some (default ∅ headers) in
  let query := Some (default ∅ query) in
  cur ← CurrentCredentials;
  oauth1GenerateRequest p cur headers method uri query (AuthorizedResourceProtected p).

End Client.

(** [stdOAuth1Client]: a client whose parsers are the default one. *)
Definition stdOAuth1Client (serviceName realm consumerKey consumerSecret callbackUrl
    requestUrl requestUrlMethod accessUrl accessUrlMethod authorizationUrl : string)
    (protected : bool) : OAuth1Client :=
  {| ServiceId := serviceName; Realm := realm; ConsumerKey := consumerKey;
     ConsumerSecret := consumerSecret;
     RequestUrl := requestUrl; RequestUrlMethod := requestUrlMethod;
     RequestUrlProtected := protected;
     AccessUrl := accessUrl; AccessUrlMethod := accessUrlMethod;
     AccessUrlProtected := protected;
     AuthorizationUrl := authorizationUrl;
     AuthorizedResourceProtected := protected;
     CallbackUrl := callbackUrl;
     ParseRequestTokenResult := defaultOAuth1ParseAuthToken;
     ParseAccessTokenResult := defaultOAuth1ParseAuthToken |}.

(** ** The older generation of the file

    [oauth1_client.go] also exists in a version written for a Go release
    before 1.0 ([os.Error], [container/vector]).  It differs from the
    current one in the places below. *)

Module Legacy.

(** [oauthEncode] is [url.QueryEscape] and nothing more.  The older file
    builds with the library of its day only (packages [http] and [url],
    [os.Error]), whose [QueryEscape] is [url.QueryEscape2396]; what is
    proved of the older base string below does not depend on which of
    the two it is. *)
Definition oauthEncode (text : string) : string := url.QueryEscape2396 text.

(** [message]: the URI is encoded whole, query string included. *)
Definition oauth1Message (method uri params_str : string) : string :=
  Join [oauth1Method method; oauthEncode uri; oauthEncode params_str] "&".

(** The parameter set before it is signed: the protocol parameters, then
    the additional ones.  The URI is not parsed and its query string adds
    nothing. *)
Definition oauth1Params (p : OAuth1Client) (credentials : AuthToken)
    (additional_params : option Values) (timestamp : Time) (nonce : string)
    : Values :=
  let params : Values := ∅ in
  let params :=
    if 0 <? len (Realm p) then Values.Set_ params "realm" (Realm p) else params in
  let params := Values.Set_ params "oauth_consumer_key" (ConsumerKey p) in
  let params := Values.Set_ params "oauth_signature_method" "HMAC-SHA1" in
  let params := Values.Set_ params "oauth_timestamp" (FormatInt10 (Unix timestamp)) in
  let params := Values.Set_ params "oauth_nonce" nonce in
  let params := Values.Set_ params "oauth_version" "1.0" in
  let params :=
    match credentials with
    | Some c =>
        if 0 <? len (token c) then Values.Set_ params "oauth_token" (token c)
        else if 0 <? len (CallbackUrl p)
             then Values.Set_ params "oauth_callback" (CallbackUrl p) else params
    | None =>
        if 0 <? len (CallbackUrl p)
        then Values.Set_ params "oauth_callback" (CallbackUrl p) else params
    end in
  match additional_params with
  | Some ap =>
      if 0 <? Z.of_nat (size ap)
      then replaceParams ap params
      else params
  | None => params
  end.

(** [params_arr], a [vector.StringVector] filled by [Push]. *)
Definition oauth1ParamsArr (params : Values) : list string :=
  flat_map (fun k =>
              let arr := default [] (params !! k) in
              let ek := oauthEncode k in
              map (fun v => Join [ek; oauthEncode v] "=") arr)
           (getSortedKeys params).

(** [params_str] *)
Definition oauth1ParamsStr (params : Values) : string :=
  Join (oauth1ParamsArr params) "&".

Section Signing.

Context (R : Runtime).

(** [oauth1PrepareRequest]; [timestamp] is a [*time.Time], nil for the
    time of the call ([time.UTC()]).  Key and signature are computed as
    in the current file. *)
Definition oauth1PrepareRequest (p : OAuth1Client) (credentials : AuthToken)
    (method uri : string) (additional_params : option Values)
    (timestamp : option Time) (nonce : string) : M Values :=
  timestamp ← (match timestamp with
               | None => Now R
               | Some t => mret t
               end);
  nonce ← (if len nonce <=? 0 then newNonce R else mret nonce);
  let params := oauth1Params p credentials additional_params timestamp nonce in
  let params_str := oauth1ParamsStr params in
  let message := oauth1Message method uri params_str in
  let key := oauth1Key p credentials in
  let signature := oauth1Signature key message in
  mret (Values.Set_ params "oauth_signature" signature).

End Signing.

(** [additional_params]: [oauth_verifier] is always set. *)
Definition verifierParams (verifier : string) : Values :=
  Values.Set_ ∅ "oauth_verifier" (url.QueryUnescape verifier).1.

Section Callback.

(** The exchange itself, which the callback handlers call. *)
Context (oauth1RequestToken :
           AuthToken -> string -> M (AuthToken * string * option error)).

Definition oauth1RequestTokenGranted (req : option Request) : M bool :=
  match req with
  | None => mret false
  | Some req =>
      let q := Query (ReqURL req) in
      let token := Values.Get q "oauth_token" in
      let verifier := Values.Get q "oauth_verifier" in
      if (len token <=? 0) || (len verifier <=? 0) then mret false
      else
        let tempCredentials := {| token := token; secret := "" |} in
        '(newCredentials, _, err) ← oauth1RequestToken (Some tempCredentials) verifier;
        match err, newCredentials with
        | None, Some _ =>
            _ ← SetCurrentCredentials newCredentials;
            mret true
        | _, _ => mret false
        end
  end.

(** The older table maps a token to its secret alone; it is read here as
    the [info_secret] of the entry. *)
Definition oauth1ExchangeRequestTokenForAccess (req : option Request)
    : M (option error) :=
  match req with
  | None => mret (Some (errors_New "Request cannot be nil"))
  | Some req =>
      let q := Query (ReqURL req) in
      let token := Values.Get q "oauth_token" in
      let verifier := Values.Get q "oauth_verifier" in
      if (len token <=? 0) || (len verifier <=? 0)
      then mret (Some (errors_New "Expected both oauth_token and oauth_verifier"))
      else
        s ← get;
        let secret :=
          match lookupSecretInfo s token with
          | Some info => info_secret info
          | None => ""
          end in
        let tempCredentials := {| token := token; secret := secret |} in
        '(newCredentials, body, err) ← oauth1RequestToken (Some tempCredentials) verifier;
        match err with
        | Some e => mret (Some e)
        | None =>
            if usable newCredentials
            then _ ← SetCurrentCredentials newCredentials; mret None
            else if 0 <? len body then mret (Some (errors_New body))
                 else mret None
        end
  end.

End Callback.

End Legacy.

(** ** A runtime to evaluate the client on *)

Module Example.

(** A URL parser that accepts everything and cuts the query at the first
    question mark. *)
Definition parse (uri : string) : option URL :=
  Some {| RawQuery := (url.Cut uri "?").2 |}.

Definition makeUrl (uri : string) (v : option Values) : string :=
  let q := url.Encode (default ∅ v) in
  if String.eqb q "" then uri
  else uri ++ (if ContainsByte uri "?" then "&" else "?") ++ q.

Definition ok (body : string) : option Response * option error :=
  (Some {| RespBody := Some {| data := body; readErr := None |} |}, None).

(** A runtime around a given transport: every request can be built, the
    clock ticks once a reading, the random source counts up. *)
Definition runtime
    (transport : list Request -> Request -> option Response * option error)
    : Runtime :=
  {| url_Parse := parse;
     http_NewRequest := fun _ _ => None;
     MakeRequest := transport;
     splitUrl := fun uri ap => (SplitN2_head uri "?", ap);
     MakeUrl := makeUrl;
     time_Now := fun n => {| Unix := 1234567890 + Z.of_nat n; Nanosecond := 0 |};
     rand_Uint64 := fun n => 1000 + Z.of_nat n |}.

(** A provider that answers the n-th request with the n-th of [bodies]
    and refuses the connection once they are used up. *)
Definition script (bodies : list string)
    : list Request -> Request -> option Response * option error :=
  fun log _ =>
    match bodies !! length log with
    | Some b => ok b
    | None => (None, Some (LibraryError "connection refused"))
    end.

(** The callback request the provider redirects the user to. *)
Definition callback (query : string) : Request :=
  {| Method := "GET"; RequestURL := "http://app/cb?" ++ query;
     ReqURL := {| RawQuery := query |}; Header := None; Body := None |}.

Definition client : OAuth1Client :=
  stdOAuth1Client "svc" "" "ck" "cs" "http://app/cb"
    "http://example.com/request" "GET" "http://example.com/access" "POST"
    "http://example.com/authorize" true.

End Example.

(** ** Specification-side definitions *)

(** The unreserved set [A-Z a-z 0-9 - . _ ~]. *)
Definition unreserved (c : byte) : bool :=
  url.isAlnum c || byte_in c "-._~".

(** Percent-encoding as the specification words it: a byte of the
    unreserved set stands for itself, every other byte becomes [%XX] with
    uppercase digits. *)
Fixpoint spec_percent_encode (s : string) : string :=
  match s with
  | EmptyString => ""
  | String c rest =>
      (if unreserved c then String c "" else url.hexEscape c) ++ spec_percent_encode rest
  end.

(** What [oauthEncode] does to one byte. *)
Definition encodeByte (c : byte) : string :=
  if unreserved c then String c ""
  else if byte_eqb c " " then "+" else url.hexEscape c.

Fixpoint encodeBytes (s : string) : string :=
  match s with
  | EmptyString => ""
  | String c rest => encodeByte c ++ encodeBytes rest
  end.

(** Only the nonce counter and the clock moved: the correlation table, the
    current credentials and the list of requests sent are as before. *)
Definition same_session (s s' : State) : Prop :=
  oauth1TokenSecretMap s' = oauth1TokenSecretMap s /\
  currentCredentials s' = currentCredentials s /\
  sent s' = sent s.

(** The first non-nil error of a list, in list order. *)
Fixpoint first_non_nil (errs : list (option error)) : option error :=
  match errs with
  | [] => None
  | Some e :: _ => Some e
  | None :: rest => first_non_nil rest
  end.

(** The state and the value an outcome carries ([d] for a panic). *)
Definition state_of {A} (o : Outcome A) (d : State) : State :=
  match o with
  | Ret _ s => s
  | Panic _ => d
  end.

Definition value_of {A} (o : Outcome A) (d : A) : A :=
  match o with
  | Ret a _ => a
  | Panic _ => d
  end.

(** The state [oauth1RequestToken] leaves behind: the state [s] after the
    transport, with the entry of a usable [c] written to the table. *)
Definition recorded (p : OAuth1Client) (c : AuthToken) (s : State) : State :=
  match c with
  | Some c' =>
      if usable c
      then set_oauth1TokenSecretMap
             (Some (withSecretInfo p c' (default ∅ (oauth1TokenSecretMap s)))) s
      else s
  | None => s
  end.

(** The body-read error as the exchange reports it: the error of the read,
    and for a body without a usable credential the body itself. *)
Definition bodyReadError (c : AuthToken) (readErr : option error) (body : string)
  : option error :=
  if usable c then readErr else bodyAsError readErr body.

(** The parameter names of a parameter set. *)
Definition parameter_names (params : Values) : list string :=
  elements (dom params).

(** The [name=value] pairs as the specification words them: the names in
    byte-wise lexical order, every value of a name as a pair of its own. *)
Definition spec_pairs (params : Values) : list (string * string) :=
  flat_map (fun k => map (pair k) (default [] (params !! k)))
           (sort_Strings (parameter_names params)).

(** Every name and value percent-encoded, joined by [=], the pairs joined
    by [&]. *)
Definition spec_parameter_string (params : Values) : string :=
  Join (map (fun kv => oauthEncode kv.1 ++ "=" ++ oauthEncode kv.2)
            (spec_pairs params)) "&".

(** [METHOD&encoded(base_url)&encoded(parameter_string)] *)
Definition spec_base_string (method base_url : string) (params : Values) : string :=
  method ++ "&" ++ oauthEncode base_url ++ "&"
         ++ oauthEncode (spec_parameter_string params).

(** The same for the older file, whose encoder is [Legacy.oauthEncode]. *)
Definition legacy_parameter_string (params : Values) : string :=
  Join (map (fun kv => Legacy.oauthEncode kv.1 ++ "=" ++ Legacy.oauthEncode kv.2)
            (spec_pairs params)) "&".

Definition legacy_base_string (method uri : string) (params : Values) : string :=
  method ++ "&" ++ Legacy.oauthEncode uri ++ "&"
         ++ Legacy.oauthEncode (legacy_parameter_string params).

(** The base string with the method in upper case and the URL cut at its
    query string and otherwise untouched. *)
Definition uppercase_base_string (method uri : string) (params : Values) : string :=
  spec_base_string (ToUpper method) (SplitN2_head uri "?") params.

(** The token secret of the credentials, empty when there is none. *)
Definition token_secret_or_empty (credentials : AuthToken) : string :=
  match credentials with
  | Some c => secret c
  | None => ""
  end.

(** The signing key with both secrets percent-encoded. *)
Definition encoded_key (p : OAuth1Client) (credentials : AuthToken) : string :=
  oauthEncode (ConsumerSecret p) ++ "&"
    ++ oauthEncode (token_secret_or_empty credentials).

(** The values of a name after [arr] was appended to them. *)
Definition appended (old : option (list string)) (arr : list string)
  : option (list string) :=
  match arr with
  | [] => old
  | _ :: _ => Some (default [] old ++ arr)%list
  end.

(** The values of a name after [arr] replaced them. *)
Definition replaced (old : option (list string)) (arr : list string)
  : option (list string) :=
  match arr with
  | [] => old
  | _ :: _ => Some arr
  end.

(** ** Definitions for the further properties *)

(** The bytes [oauthEncode] can put out: the unreserved set, [%] and [+]. *)
Definition encoded_byte (c : byte) : bool :=
  unreserved c || byte_eqb c "%" || byte_eqb c "+".

(** [n] calls of [newNonce] in a row. *)
Fixpoint newNonces (R : Runtime) (n : nat) : M (list string) :=
  match n with
  | O => mret []
  | S n' =>
      x ← newNonce R;
      xs ← newNonces R n';
      mret (x :: xs)
  end.

(** The counters [c], [c+1], ... the next [n] calls of [newNonce] print. *)
Fixpoint counters (c : Z) (n : nat) : list Z :=
  match n with
  | O => []
  | S n' => c :: counters (c + 1) n'
  end.

(** The protocol parameters: the parameter set of [oauth1PrepareRequest]
    before the URL's query string and the additional parameters come in. *)
Definition protocolParams (p : OAuth1Client) (credentials : AuthToken)
    (timestamp : Time) (nonce : string) : Values :=
  let params : Values := ∅ in
  let params :=
    if 0 <? len (Realm p) then Values.Set_ params "realm" (Realm p) else params in
  let params := Values.Set_ params "oauth_consumer_key" (ConsumerKey p) in
  let params := Values.Set_ params "oauth_signature_method" "HMAC-SHA1" in
  let params := Values.Set_ params "oauth_timestamp" (FormatInt10 (Unix timestamp)) in
  let params := Values.Set_ params "oauth_nonce" nonce in
  let params := Values.Set_ params "oauth_version" "1.0" in
  match credentials with
  | Some c =>
      if 0 <? len (token c) then Values.Set_ params "oauth_token" (token c)
      else if 0 <? len (CallbackUrl p)
           then Values.Set_ params "oauth_callback" (CallbackUrl p) else params
  | None =>
      if 0 <? len (CallbackUrl p)
      then Values.Set_ params "oauth_callback" (CallbackUrl p) else params
  end.

(** Neither the query string of [uri] nor [additional_params] names [k]. *)
Definition untouched (R : Runtime) (uri : string)
    (additional_params : option Values) (k : string) : Prop :=
  (forall u, url_Parse R uri = Some u -> Query u !! k = None)
  /\ (forall m, additional_params = Some m -> m !! k = None).

(** The names [oauth1GenerateRequest] moves into the [Authorization]
    header of a protected request. *)
Definition headerNames : list string :=
  ["realm"; "oauth_nonce"; "oauth_timestamp"; "oauth_version";
   "oauth_signature_method"; "oauth_consumer_key"; "oauth_token";
   "oauth_signature"].

(** The request an outcome carries (an empty one if there is none). *)
Definition request_of (o : Outcome (option Request * option error)) : Request :=
  match o with
  | Ret (Some r, _) _ => r
  | _ => {| Method := ""; RequestURL := ""; ReqURL := {| RawQuery := "" |};
            Header := None; Body := None |}
  end.

(** Every entry of the correlation table is filed under its own token and
    holds a token and a secret that are not empty. *)
Definition table_wf (s : State) : Prop :=
  forall k info,
    lookupSecretInfo s k = Some info ->
    info_token info = k /\ k <> "" /\ info_secret info <> "".

(** The entry [getAuthToken] and [oauth1RequestToken] write for [c]. *)
Definition secretInfo (p : OAuth1Client) (c : stdAuthToken) : oauth1SecretInfo :=
  {| service := ServiceId p; info_token := token c; info_secret := secret c |}.

(** The table of [s] after a credential [c] came back from the provider:
    a usable one is filed under its token, any other changes nothing. *)
Definition lookupAfter (p : OAuth1Client) (c : AuthToken) (s : State) (k : string)
  : option oauth1SecretInfo :=
  match c with
  | Some c' =>
      if usable c && bool_decide (token c' = k)
      then Some (secretInfo p c')
      else lookupSecretInfo s k
  | None => lookupSecretInfo s k
  end.

(** * Properties *)

(** ** The percent-encoder *)

Ltac each_byte c := destruct c as [[] [] [] [] [] [] [] []].

Lemma index_upperhex_hi (c : byte) : 0 <= Z.shiftr (byteval c) 4 < len url.upperhex.
Proof. each_byte c; vm_compute; split; congruence. Qed.

Lemma index_upperhex_lo (c : byte) : 0 <= Z.land (byteval c) 15 < len url.upperhex.
Proof. each_byte c; vm_compute; split; congruence. Qed.

Lemma app_cons (c : byte) (a b : string) : String c a ++ b = String c (a ++ b).
Proof. reflexivity. Qed.

Lemma app_nil_l (b : string) : "" ++ b = b.
Proof. reflexivity. Qed.

Lemma string_app_assoc (a b c : string) : (a ++ b) ++ c = a ++ (b ++ c).
Proof.
  induction a as [|x a IH]; rewrite ?app_nil_l, ?app_cons; [reflexivity | now rewrite IH].
Qed.

Lemma string_app_nil_r (a : string) : a ++ "" = a.
Proof.
  induction a as [|x a IH]; rewrite ?app_nil_l, ?app_cons; [reflexivity | now rewrite IH].
Qed.

Lemma countMarks_nonneg (s : string) : 0 <= countMarks s.
Proof. induction s as [|c s IH]; simpl; [lia | destruct (isOAuthMark c); lia]. Qed.

Lemma expandMarks_no_marks (s : string) : countMarks s = 0 -> expandMarks s = s.
Proof.
  induction s as [|c s IH]; simpl; intros H; [reflexivity|].
  pose proof (countMarks_nonneg s).
  destruct (isOAuthMark c); [lia|]. rewrite IH by lia. reflexivity.
Qed.

Lemma expandMarks_app (a b : string) :
  expandMarks (a ++ b) = expandMarks a ++ expandMarks b.
Proof.
  induction a as [|c a IH]; rewrite ?app_nil_l, ?app_cons; simpl; [reflexivity|].
  destruct (isOAuthMark c); rewrite ?app_cons; now rewrite IH.
Qed.

(** The byte slice [a] of the source is sized [len(s)+count*2]: the second
    loop fills it exactly. *)
Lemma expandMarks_length (s : string) :
  len (expandMarks s) = len s + countMarks s * 2.
Proof.
  unfold len. induction s as [|c s IH]; simpl; [reflexivity|].
  destruct (isOAuthMark c); simpl String.length; lia.
Qed.

Lemma oauthEncodeWith_expand (f : string -> string) (text : string) :
  oauthEncodeWith f text = expandMarks (f text).
Proof.
  unfold oauthEncodeWith. pose proof (countMarks_nonneg (f text)).
  destruct (0 <? countMarks (f text)) eqn:E; [reflexivity|].
  apply Z.ltb_ge in E. symmetry. apply expandMarks_no_marks. lia.
Qed.

Lemma expand_escape_byte (marks_safe : bool) (c : byte) :
  expandMarks (url.escape marks_safe (String c "")) = encodeByte c.
Proof. destruct marks_safe; each_byte c; vm_compute; reflexivity. Qed.

Lemma escape_cons (marks_safe : bool) (c : byte) (s : string) :
  url.escape marks_safe (String c s) =
  url.escape marks_safe (String c "") ++ url.escape marks_safe s.
Proof. simpl. now rewrite string_app_nil_r. Qed.

Lemma oauthEncodeWith_bytes (marks_safe : bool) (s : string) :
  oauthEncodeWith (url.escape marks_safe) s = encodeBytes s.
Proof.
  rewrite oauthEncodeWith_expand.
  induction s as [|c s IH]; [reflexivity|].
  rewrite escape_cons, expandMarks_app, expand_escape_byte, IH. reflexivity.
Qed.

(** Byte by byte: unreserved bytes are kept, the space becomes [+], every
    other byte becomes [%XX]. *)
Lemma oauthEncode_bytes (s : string) : oauthEncode s = encodeBytes s.
Proof. apply (oauthEncodeWith_bytes false). Qed.

(** The result is the same on a Go release whose [QueryEscape] leaves the
    five marks unescaped: there the second loop escapes them. *)
Lemma oauthEncode_release_independent (s : string) :
  oauthEncodeWith url.QueryEscape2396 s = oauthEncode s.
Proof.
  unfold url.QueryEscape2396. now rewrite oauthEncode_bytes, oauthEncodeWith_bytes.
Qed.

Lemma list_ascii_of_string_app (a b : string) :
  list_ascii_of_string (a ++ b)
  = (list_ascii_of_string a ++ list_ascii_of_string b)%list.
Proof.
  induction a as [|c a IH]; rewrite ?app_nil_l, ?app_cons; [reflexivity|].
  cbn [list_ascii_of_string]. now rewrite IH.
Qed.

(** The escaped text is pure ASCII, so ranging over its runes, as the first
    loop of [oauthEncode] does, is ranging over its bytes. *)
Lemma escape_ascii (marks_safe : bool) (s : string) :
  forallb (fun c => byteval c <? 128) (list_ascii_of_string (url.escape marks_safe s))
  = true.
Proof.
  induction s as [|c s IH]; [reflexivity|].
  rewrite escape_cons, list_ascii_of_string_app, forallb_app, IH, andb_true_r.
  destruct marks_safe; each_byte c; vm_compute; reflexivity.
Qed.

(** The five marks are percent-encoded. *)
Lemma oauthEncode_marks : oauthEncode "!*'()" = "%21%2A%27%28%29".
Proof. vm_compute. reflexivity. Qed.

(** The digits after [%] are uppercase. *)
Lemma hexEscape_uppercase (c : byte) :
  exists h l, url.hexEscape c = String "%" (String h (String l ""))
              /\ byte_in h url.upperhex = true /\ byte_in l url.upperhex = true.
Proof. each_byte c; do 2 eexists; vm_compute; repeat split; reflexivity. Qed.

(** On text without a space, [oauthEncode] is the percent-encoding of the
    specification. *)
Lemma oauthEncode_spec_without_space (s : string) :
  byte_in " " s = false -> oauthEncode s = spec_percent_encode s.
Proof.
  rewrite oauthEncode_bytes.
  induction s as [|c s IH]; cbn [byte_in encodeBytes spec_percent_encode];
    [reflexivity|].
  intros H. apply orb_false_elim in H as [Hc Hs].
  rewrite IH by assumption. unfold encodeByte.
  destruct (unreserved c); [reflexivity|].
  unfold byte_eqb in *. rewrite Ascii.eqb_sym in Hc. now rewrite Hc.
Qed.

(** C3 (failing input): a space lies outside the unreserved set, and
    [oauthEncode] turns it into a plus sign where percent-encoding gives
    [%20]. *)
Theorem oauthEncode_space_is_plus :
  unreserved " " = false /\
  oauthEncode " " = "+" /\
  spec_percent_encode " " = "%20" /\
  oauthEncode "a b" <> spec_percent_encode "a b".
Proof. vm_compute. repeat split; congruence. Qed.

(** ** The default response parser *)

Lemma ParseQuery_non_nil (query : string) :
  exists m err, url.ParseQuery query = (Some m, err).
Proof.
  unfold url.ParseQuery.
  destruct (fold_left url.parseSegment (url.segments query) (∅, None)) as [m err].
  eauto.
Qed.

(** C10: [defaultOAuth1ParseAuthToken] answers every string with a non-nil
    credential, and the empty body with the empty credential and no
    error. *)
Theorem defaultOAuth1ParseAuthToken_total :
  (forall value : string,
      exists cred err, defaultOAuth1ParseAuthToken value = (Some cred, err)) /\
  defaultOAuth1ParseAuthToken "" = (Some {| token := ""; secret := "" |}, None).
Proof.
  split; [|reflexivity].
  intros value. unfold defaultOAuth1ParseAuthToken.
  destruct (url.ParseQuery value) as [m err]. eauto.
Qed.

(** ** Running the monad *)

Lemma same_session_refl (s : State) : same_session s s.
Proof. repeat split. Qed.

Lemma same_session_trans (s1 s2 s3 : State) :
  same_session s1 s2 -> same_session s2 s3 -> same_session s1 s3.
Proof. unfold same_session. intuition congruence. Qed.

Ltac unfold_M :=
  unfold mbind, M_bind, mret, M_ret, get, put, modify, panic in *.

Section Runs.

Context (R : Runtime).

Lemma Now_run (s : State) :
  exists t s', Now R s = Ret t s' /\ same_session s s'.
Proof. unfold Now. do 2 eexists. split; [reflexivity|]. repeat split. Qed.

Lemma newNonce_run (s : State) :
  exists n s', newNonce R s = Ret n s' /\ same_session s s'.
Proof.
  unfold newNonce, readNonceSeed. unfold_M.
  destruct (nonceCounter s =? 0); do 2 eexists; (split; [reflexivity|]);
    repeat split.
Qed.

(** [oauth1PrepareRequest] always returns: the parameter set of
    [oauth1Params] for some time stamp and nonce, with the signature of
    [message] under [key] added. *)
Lemma oauth1PrepareRequest_run (p : OAuth1Client) (credentials : AuthToken)
    (method uri : string) (additional_params : option Values)
    (timestamp : Time) (nonce : string) (s : State) :
  exists timestamp' nonce' s',
    let params := oauth1Params R p credentials uri additional_params timestamp' nonce' in
    oauth1PrepareRequest R p credentials method uri additional_params timestamp nonce s
    = Ret (Values.Set_ params "oauth_signature"
             (oauth1Signature (oauth1Key p credentials)
                              (oauth1Message method uri params))) s'
    /\ same_session s s'
    /\ (IsZero timestamp = false -> timestamp' = timestamp)
    /\ (0 < len nonce -> nonce' = nonce).
Proof.
  unfold oauth1PrepareRequest. unfold_M.
  destruct (IsZero timestamp) eqn:Et.
  - destruct (Now_run s) as (t & s1 & -> & H1).
    destruct (len nonce <=? 0) eqn:En.
    + destruct (newNonce_run s1) as (n & s2 & -> & H2).
      exists t, n, s2. cbn zeta. split; [reflexivity|].
      split; [eapply same_session_trans; eauto|].
      split; [discriminate|]. apply Z.leb_le in En. lia.
    + exists t, nonce, s1. cbn zeta. repeat split; try apply H1. discriminate.
  - destruct (len nonce <=? 0) eqn:En.
    + destruct (newNonce_run s) as (n & s2 & -> & H2).
      exists timestamp, n, s2. cbn zeta. repeat split; try apply H2.
      apply Z.leb_le in En. lia.
    + exists timestamp, nonce, s. cbn zeta. repeat split.
Qed.

End Runs.

Section Exchange.

Context (R : Runtime).

(** [oauth1GenerateRequest] always returns, with either a request or an
    error, and the error is the one of [http.NewRequest]. *)
Lemma oauth1GenerateRequest_run (p : OAuth1Client) (credentials : AuthToken)
    (headers : option Values) (method uri : string)
    (additional_params : option Values) (protected : bool) (s : State) :
  exists res s',
    oauth1GenerateRequest R p credentials headers method uri additional_params protected s
    = Ret res s'
    /\ same_session s s'
    /\ ((exists req, res = (Some req, None))
        \/ (exists u e, http_NewRequest R method u = Some e /\ res = (None, Some e))).
Proof.
  unfold oauth1GenerateRequest.
  destruct (splitUrl R uri additional_params) as [finalUri params].
  unfold_M.
  destruct (oauth1PrepareRequest_run R p credentials method uri params zeroTime "" s)
    as (t & n & s1 & Hrun & Hs & _).
  cbn zeta in Hrun. rewrite Hrun. clear Hrun.
  destruct protected; cbn iota beta.
  - destruct (method =? GET)%string; cbn iota beta;
      match goal with
      | |- context [http_NewRequest R method ?u] =>
          destruct (http_NewRequest R method u) as [e|] eqn:E
      end; do 2 eexists; (split; [reflexivity|]); (split; [exact Hs|]); eauto.
  - destruct (method =? GET)%string; cbn iota beta;
      match goal with
      | |- context [http_NewRequest R method ?u] =>
          destruct (http_NewRequest R method u) as [e|] eqn:E
      end; do 2 eexists; (split; [reflexivity|]); (split; [exact Hs|]); eauto.
Qed.

(** [OAuth1MakeSyncRequest] always returns.  Either the request could not
    be built, and nothing is sent; or exactly one request is handed to
    the transport, whose answer is returned. *)
Lemma OAuth1MakeSyncRequest_run (p : OAuth1Client) (credentials : AuthToken)
    (headers : option Values) (method uri : string)
    (additional_params : option Values) (protected : bool) (s : State) :
  exists resp err s',
    OAuth1MakeSyncRequest R p credentials headers method uri additional_params protected s
    = Ret (resp, err) s'
    /\ oauth1TokenSecretMap s' = oauth1TokenSecretMap s
    /\ currentCredentials s' = currentCredentials s
    /\ ((exists u e, http_NewRequest R method u = Some e
                     /\ resp = None /\ err = Some e /\ sent s' = sent s)
        \/ (exists req, (resp, err) = MakeRequest R (sent s) req
                        /\ sent s' = (sent s ++ [req])%list)).
Proof.
  unfold OAuth1MakeSyncRequest. unfold_M.
  destruct (oauth1GenerateRequest_run p credentials headers method uri
              additional_params protected s) as (res & s1 & -> & (Hm & Hc & Hs) & Hres).
  destruct Hres as [[req ->] | (u & e & Hu & ->)]; cbn iota beta.
  - unfold doMakeRequest.
    destruct (MakeRequest R (sent s1) req) as [resp err] eqn:E.
    exists resp, err. eexists. split; [reflexivity|]. cbn.
    repeat split; try assumption. right. exists req. rewrite <- Hs. now rewrite E.
  - exists None, (Some e), s1. repeat split; try assumption.
    left. exists u, e. repeat split; assumption.
Qed.

Lemma makeSecretMap_allocated (s : State) :
  exists m, oauth1TokenSecretMap (makeSecretMap s) = Some m
            /\ m = default ∅ (oauth1TokenSecretMap s).
Proof.
  unfold makeSecretMap. destruct (oauth1TokenSecretMap s) as [m|] eqn:E.
  - exists m. now rewrite E.
  - exists ∅. split; reflexivity.
Qed.

(** [oauth1RequestToken] on non-nil credentials always returns: it makes
    the request signed with [signingCredentials], reads and parses the
    body, records a usable credential and reports the first error. *)
Lemma oauth1RequestToken_run (p : OAuth1Client) (c : stdAuthToken)
    (verifier : string) (s : State) :
  exists resp err s1,
    OAuth1MakeSyncRequest R p (Some (signingCredentials (makeSecretMap s) c)) None
      (AccessUrlMethod p) (AccessUrl p) (Some (verifierParams verifier))
      (AccessUrlProtected p) (makeSecretMap s) = Ret (resp, err) s1
    /\ oauth1RequestToken R p (Some c) verifier s
       = Ret ((ParseAccessTokenResult p (readBody resp).1).1,
              (readBody resp).1,
              firstError err
                (bodyReadError (ParseAccessTokenResult p (readBody resp).1).1
                               (readBody resp).2 (readBody resp).1)
                (ParseAccessTokenResult p (readBody resp).1).2)
             (recorded p (ParseAccessTokenResult p (readBody resp).1).1 s1).
Proof.
  destruct (OAuth1MakeSyncRequest_run p (Some (signingCredentials (makeSecretMap s) c))
              None (AccessUrlMethod p) (AccessUrl p) (Some (verifierParams verifier))
              (AccessUrlProtected p) (makeSecretMap s))
    as (resp & err & s1 & Hrun & Hm & _ & _).
  exists resp, err, s1. split; [exact Hrun|].
  unfold oauth1RequestToken, ensureSecretMap. unfold_M. cbn beta iota.
  rewrite Hrun. unfold parseAccessTokenResult, bodyReadError, recorded.
  destruct (readBody resp) as [body err2]. cbn [fst snd].
  destruct (ParseAccessTokenResult p body) as [cr err3]. cbn [fst snd].
  destruct cr as [c'|]; [|reflexivity].
  destruct (usable (Some c')); [|reflexivity].
  unfold storeSecretInfo.
  destruct (makeSecretMap_allocated s) as (m & Hsome & ->).
  rewrite Hm, Hsome. reflexivity.
Qed.

Lemma firstError_first_non_nil (err err2 err3 : option error) :
  firstError err err2 err3 = first_non_nil [err; err2; err3].
Proof. destruct err, err2, err3; reflexivity. Qed.

(** What [readBody] reads are the fields of the response's body. *)
Lemma readBody_fields (resp : option Response) :
  readBody resp
  = (match match resp with
           | Some r => RespBody r
           | None => None
           end with
     | Some rc => data rc
     | None => ""
     end,
     match match resp with
           | Some r => RespBody r
           | None => None
           end with
     | Some rc => readErr rc
     | None => None
     end).
Proof. destruct resp as [[[rc|]]|]; reflexivity. Qed.

(** C7: the error [oauth1RequestToken] returns is the first non-nil one
    among the transport error, the body-read error and the parse error,
    in that order.  The body is the [data] of the body of the response
    the transport returned and the read error its [readErr] (both zero
    when there is no response or no body); a body that was read without
    error and holds no usable credential is itself the body-read error,
    verbatim. *)
Theorem oauth1RequestToken_error_priority (p : OAuth1Client) (c : stdAuthToken)
    (verifier : string) (s : State) :
  exists resp transportErr s1 s2,
    OAuth1MakeSyncRequest R p (Some (signingCredentials (makeSecretMap s) c)) None
      (AccessUrlMethod p) (AccessUrl p) (Some (verifierParams verifier))
      (AccessUrlProtected p) (makeSecretMap s) = Ret (resp, transportErr) s1
    /\ let rc := match resp with
                 | Some r => RespBody r
                 | None => None
                 end in
       let body := match rc with
                   | Some rc => data rc
                   | None => ""
                   end in
       let readError := match rc with
                        | Some rc => readErr rc
                        | None => None
                        end in
       let cr := (ParseAccessTokenResult p body).1 in
       let parseErr := (ParseAccessTokenResult p body).2 in
       let bodyErr :=
         match readError with
         | Some e => Some e
         | None => if usable cr then None
                   else if 0 <? len body then Some (errors_New body) else None
         end in
       oauth1RequestToken R p (Some c) verifier s
       = Ret (cr, body, first_non_nil [transportErr; bodyErr; parseErr]) s2
       /\ Error (errors_New body) = body.
Proof.
  destruct (oauth1RequestToken_run p c verifier s) as (resp & err & s1 & Hsync & Hrun).
  exists resp, err, s1. eexists. split; [exact Hsync|].
  cbn zeta. split; [|reflexivity].
  rewrite Hrun, firstError_first_non_nil, readBody_fields. cbn [fst snd].
  do 3 f_equal. unfold bodyReadError, bodyAsError.
  match goal with
  | |- context [bool_decide (?e = None)] => destruct e as [e'|]
  end; cbn.
  - now destruct (usable _).
  - reflexivity.
Qed.

Lemma len_nonempty (t : string) : t <> "" -> (len t <=? 0) = false.
Proof.
  intros H. destruct t as [|c t]; [congruence|].
  apply Z.leb_gt. unfold len. cbn [String.length]. lia.
Qed.

(** C6: a callback without an [oauth_token] value is not granted, the
    strict variant reports an error, and the state, the list of requests
    sent included, is left as it was: no network call is made. *)
Theorem callback_without_token_rejected (p : OAuth1Client) (r : Request) (s : State) :
  Values.Get (Query (ReqURL r)) "oauth_token" = "" ->
  oauth1RequestTokenGranted R p (Some r) s = Ret false s
  /\ oauth1ExchangeRequestTokenForAccess R p (Some r) s
     = Ret (Some (errors_New "Expected oauth_token")) s.
Proof.
  intros H. unfold oauth1RequestTokenGranted, oauth1ExchangeRequestTokenForAccess.
  rewrite H. split; reflexivity.
Qed.

(** A nil request is rejected the same way. *)
Lemma nil_callback_rejected (p : OAuth1Client) (s : State) :
  oauth1RequestTokenGranted R p None s = Ret false s
  /\ oauth1ExchangeRequestTokenForAccess R p None s
     = Ret (Some (errors_New "Request cannot be nil")) s.
Proof. split; reflexivity. Qed.

Lemma sent_makeSecretMap (s : State) : sent (makeSecretMap s) = sent s.
Proof. unfold makeSecretMap. now destruct (oauth1TokenSecretMap s). Qed.

Lemma currentCredentials_recorded (p : OAuth1Client) (c : AuthToken) (s : State) :
  currentCredentials (recorded p c s) = currentCredentials s
  /\ sent (recorded p c s) = sent s.
Proof.
  unfold recorded. destruct c as [c'|]; [|split; reflexivity].
  destruct (usable (Some c')); split; reflexivity.
Qed.

(** When every request can be built and the provider answers the next
    request with a body holding a usable credential, the exchange
    succeeds whatever the temporary credentials and the verifier. *)
Lemma oauth1RequestToken_success (p : OAuth1Client) (t : stdAuthToken)
    (verifier : string) (s : State) (resp : Response) (body : string)
    (c : stdAuthToken) :
  (forall m u, http_NewRequest R m u = None) ->
  (forall req, MakeRequest R (sent s) req = (Some resp, None)) ->
  readBody (Some resp) = (body, None) ->
  ParseAccessTokenResult p body = (Some c, None) ->
  usable (Some c) = true ->
  exists s', oauth1RequestToken R p (Some t) verifier s = Ret (Some c, body, None) s'
             /\ currentCredentials s' = currentCredentials s
             /\ length (sent s') = S (length (sent s)).
Proof.
  intros Hnew Hsend Hbody Hparse Huse.
  destruct (oauth1RequestToken_run p t verifier s) as (resp' & err & s1 & Hsync & Hrun).
  destruct (OAuth1MakeSyncRequest_run p (Some (signingCredentials (makeSecretMap s) t))
              None (AccessUrlMethod p) (AccessUrl p) (Some (verifierParams verifier))
              (AccessUrlProtected p) (makeSecretMap s))
    as (resp2 & err2 & s2 & Hsync2 & _ & Hcur & Hsent).
  rewrite Hsync in Hsync2. injection Hsync2 as <- <- <-.
  destruct Hsent as [(u & e & Hu & _) | (req & Hreq & Hsent)].
  { rewrite Hnew in Hu. discriminate. }
  rewrite sent_makeSecretMap, Hsend in Hreq. injection Hreq as -> ->.
  rewrite Hbody in Hrun. cbn [fst snd] in Hrun. rewrite Hparse in Hrun.
  cbn [fst snd] in Hrun. unfold bodyReadError in Hrun. rewrite Huse in Hrun.
  eexists. split; [exact Hrun|].
  destruct (currentCredentials_recorded p (Some c) s1) as [-> ->].
  split.
  - rewrite Hcur. unfold makeSecretMap. now destruct (oauth1TokenSecretMap s).
  - rewrite Hsent, sent_makeSecretMap, length_app. cbn. lia.
Qed.

(** C8 (amended): a callback that carries a token and no verifier.  The
    current file does not refuse it for that: the access-token request
    is made, and when the provider answers it with a usable credential,
    [oauth1RequestTokenGranted] returns true,
    [oauth1ExchangeRequestTokenForAccess] returns no error, and the
    credential becomes the current one.  The older file refuses it
    before any exchange is attempted, whatever the exchange would do:
    its [oauth1RequestTokenGranted] returns false, its
    [oauth1ExchangeRequestTokenForAccess] an error, and the state is
    left as it was. *)
Theorem missing_verifier_tolerated (p : OAuth1Client) (r : Request) (s : State) :
  Values.Get (Query (ReqURL r)) "oauth_token" <> "" ->
  Values.Get (Query (ReqURL r)) "oauth_verifier" = "" ->
  (forall (resp : Response) (rc : ReadCloser) (c : stdAuthToken),
      (forall m u, http_NewRequest R m u = None) ->
      (forall req, MakeRequest R (sent s) req = (Some resp, None)) ->
      RespBody resp = Some rc ->
      readErr rc = None ->
      ParseAccessTokenResult p (data rc) = (Some c, None) ->
      usable (Some c) = true ->
      (exists s', oauth1RequestTokenGranted R p (Some r) s = Ret true s'
                  /\ currentCredentials s' = Some c
                  /\ length (sent s') = S (length (sent s)))
      /\ (exists s', oauth1ExchangeRequestTokenForAccess R p (Some r) s = Ret None s'
                     /\ currentCredentials s' = Some c
                     /\ length (sent s') = S (length (sent s))))
  /\ (forall exchange,
         Legacy.oauth1RequestTokenGranted exchange (Some r) s = Ret false s)
  /\ (forall exchange,
         Legacy.oauth1ExchangeRequestTokenForAccess exchange (Some r) s
         = Ret (Some (errors_New "Expected both oauth_token and oauth_verifier")) s).
Proof.
  intros Htok Hver. split; [|split].
  - intros resp rc c Hnew Hsend Hrc Herr Hparse Huse.
    assert (Hbody : readBody (Some resp) = (data rc, None)).
    { unfold readBody. rewrite Hrc, Herr. reflexivity. }
    unfold oauth1RequestTokenGranted, oauth1ExchangeRequestTokenForAccess.
    rewrite (len_nonempty _ Htok). unfold_M. split.
    + destruct (oauth1RequestToken_success p
                  {| token := Values.Get (Query (ReqURL r)) "oauth_token"; secret := "" |}
                  (Values.Get (Query (ReqURL r)) "oauth_verifier") s resp (data rc) c
                  Hnew Hsend Hbody Hparse Huse) as (s' & -> & Hcur & Hlen).
      eexists. split; [reflexivity|]. split; [reflexivity|exact Hlen].
    + cbn beta iota.
      match goal with
      | |- context [oauth1RequestToken R p (Some ?t) ?v s] =>
          destruct (oauth1RequestToken_success p t v s resp (data rc) c
                      Hnew Hsend Hbody Hparse Huse) as (s' & -> & Hcur & Hlen)
      end.
      cbn beta iota. rewrite Huse.
      eexists. split; [reflexivity|]. split; [reflexivity|exact Hlen].
  - intros exchange. unfold Legacy.oauth1RequestTokenGranted.
    rewrite Hver, orb_true_r. reflexivity.
  - intros exchange. unfold Legacy.oauth1ExchangeRequestTokenForAccess.
    rewrite Hver, orb_true_r. reflexivity.
Qed.

(** *** The correlation table *)

Lemma lookupSecretInfo_makeSecretMap (s : State) (k : string) :
  lookupSecretInfo (makeSecretMap s) k = lookupSecretInfo s k.
Proof.
  unfold lookupSecretInfo, makeSecretMap.
  destruct (oauth1TokenSecretMap s) eqn:E; [now rewrite E | reflexivity].
Qed.

Lemma lookupSecretInfo_same_table (s s' : State) (k : string) :
  oauth1TokenSecretMap s' = oauth1TokenSecretMap s ->
  lookupSecretInfo s' k = lookupSecretInfo s k.
Proof. unfold lookupSecretInfo. now intros ->. Qed.

Lemma lookupSecretInfo_recorded (p : OAuth1Client) (c : AuthToken) (s : State)
    (k : string) :
  lookupSecretInfo (recorded p c s) k =
  match c with
  | Some c' =>
      if usable c && bool_decide (token c' = k)
      then Some {| service := ServiceId p; info_token := token c';
                   info_secret := secret c' |}
      else lookupSecretInfo s k
  | None => lookupSecretInfo s k
  end.
Proof.
  unfold recorded. destruct c as [c'|]; [|reflexivity].
  destruct (usable (Some c')); [|reflexivity].
  unfold lookupSecretInfo, withSecretInfo. cbn.
  case_bool_decide as E.
  - subst k. apply lookup_insert_eq.
  - now apply lookup_insert_ne.
Qed.

(** What the exchange does to the table: it writes the entry of a usable
    new credential and touches nothing else. *)
Lemma oauth1RequestToken_table (p : OAuth1Client) (t : stdAuthToken)
    (verifier : string) (s s' : State) (cr : AuthToken) (body : string)
    (err : option error) (k : string) :
  oauth1RequestToken R p (Some t) verifier s = Ret (cr, body, err) s' ->
  lookupSecretInfo s' k =
  match cr with
  | Some c' =>
      if usable cr && bool_decide (token c' = k)
      then Some {| service := ServiceId p; info_token := token c';
                   info_secret := secret c' |}
      else lookupSecretInfo s k
  | None => lookupSecretInfo s k
  end.
Proof.
  intros Hrun.
  destruct (oauth1RequestToken_run p t verifier s) as (resp & e & s1 & Hsync & Hrun').
  destruct (OAuth1MakeSyncRequest_run p (Some (signingCredentials (makeSecretMap s) t))
              None (AccessUrlMethod p) (AccessUrl p) (Some (verifierParams verifier))
              (AccessUrlProtected p) (makeSecretMap s))
    as (resp2 & err2 & s2 & Hsync2 & Hm & _ & _).
  rewrite Hsync in Hsync2. injection Hsync2 as <- <- <-.
  rewrite Hrun' in Hrun. injection Hrun as <- _ _ <-.
  rewrite lookupSecretInfo_recorded, (lookupSecretInfo_same_table _ _ k Hm),
    lookupSecretInfo_makeSecretMap.
  reflexivity.
Qed.

(** C9 (amended): the exchange never evicts.  Every key the table held
    before an access-token exchange is still there after it, and its
    entry is the same unless the new credential carries that very token. *)
Theorem table_entries_never_evicted (p : OAuth1Client) (t : stdAuthToken)
    (verifier : string) (s s' : State) (cr : AuthToken) (body : string)
    (err : option error) (k : string) (info : oauth1SecretInfo) :
  oauth1RequestToken R p (Some t) verifier s = Ret (cr, body, err) s' ->
  lookupSecretInfo s k = Some info ->
  is_Some (lookupSecretInfo s' k)
  /\ ((forall c, cr = Some c -> token c <> k) -> lookupSecretInfo s' k = Some info).
Proof.
  intros Hrun Hk. rewrite (oauth1RequestToken_table _ _ _ _ _ _ _ _ k Hrun).
  destruct cr as [c'|]; [|split; eauto].
  case_bool_decide as E.
  - destruct (usable (Some c')); cbn; split; eauto.
    intros Hne. exfalso. now apply (Hne c').
  - rewrite andb_false_r. split; eauto.
Qed.

(** *** What becomes the current credential *)

(** [oauth1ExchangeRequestTokenForAccess] installs usable credentials
    only, and none when it reports an error. *)
Lemma exchange_installs_usable_only (p : OAuth1Client) (req : option Request)
    (s s' : State) (e : option error) :
  oauth1ExchangeRequestTokenForAccess R p req s = Ret e s' ->
  (currentCredentials s' = currentCredentials s
   \/ (e = None /\ usable (currentCredentials s') = true)).
Proof.
  unfold oauth1ExchangeRequestTokenForAccess.
  destruct req as [r|]; [|intros [= <- <-]; now left].
  destruct (len _ <=? 0); [intros [= <- <-]; now left|].
  unfold_M. cbn beta iota.
  match goal with
  | |- context [oauth1RequestToken R p (Some ?t) ?v s] =>
      destruct (oauth1RequestToken_run p t v s) as (resp & err & s1 & Hsync & ->);
      destruct (OAuth1MakeSyncRequest_run p (Some (signingCredentials (makeSecretMap s) t))
              None (AccessUrlMethod p) (AccessUrl p) (Some (verifierParams v))
              (AccessUrlProtected p) (makeSecretMap s))
        as (resp2 & err2 & s2 & Hsync2 & _ & Hcur & _)
  end.
  rewrite Hsync in Hsync2. injection Hsync2 as <- <- <-.
  cbn beta iota.
  assert (Hkeep : currentCredentials
                    (recorded p (ParseAccessTokenResult p (readBody resp).1).1 s1)
                  = currentCredentials s).
  { destruct (currentCredentials_recorded p
                (ParseAccessTokenResult p (readBody resp).1).1 s1) as [-> _].
    rewrite Hcur. unfold makeSecretMap. now destruct (oauth1TokenSecretMap s). }
  destruct (firstError _ _ _); [intros [= <- <-]; now left|].
  destruct (usable (ParseAccessTokenResult p (readBody resp).1).1) eqn:Huse.
  - unfold SetCurrentCredentials. unfold_M. intros [= <- <-]. right. split; [reflexivity|].
    exact Huse.
  - destruct (0 <? len _); intros [= <- <-]; now left.
Qed.

(** When [oauth1RequestTokenGranted] answers false, the current
    credentials are the ones from before. *)
Lemma not_granted_keeps_credentials (p : OAuth1Client) (req : option Request)
    (s s' : State) :
  oauth1RequestTokenGranted R p req s = Ret false s' ->
  currentCredentials s' = currentCredentials s.
Proof.
  unfold oauth1RequestTokenGranted.
  destruct req as [r|]; [|now intros [= <-]].
  destruct (len _ <=? 0); [now intros [= <-]|].
  unfold_M.
  match goal with
  | |- context [oauth1RequestToken R p (Some ?t) ?v s] =>
      destruct (oauth1RequestToken_run p t v s) as (resp & err & s1 & Hsync & ->);
      destruct (OAuth1MakeSyncRequest_run p (Some (signingCredentials (makeSecretMap s) t))
              None (AccessUrlMethod p) (AccessUrl p) (Some (verifierParams v))
              (AccessUrlProtected p) (makeSecretMap s))
        as (resp2 & err2 & s2 & Hsync2 & _ & Hcur & _)
  end.
  rewrite Hsync in Hsync2. injection Hsync2 as <- <- <-.
  cbn beta iota.
  assert (Hkeep : currentCredentials
                    (recorded p (ParseAccessTokenResult p (readBody resp).1).1 s1)
                  = currentCredentials s).
  { destruct (currentCredentials_recorded p
                (ParseAccessTokenResult p (readBody resp).1).1 s1) as [-> _].
    rewrite Hcur. unfold makeSecretMap. now destruct (oauth1TokenSecretMap s). }
  destruct (firstError _ _ _); [now intros [= <-]|].
  destruct (ParseAccessTokenResult p (readBody resp).1).1; [|now intros [= <-]].
  unfold SetCurrentCredentials. unfold_M. intros [= ?].
Qed.

End Exchange.

(** ** Sorting parameter names *)

Lemma string_leb_cons (x y : byte) (a b : string) :
  String.leb (String x a) (String y b) =
  match N.compare (N_of_ascii x) (N_of_ascii y) with
  | Lt => true
  | Eq => String.leb a b
  | Gt => false
  end.
Proof.
  unfold String.leb. cbn [String.compare]. unfold Ascii.compare.
  now destruct (N.compare (N_of_ascii x) (N_of_ascii y)).
Qed.

#[global] Instance string_le_transitive : Transitive string_le.
Proof.
  unfold string_le. intros a. induction a as [|x a IH]; intros b c Hab Hbc.
  - now destruct c.
  - destruct b as [|y b]; [discriminate Hab|].
    destruct c as [|z c]; [discriminate Hbc|].
    rewrite string_leb_cons in *.
    destruct (N.compare_spec (N_of_ascii x) (N_of_ascii y));
      destruct (N.compare_spec (N_of_ascii y) (N_of_ascii z));
      destruct (N.compare_spec (N_of_ascii x) (N_of_ascii z));
      try discriminate; try reflexivity; try lia.
    eapply IH; eassumption.
Qed.

#[global] Instance string_le_total : Total string_le.
Proof. intros a b. apply String.leb_total. Qed.

#[global] Instance string_le_antisymm : AntiSymm eq string_le.
Proof. intros a b. apply String.leb_antisym. Qed.

#[global] Instance string_le_reflexive : Reflexive string_le.
Proof. intros a. destruct (String.leb_total a a); assumption. Qed.

Lemma sort_Strings_sorted (arr : list string) :
  StronglySorted string_le (sort_Strings arr).
Proof. apply StronglySorted_merge_sort; apply _. Qed.

Lemma sort_Strings_permutation (arr : list string) : sort_Strings arr ≡ₚ arr.
Proof. apply merge_sort_Permutation. Qed.

(** The sorted array is the same whatever order the input comes in. *)
Lemma sort_Strings_any_order (arr1 arr2 : list string) :
  arr1 ≡ₚ arr2 -> sort_Strings arr1 = sort_Strings arr2.
Proof.
  intros H. apply (StronglySorted_unique string_le); try apply sort_Strings_sorted.
  now rewrite !sort_Strings_permutation.
Qed.

(** Go leaves the order in which [getKeys] meets the keys unspecified;
    [getSortedKeys] does not depend on it. *)
Lemma getSortedKeys_any_order (m : Values) (keys : list string) :
  keys ≡ₚ getKeys m -> sort_Strings keys = getSortedKeys m.
Proof. apply sort_Strings_any_order. Qed.

Lemma getKeys_NoDup (m : Values) : NoDup (getKeys m).
Proof. apply NoDup_fst_map_to_list. Qed.

Lemma elem_of_getKeys (m : Values) (k : string) :
  k ∈ getKeys m <-> is_Some (m !! k).
Proof.
  unfold getKeys. rewrite list_elem_of_fmap. split.
  - intros ([k' v] & -> & H). apply elem_of_map_to_list in H. eauto.
  - intros [v H]. exists (k, v). split; [reflexivity|]. now apply elem_of_map_to_list.
Qed.

Lemma getSortedKeys_NoDup (m : Values) : NoDup (getSortedKeys m).
Proof.
  unfold getSortedKeys. rewrite sort_Strings_permutation. apply getKeys_NoDup.
Qed.

Lemma elem_of_getSortedKeys (m : Values) (k : string) :
  k ∈ getSortedKeys m <-> is_Some (m !! k).
Proof.
  unfold getSortedKeys. rewrite sort_Strings_permutation. apply elem_of_getKeys.
Qed.

Lemma getKeys_dom (m : Values) : elements (dom m) ≡ₚ getKeys m.
Proof.
  apply NoDup_Permutation.
  - apply NoDup_elements.
  - apply getKeys_NoDup.
  - intros k. rewrite elem_of_elements, elem_of_dom. symmetry. apply elem_of_getKeys.
Qed.

(** ** The signature base string *)

Lemma flat_map_fmap {A B C} (f : B -> C) (g : A -> list B) (l : list A) :
  map f (flat_map g l) = flat_map (fun a => map f (g a)) l.
Proof.
  induction l as [|a l IH]; [reflexivity|].
  cbn [flat_map]. now rewrite map_app, IH.
Qed.

Lemma getSortedKeys_names (params : Values) :
  getSortedKeys params = sort_Strings (parameter_names params).
Proof. symmetry. apply getSortedKeys_any_order, getKeys_dom. Qed.

(** The parameter string of the code is the one of the specification. *)
Lemma oauth1ParamsStr_spec (params : Values) :
  oauth1ParamsStr params = spec_parameter_string params.
Proof.
  unfold oauth1ParamsStr, oauth1ParamsArr, spec_parameter_string, spec_pairs.
  rewrite getSortedKeys_names, flat_map_fmap. f_equal.
  apply flat_map_ext. intros k. rewrite map_map. reflexivity.
Qed.

Lemma oauth1Message_spec (method uri : string) (params : Values) :
  oauth1Message method uri params =
  spec_base_string (oauth1Method method) (TrimSpace (SplitN2_head uri "?")) params.
Proof. unfold oauth1Message. rewrite oauth1ParamsStr_spec. reflexivity. Qed.

(** The names of the pairs are in byte-wise lexical order. *)
Lemma spec_pairs_sorted (params : Values) :
  StronglySorted string_le (spec_pairs params).*1.
Proof.
  unfold spec_pairs.
  pose proof (sort_Strings_sorted (parameter_names params)) as H.
  induction H as [|k ks Hks IH Hall]; [constructor|].
  cbn [flat_map]. rewrite fmap_app.
  induction (default [] (params !! k)) as [|v vs IHv]; [exact IH|].
  cbn. constructor; [exact IHv|].
  apply Forall_app. split.
  - clear. induction vs as [|v' vs IHvs]; constructor; [reflexivity | exact IHvs].
  - apply Forall_forall. intros k' Hk'.
    apply list_elem_of_fmap in Hk' as ([k2 v2] & -> & Hin).
    apply list_elem_of_In, in_flat_map in Hin as (k3 & Hk3 & Hin).
    apply in_map_iff in Hin as (v3 & [= -> ->] & _).
    rewrite Forall_forall in Hall. apply Hall. now apply list_elem_of_In.
Qed.

Lemma filter_pairs_other (k k' : string) (vs : list string) :
  k' <> k -> filter (fun kv : string * string => kv.1 = k) (map (pair k') vs) = [].
Proof.
  intros Hne. induction vs as [|v vs IH]; [reflexivity|].
  cbn [map]. rewrite filter_cons_False; [exact IH | exact Hne].
Qed.

Lemma filter_pairs_same (k : string) (vs : list string) :
  filter (fun kv : string * string => kv.1 = k) (map (pair k) vs) = map (pair k) vs.
Proof.
  induction vs as [|v vs IH]; [reflexivity|].
  cbn [map]. rewrite filter_cons_True by reflexivity. now rewrite IH.
Qed.

Lemma pairs_of_key (params : Values) (keys : list string) (k : string) :
  NoDup keys ->
  (filter (fun kv : string * string => kv.1 = k)
     (flat_map (fun k => map (pair k) (default [] (params !! k))) keys)).*2
  = if bool_decide (k ∈ keys) then default [] (params !! k) else [].
Proof.
  intros Hnd. induction Hnd as [|k' keys Hnotin Hnd IH].
  - reflexivity.
  - cbn [flat_map]. rewrite filter_app, fmap_app, IH.
    destruct (decide (k' = k)) as [->|Hne].
    + rewrite filter_pairs_same, bool_decide_eq_false_2 by exact Hnotin.
      rewrite bool_decide_eq_true_2 by apply list_elem_of_here.
      rewrite app_nil_r, <- list_fmap_compose. apply list_fmap_id.
    + rewrite filter_pairs_other by exact Hne. cbn [fmap list_fmap app].
      rewrite (bool_decide_ext (k ∈ k' :: keys) (k ∈ keys)); [reflexivity|].
      rewrite elem_of_cons. intuition congruence.
Qed.

(** Every value of a name stands in a pair of its own, the values of one
    name in the order the parameter set holds them. *)
Lemma spec_pairs_values (params : Values) (k : string) :
  (filter (fun kv : string * string => kv.1 = k) (spec_pairs params)).*2
  = default [] (params !! k).
Proof.
  unfold spec_pairs. rewrite pairs_of_key.
  - case_bool_decide as E; [reflexivity|].
    rewrite <- getSortedKeys_names, elem_of_getSortedKeys in E.
    destruct (params !! k); [|reflexivity]. exfalso. apply E. eauto.
  - rewrite <- getSortedKeys_names. apply getSortedKeys_NoDup.
Qed.

Lemma oauth1Method_default (method : string) :
  oauth1Method method = if String.eqb method "" then "GET" else method.
Proof. now destruct method. Qed.

(** The older parameter string and base string, in the words of the
    specification. *)
Lemma legacy_oauth1ParamsStr_spec (params : Values) :
  Legacy.oauth1ParamsStr params = legacy_parameter_string params.
Proof.
  unfold Legacy.oauth1ParamsStr, Legacy.oauth1ParamsArr, legacy_parameter_string,
    spec_pairs.
  rewrite getSortedKeys_names, flat_map_fmap. f_equal.
  apply flat_map_ext. intros k. rewrite map_map. reflexivity.
Qed.

Lemma legacy_oauth1Message_spec (method uri : string) (params : Values) :
  Legacy.oauth1Message method uri (Legacy.oauth1ParamsStr params)
  = legacy_base_string (oauth1Method method) uri params.
Proof. unfold Legacy.oauth1Message. rewrite legacy_oauth1ParamsStr_spec. reflexivity. Qed.

(** The older [oauth1PrepareRequest] always returns. *)
Lemma legacy_oauth1PrepareRequest_run (R : Runtime) (p : OAuth1Client)
    (credentials : AuthToken) (method uri : string)
    (additional_params : option Values) (timestamp : option Time) (nonce : string)
    (s : State) :
  exists timestamp' nonce' s',
    let params := Legacy.oauth1Params p credentials additional_params timestamp' nonce' in
    Legacy.oauth1PrepareRequest R p credentials method uri additional_params
      timestamp nonce s
    = Ret (Values.Set_ params "oauth_signature"
             (oauth1Signature (oauth1Key p credentials)
                (Legacy.oauth1Message method uri (Legacy.oauth1ParamsStr params)))) s'
    /\ (forall t, timestamp = Some t -> timestamp' = t)
    /\ (0 < len nonce -> nonce' = nonce).
Proof.
  unfold Legacy.oauth1PrepareRequest. unfold_M.
  destruct timestamp as [t0|].
  - destruct (len nonce <=? 0) eqn:En.
    + destruct (newNonce_run R s) as (n & s2 & -> & H2).
      exists t0, n, s2. cbn zeta. split; [reflexivity|].
      split; [now intros t [= ->]|]. apply Z.leb_le in En. lia.
    + exists t0, nonce, s. cbn zeta. split; [reflexivity|].
      split; [now intros t [= ->]|]. reflexivity.
  - destruct (Now_run R s) as (t & s1 & -> & H1).
    destruct (len nonce <=? 0) eqn:En.
    + destruct (newNonce_run R s1) as (n & s2 & -> & H2).
      exists t, n, s2. cbn zeta. split; [reflexivity|].
      split; [discriminate|]. apply Z.leb_le in En. lia.
    + exists t, nonce, s1. cbn zeta. split; [reflexivity|].
      split; [discriminate|]. reflexivity.
Qed.

(** C1 (amended): [oauth1PrepareRequest] always returns, and signs the base
    string [METHOD&encoded(base URL)&encoded(parameter string)], where
    METHOD is the method as it was passed ([GET] for the empty one, no
    change of case) and the parameter string lists the names in byte-wise
    lexical order, every value of a name as an encoded [name=value] pair
    of its own.  In the current file the base URL is the URI up to its
    first question mark with surrounding white space trimmed, and the
    encoder is [oauthEncode]; in the older file it is the URI as it was
    passed, query string and all, and the encoder is [url.QueryEscape]
    alone.  A time stamp and a nonce that are given are the ones
    signed. *)
Theorem oauth1PrepareRequest_signs_base_string (R : Runtime) (p : OAuth1Client)
    (credentials : AuthToken) (method uri : string)
    (additional_params : option Values) (timestamp : Time) (nonce : string)
    (s : State) :
  (exists timestamp' nonce' s',
    let params := oauth1Params R p credentials uri additional_params timestamp' nonce' in
    let message :=
      spec_base_string (if String.eqb method "" then "GET" else method)
                       (TrimSpace (SplitN2_head uri "?")) params in
    oauth1PrepareRequest R p credentials method uri additional_params timestamp nonce s
    = Ret (Values.Set_ params "oauth_signature"
             (TrimSpace (crypto.base64
                (crypto.hmac_sha1 (oauth1Key p credentials) message)))) s'
    /\ StronglySorted string_le (spec_pairs params).*1
    /\ (forall k, (filter (fun kv : string * string => kv.1 = k) (spec_pairs params)).*2
                  = default [] (params !! k))
    /\ (IsZero timestamp = false -> timestamp' = timestamp)
    /\ (0 < len nonce -> nonce' = nonce))
  /\ (forall timestamp_ptr : option Time,
      exists timestamp' nonce' s',
        let params :=
          Legacy.oauth1Params p credentials additional_params timestamp' nonce' in
        let message :=
          legacy_base_string (if String.eqb method "" then "GET" else method)
                             uri params in
        Legacy.oauth1PrepareRequest R p credentials method uri additional_params
          timestamp_ptr nonce s
        = Ret (Values.Set_ params "oauth_signature"
                 (TrimSpace (crypto.base64
                    (crypto.hmac_sha1 (oauth1Key p credentials) message)))) s'
        /\ StronglySorted string_le (spec_pairs params).*1
        /\ (forall k,
              (filter (fun kv : string * string => kv.1 = k) (spec_pairs params)).*2
              = default [] (params !! k))
        /\ (forall t, timestamp_ptr = Some t -> timestamp' = t)
        /\ (0 < len nonce -> nonce' = nonce)).
Proof.
  split.
  - destruct (oauth1PrepareRequest_run R p credentials method uri additional_params
                timestamp nonce s) as (t & n & s' & Hrun & _ & Ht & Hn).
    exists t, n, s'. cbn zeta in *. split; [|split; [|split; [|split]]].
    + rewrite Hrun, oauth1Message_spec, oauth1Method_default. reflexivity.
    + apply spec_pairs_sorted.
    + apply spec_pairs_values.
    + exact Ht.
    + exact Hn.
  - intros timestamp_ptr.
    destruct (legacy_oauth1PrepareRequest_run R p credentials method uri
                additional_params timestamp_ptr nonce s)
      as (t & n & s' & Hrun & Ht & Hn).
    exists t, n, s'. cbn zeta in *. split; [|split; [|split; [|split]]].
    + rewrite Hrun, legacy_oauth1Message_spec, oauth1Method_default. reflexivity.
    + apply spec_pairs_sorted.
    + apply spec_pairs_values.
    + exact Ht.
    + exact Hn.
Qed.

(** ** The signing key *)

Lemma oauth1Key_join (p : OAuth1Client) (credentials : AuthToken) :
  oauth1Key p credentials = ConsumerSecret p ++ "&" ++ token_secret_or_empty credentials.
Proof.
  unfold oauth1Key, token_secret_or_empty. destruct credentials as [c|]; [|reflexivity].
  destruct (secret c) as [|x t]; reflexivity.
Qed.

(** C2 (amended): the signing key is the consumer secret, an ampersand and
    the token secret, both secrets as they are, without percent-encoding;
    nil credentials and credentials without a secret leave the second
    component empty and the ampersand in place; this key is the one
    [oauth1PrepareRequest] signs with. *)
Theorem oauth1Key_is_verbatim (R : Runtime) (p : OAuth1Client)
    (credentials : AuthToken) (method uri : string)
    (additional_params : option Values) (timestamp : Time) (nonce : string)
    (s : State) :
  oauth1Key p credentials = ConsumerSecret p ++ "&" ++ token_secret_or_empty credentials
  /\ oauth1Key p None = ConsumerSecret p ++ "&"
  /\ (forall t, oauth1Key p (Some {| token := t; secret := "" |}) = ConsumerSecret p ++ "&")
  /\ exists timestamp' nonce' s',
       let params := oauth1Params R p credentials uri additional_params timestamp' nonce' in
       oauth1PrepareRequest R p credentials method uri additional_params timestamp nonce s
       = Ret (Values.Set_ params "oauth_signature"
                (TrimSpace (crypto.base64
                   (crypto.hmac_sha1
                      (ConsumerSecret p ++ "&" ++ token_secret_or_empty credentials)
                      (oauth1Message method uri params))))) s'.
Proof.
  split; [apply oauth1Key_join|]. split; [reflexivity|]. split; [reflexivity|].
  destruct (oauth1PrepareRequest_run R p credentials method uri additional_params
              timestamp nonce s) as (t & n & s' & Hrun & _).
  exists t, n, s'. cbn zeta in *. rewrite Hrun, oauth1Key_join. reflexivity.
Qed.

Lemma encodeBytes_unreserved (t : string) :
  forallb unreserved (list_ascii_of_string t) = true -> encodeBytes t = t.
Proof.
  induction t as [|c t IH]; [reflexivity|].
  cbn [list_ascii_of_string forallb encodeBytes]. intros H.
  apply andb_prop in H as [Hc Ht]. unfold encodeByte. rewrite Hc, IH by exact Ht.
  reflexivity.
Qed.

(** For secrets made of unreserved characters only, the key is also the
    percent-encoded one. *)
Lemma oauth1Key_encoded_when_unreserved (p : OAuth1Client) (credentials : AuthToken) :
  forallb unreserved (list_ascii_of_string (ConsumerSecret p)) = true ->
  forallb unreserved (list_ascii_of_string (token_secret_or_empty credentials)) = true ->
  oauth1Key p credentials = encoded_key p credentials.
Proof.
  intros H1 H2. unfold encoded_key.
  rewrite oauth1Key_join, !oauthEncode_bytes, !encodeBytes_unreserved by assumption.
  reflexivity.
Qed.

(** ** Resolving the temporary secret *)

Lemma byte_eqb_sym (a b : byte) : byte_eqb a b = byte_eqb b a.
Proof. apply Ascii.eqb_sym. Qed.

(** Text without [%] and [+] is its own unescaped form. *)
Lemma QueryUnescape_plain (t : string) :
  byte_in "%" t = false -> byte_in "+" t = false -> url.QueryUnescape t = (t, None).
Proof.
  unfold url.QueryUnescape.
  induction t as [|c t IH]; [reflexivity|].
  cbn [byte_in]. intros Hp Hq.
  apply orb_false_elim in Hp as [Hp Hp']. apply orb_false_elim in Hq as [Hq Hq'].
  rewrite byte_eqb_sym in Hp. rewrite byte_eqb_sym in Hq.
  cbn [url.unescape]. rewrite Hp, (IH Hp' Hq'), Hq. reflexivity.
Qed.

(** A token that unescaping leaves as it is resolves to the secret the table
    holds for it. *)
Lemma signingCredentials_from_table (s : State) (c : stdAuthToken)
    (info : oauth1SecretInfo) :
  url.QueryUnescape (token c) = (token c, None) ->
  lookupSecretInfo s (token c) = Some info ->
  info_secret info <> "" ->
  signingCredentials s c = {| token := token c; secret := info_secret info |}.
Proof.
  intros Hu Hk Hne. unfold signingCredentials, resolveSecret.
  rewrite Hu. cbn [fst]. rewrite Hk.
  destruct (info_secret info) as [|x t] eqn:E; [congruence|]. reflexivity.
Qed.

(** Without an entry under the unescaped token, the secret of the
    credentials passed in is used. *)
Lemma signingCredentials_fallback (s : State) (c : stdAuthToken) :
  lookupSecretInfo s (url.QueryUnescape (token c)).1 = None ->
  signingCredentials s c
  = {| token := (url.QueryUnescape (token c)).1; secret := secret c |}.
Proof.
  intros Hk. unfold signingCredentials, resolveSecret. rewrite Hk.
  destruct (secret c) as [|x t]; reflexivity.
Qed.

(** [getAuthToken] writes the usable credentials it returns to the table,
    under the token as received. *)
Lemma getAuthToken_records (R : Runtime) (p : OAuth1Client) (s s' : State)
    (c : stdAuthToken) (err : option error) :
  getAuthToken R p s = Ret (Some c, err) s' ->
  usable (Some c) = true ->
  lookupSecretInfo s' (token c)
  = Some {| service := ServiceId p; info_token := token c; info_secret := secret c |}.
Proof.
  unfold getAuthToken. unfold_M.
  destruct (OAuth1MakeSyncRequest_run R p None None (RequestUrlMethod p) (RequestUrl p)
              None (RequestUrlProtected p) s) as (resp & e & s1 & -> & Hm & _ & _).
  cbn beta iota. destruct e as [e|]; [discriminate|].
  destruct resp as [resp|]; [|discriminate].
  destruct (RespBody resp) as [rc|]; [|discriminate].
  unfold parseRequestTokenResult.
  destruct (ParseRequestTokenResult p (data rc)) as [cr perr].
  destruct cr as [c'|]; [|discriminate].
  destruct (usable (Some c')) eqn:Huse.
  - unfold ensureSecretMap, storeSecretInfo. unfold_M.
    destruct (makeSecretMap_allocated s1) as (m & -> & _).
    intros [= -> -> <-] _. unfold lookupSecretInfo. cbn. apply lookup_insert_eq.
  - intros [= -> _ _] Hc. congruence.
Qed.

(** ** Evaluations *)

(** The digest, the keyed digest and the encoding on their published test
    vectors (FIPS 180-1, RFC 2202, RFC 4648). *)
Example sha1_abc :
  crypto.hex (crypto.sha1_bytes (crypto.bytes_of "abc"))
  = "a9993e364706816aba3e25717850c26c9cd0d89d".
Proof. vm_compute. reflexivity. Qed.

Example hmac_sha1_rfc2202 :
  crypto.hex (crypto.hmac_sha1_bytes (crypto.bytes_of "Jefe")
                (crypto.bytes_of "what do ya want for nothing?"))
  = "effcdf6ae5eb2fa2d27416d5f184df9c259a7c79".
Proof. vm_compute. reflexivity. Qed.

Example base64_rfc4648 :
  map crypto.base64 ["f"; "fo"; "foo"; "foobar"] = ["Zg=="; "Zm8="; "Zm9v"; "Zm9vYmFy"].
Proof. vm_compute. reflexivity. Qed.

(** The example of the specification: [GET], [http://example.com/resource],
    consumer key [ck], consumer secret [cs], no token, nonce [abc123], time
    stamp 1234567890. *)
Example signature_of_the_example_vector :
  let R := Example.runtime (Example.script []) in
  let signed :=
    value_of (oauth1PrepareRequest R Example.client None "GET"
                "http://example.com/resource" None
                {| Unix := 1234567890; Nanosecond := 0 |} "abc123" initialState) ∅ in
  oauth1Key Example.client None = "cs&"
  /\ signed !! "oauth_nonce" = Some ["abc123"]
  /\ signed !! "oauth_timestamp" = Some ["1234567890"]
  /\ signed !! "oauth_callback" = Some ["http://app/cb"]
  /\ signed !! "oauth_signature" = Some ["AsTiiObpMqOG9ZOS2tQldE8DsR0="].
Proof. vm_compute. repeat split; reflexivity. Qed.

(** C1 (counterexample): a lower-case method is signed as it is, so the
    base string is not the one with the method in upper case and the
    signature is not the digest of that one; and a URI with a leading space
    is trimmed before it is encoded. *)
Lemma lowercase_method_is_signed_verbatim :
  let R := Example.runtime (Example.script []) in
  let uri := "http://example.com/resource?b=1" in
  let timestamp := {| Unix := 1234567890; Nanosecond := 0 |} in
  let params := oauth1Params R Example.client None uri None timestamp "abc123" in
  let signed :=
    value_of (oauth1PrepareRequest R Example.client None "get" uri None
                timestamp "abc123" initialState) ∅ in
  oauth1Message "get" uri params <> uppercase_base_string "get" uri params
  /\ signed !! "oauth_signature"
     <> Some [TrimSpace (crypto.base64
                (crypto.hmac_sha1 (oauth1Key Example.client None)
                                  (uppercase_base_string "get" uri params)))]
  /\ oauth1Message "GET" (" " ++ uri) params
     <> uppercase_base_string "GET" (" " ++ uri) params.
Proof. vm_compute. repeat split; congruence. Qed.

(** C2 (counterexample): a consumer secret with a reserved character goes
    into the key as it is. *)
Lemma key_is_not_percent_encoded :
  let p := stdOAuth1Client "svc" "" "ck" "c/s" "" "" "GET" "" "POST" "" true in
  oauth1Key p None = "c/s&"
  /\ encoded_key p None = "c%2Fs&"
  /\ oauth1Key p (Some {| token := "t"; secret := "a=b" |}) = "c/s&a=b"
  /\ oauth1Key p None <> encoded_key p None.
Proof. vm_compute. repeat split; congruence. Qed.

(** C4 (failing input): the provider issues the temporary token [a+b] with
    secret [S1], and [getAuthToken] files them under [a+b].  The exchange
    unescapes the token once more, looks for [a b], finds nothing, and signs
    with an empty secret although the table holds [S1]. *)
Theorem token_with_plus_misses_the_table :
  let R := Example.runtime
             (Example.script ["oauth_token=a%2Bb&oauth_token_secret=S1"]) in
  let o := getAuthToken R Example.client initialState in
  let s1 := state_of o initialState in
  value_of o (None, None) = (Some {| token := "a+b"; secret := "S1" |}, None)
  /\ lookupSecretInfo s1 "a+b"
     = Some {| service := "svc"; info_token := "a+b"; info_secret := "S1" |}
  /\ signingCredentials (makeSecretMap s1) {| token := "a+b"; secret := "" |}
     = {| token := "a b"; secret := "" |}
  /\ oauth1Key Example.client
       (Some (signingCredentials (makeSecretMap s1) {| token := "a+b"; secret := "" |}))
     = "cs&"
  /\ let o2 := oauth1RequestToken R Example.client
                 (Some {| token := "a+b"; secret := "" |}) "" s1 in
     let params :=
       oauth1Params R Example.client (Some {| token := "a b"; secret := "" |})
         "http://example.com/access" (Some ∅)
         {| Unix := 1234567891; Nanosecond := 0 |} "3e9" in
     let signed :=
       Values.Set_ params "oauth_signature"
         (oauth1Signature "cs&"
            (oauth1Message "POST" "http://example.com/access" params)) in
     Header <$> last (sent (state_of o2 s1))
     = Some (Some {[ "Authorization" := [authorizationHeader signed] ]}).
Proof.
  vm_compute.
  exact (conj eq_refl (conj eq_refl (conj eq_refl (conj eq_refl eq_refl)))).
Qed.

(** C5 (failing input): the provider answers the access-token request with
    an empty body.  [oauth1RequestTokenGranted] reports success and
    replaces the current credentials by an empty one; on the same input
    [oauth1ExchangeRequestTokenForAccess] leaves them alone. *)
Theorem empty_body_installs_empty_credential :
  let R := Example.runtime (Example.script [""]) in
  let old := Some {| token := "AT"; secret := "AS" |} in
  let s := set_currentCredentials old initialState in
  let req := Some (Example.callback "oauth_token=T&oauth_verifier=V") in
  let granted := oauth1RequestTokenGranted R Example.client req s in
  let strict := oauth1ExchangeRequestTokenForAccess R Example.client req s in
  value_of granted false = true
  /\ currentCredentials (state_of granted s) = Some {| token := ""; secret := "" |}
  /\ value_of strict (Some (errors_New "")) = None
  /\ currentCredentials (state_of strict s) = old.
Proof. vm_compute. repeat split; reflexivity. Qed.

(** C8 (counterexample): the provider's callback carries the token [T] and
    no verifier.  Both handlers of the older file refuse it, whatever the
    exchange would answer, and leave the state untouched; the handler of
    the current file, with a provider that issues [(A, B)], grants it. *)
Lemma legacy_refuses_callback_without_verifier :
  let R := Example.runtime (Example.script ["oauth_token=A&oauth_token_secret=B"]) in
  let r := Example.callback "oauth_token=T" in
  Values.Get (Query (ReqURL r)) "oauth_token" = "T"
  /\ Values.Get (Query (ReqURL r)) "oauth_verifier" = ""
  /\ (forall exchange,
         Legacy.oauth1RequestTokenGranted exchange (Some r) initialState
         = Ret false initialState)
  /\ (forall exchange,
         Legacy.oauth1ExchangeRequestTokenForAccess exchange (Some r) initialState
         = Ret (Some (errors_New "Expected both oauth_token and oauth_verifier"))
               initialState)
  /\ value_of (oauth1RequestTokenGranted R Example.client (Some r) initialState) false
     = true.
Proof.
  split; [reflexivity|]. split; [reflexivity|].
  split; [intros exchange; reflexivity|].
  split; [intros exchange; reflexivity|].
  vm_compute. reflexivity.
Qed.

(** C9 (counterexample): after the temporary credentials [(T, S)] were
    exchanged for the access credentials [(A, B)], the table still holds
    the entry of [T], next to the one of [A]. *)
Lemma temporary_entry_survives_exchange :
  let R := Example.runtime
             (Example.script ["oauth_token=T&oauth_token_secret=S";
                              "oauth_token=A&oauth_token_secret=B"]) in
  let s1 := state_of (getAuthToken R Example.client initialState) initialState in
  let o := oauth1RequestToken R Example.client
             (Some {| token := "T"; secret := "" |}) "V" s1 in
  value_of o (None, "", None)
  = (Some {| token := "A"; secret := "B" |}, "oauth_token=A&oauth_token_secret=B", None)
  /\ lookupSecretInfo (state_of o s1) "T"
     = Some {| service := "svc"; info_token := "T"; info_secret := "S" |}
  /\ lookupSecretInfo (state_of o s1) "T" <> None
  /\ is_Some (lookupSecretInfo (state_of o s1) "A").
Proof. vm_compute. repeat split; eauto; congruence. Qed.

(** ** Instances

    The theorems above that carry hypotheses, applied to the example
    provider. *)

(** A callback with a verifier and no token. *)
Lemma callback_without_token_rejected_witness :
  let R := Example.runtime (Example.script []) in
  let r := Example.callback "oauth_verifier=V" in
  Values.Get (Query (ReqURL r)) "oauth_token" = ""
  /\ oauth1RequestTokenGranted R Example.client (Some r) initialState
     = Ret false initialState
  /\ oauth1ExchangeRequestTokenForAccess R Example.client (Some r) initialState
     = Ret (Some (errors_New "Expected oauth_token")) initialState.
Proof.
  split; [reflexivity|].
  apply (callback_without_token_rejected
           (Example.runtime (Example.script [])) Example.client
           (Example.callback "oauth_verifier=V") initialState).
  reflexivity.
Defined.

(** A callback with a token and no verifier, and a provider that issues
    the access credentials [(A, B)]. *)
Lemma missing_verifier_tolerated_witness :
  let R := Example.runtime (Example.script ["oauth_token=A&oauth_token_secret=B"]) in
  let r := Example.callback "oauth_token=T" in
  ((exists s', oauth1RequestTokenGranted R Example.client (Some r) initialState = Ret true s'
               /\ currentCredentials s' = Some {| token := "A"; secret := "B" |}
               /\ length (sent s') = S (length (sent initialState)))
   /\ (exists s', oauth1ExchangeRequestTokenForAccess R Example.client (Some r) initialState
                  = Ret None s'
                  /\ currentCredentials s' = Some {| token := "A"; secret := "B" |}
                  /\ length (sent s') = S (length (sent initialState))))
  /\ (forall exchange,
         Legacy.oauth1RequestTokenGranted exchange (Some r) initialState
         = Ret false initialState)
  /\ (forall exchange,
         Legacy.oauth1ExchangeRequestTokenForAccess exchange (Some r) initialState
         = Ret (Some (errors_New "Expected both oauth_token and oauth_verifier"))
               initialState).
Proof.
  destruct (missing_verifier_tolerated
              (Example.runtime (Example.script ["oauth_token=A&oauth_token_secret=B"]))
              Example.client (Example.callback "oauth_token=T") initialState)
    as (Hcurrent & Hgranted & Hexchange).
  - vm_compute. congruence.
  - reflexivity.
  - split; [|split; assumption].
    apply (Hcurrent
             {| RespBody := Some {| data := "oauth_token=A&oauth_token_secret=B";
                                    readErr := None |} |}
             {| data := "oauth_token=A&oauth_token_secret=B"; readErr := None |}
             {| token := "A"; secret := "B" |}).
    + reflexivity.
    + reflexivity.
    + reflexivity.
    + reflexivity.
    + vm_compute. reflexivity.
    + reflexivity.
Defined.

(** The temporary credentials [(T, S)] exchanged for [(A, B)]. *)
Lemma table_entries_never_evicted_witness :
  let R := Example.runtime
             (Example.script ["oauth_token=T&oauth_token_secret=S";
                              "oauth_token=A&oauth_token_secret=B"]) in
  let s1 := state_of (getAuthToken R Example.client initialState) initialState in
  let o := oauth1RequestToken R Example.client
             (Some {| token := "T"; secret := "" |}) "V" s1 in
  is_Some (lookupSecretInfo (state_of o s1) "T")
  /\ ((forall c, (value_of o (None, "", None)).1.1 = Some c -> token c <> "T") ->
      lookupSecretInfo (state_of o s1) "T"
      = Some {| service := "svc"; info_token := "T"; info_secret := "S" |}).
Proof.
  intros R s1 o.
  apply (table_entries_never_evicted R Example.client
           {| token := "T"; secret := "" |} "V" s1 (state_of o s1)
           (value_of o (None, "", None)).1.1
           "oauth_token=A&oauth_token_secret=B" None "T").
  - vm_compute. reflexivity.
  - vm_compute. reflexivity.
Defined.

(** ** The older generation *)

(** The older [oauthEncode] leaves the five marks as [QueryEscape] leaves
    them. *)
Lemma legacy_oauthEncode_marks : Legacy.oauthEncode "!*'()" = "!*'()".
Proof. vm_compute. reflexivity. Qed.

(** The older base string keeps the query string of the URI. *)
Lemma legacy_message_keeps_query :
  Legacy.oauth1Message "GET" "http://example.com/r?b=1" "b=1"
  = "GET&http%3A%2F%2Fexample.com%2Fr%3Fb%3D1&b%3D1".
Proof. vm_compute. reflexivity. Qed.

(** The older callback handler refuses a callback without a verifier
    before any exchange is attempted. *)
Lemma legacy_callback_requires_verifier
    (exchange : AuthToken -> string -> M (AuthToken * string * option error))
    (r : Request) (s : State) :
  Values.Get (Query (ReqURL r)) "oauth_verifier" = "" ->
  Legacy.oauth1RequestTokenGranted exchange (Some r) s = Ret false s.
Proof.
  intros H. unfold Legacy.oauth1RequestTokenGranted. rewrite H.
  rewrite orb_true_r. reflexivity.
Qed.

Example TrimSpace_examples :
  map TrimSpace [" a b "; String "009" "x" ++ bytes [194; 160; 10]; "   "; "";
                 bytes [226; 128; 168] ++ "y" ++ bytes [133]]
  = ["a b"; "x"; ""; ""; "y" ++ bytes [133]].
Proof. vm_compute. reflexivity. Qed.

(** ** Collecting the parameters *)

Lemma lookup_addValues (k k' : string) (arr : list string) (params : Values) :
  addValues k arr params !! k'
  = if decide (k = k') then appended (params !! k) arr else params !! k'.
Proof.
  unfold addValues. revert params.
  induction arr as [|v arr IH]; intros params; cbn [fold_left].
  - now destruct (decide (k = k')) as [->|].
  - rewrite IH. unfold Values.Add. destruct (decide (k = k')) as [->|Hne].
    + rewrite lookup_insert_eq. unfold appended. cbn [default].
      destruct arr as [|w arr]; [reflexivity|].
      unfold id. now rewrite <- List.app_assoc.
    + now rewrite lookup_insert_ne.
Qed.

(** The parameters of the URL's query string are added to the ones already
    there, whatever the order in which the keys are visited. *)
Lemma lookup_addQueryParams (query params : Values) (k : string) :
  addQueryParams query params !! k
  = match query !! k with
    | Some arr => appended (params !! k) arr
    | None => params !! k
    end.
Proof.
  unfold addQueryParams. revert k.
  apply (map_fold_weak_ind
           (fun r (m : Values) => forall k,
                r !! k = match m !! k with
                         | Some arr => appended (params !! k) arr
                         | None => params !! k
                         end)).
  - intros k. now rewrite lookup_empty.
  - intros i x m r Hi IH k. rewrite lookup_addValues.
    destruct (decide (i = k)) as [->|Hne].
    + rewrite lookup_insert_eq, IH, Hi. reflexivity.
    + rewrite lookup_insert_ne by exact Hne. apply IH.
Qed.

(** Additional parameters replace the values of their name and leave the
    other names alone; a name without values changes nothing. *)
Lemma lookup_replaceParams (additional_params params : Values) (k : string) :
  replaceParams additional_params params !! k
  = match additional_params !! k with
    | Some arr => replaced (params !! k) arr
    | None => params !! k
    end.
Proof.
  unfold replaceParams. revert k.
  apply (map_fold_weak_ind
           (fun r (m : Values) => forall k,
                r !! k = match m !! k with
                         | Some arr => replaced (params !! k) arr
                         | None => params !! k
                         end)).
  - intros k. now rewrite lookup_empty.
  - intros i x m r Hi IH k.
    assert (Hstep : (if 0 <? Z.of_nat (length x)
                     then addValues i x (Values.Del r i) else r) !! k
                    = if decide (i = k) then replaced (r !! i) x else r !! k).
    { destruct x as [|v x].
      - now destruct (decide (i = k)) as [->|].
      - change (0 <? Z.of_nat (length (v :: x))) with true. cbn iota.
        rewrite lookup_addValues. unfold Values.Del.
        destruct (decide (i = k)) as [->|Hne].
        + now rewrite lookup_delete_eq.
        + now rewrite lookup_delete_ne. }
    rewrite Hstep. destruct (decide (i = k)) as [->|Hne].
    + rewrite lookup_insert_eq, IH, Hi. reflexivity.
    + rewrite lookup_insert_ne by exact Hne. apply IH.
Qed.

(** An additional parameter with at least one value overrides whatever the
    protocol parameters and the URL gave for its name. *)
Lemma oauth1Params_additional_override (R : Runtime) (p : OAuth1Client)
    (credentials : AuthToken) (uri : string) (additional_params : Values)
    (timestamp : Time) (nonce : string) (k v : string) (vs : list string) :
  additional_params !! k = Some (v :: vs) ->
  oauth1Params R p credentials uri (Some additional_params) timestamp nonce !! k
  = Some (v :: vs).
Proof.
  intros Hk. unfold oauth1Params.
  assert (Hsize : (0 <? Z.of_nat (size additional_params)) = true).
  { apply Z.ltb_lt. destruct (decide (size additional_params = 0%nat)) as [E|]; [|lia].
    apply map_size_empty_iff in E. subst. now rewrite lookup_empty in Hk. }
  cbv beta iota zeta. rewrite Hsize. cbv iota.
  rewrite lookup_replaceParams, Hk. reflexivity.
Qed.

(** * Further properties of the code *)

(** ** [oauthEncode]: decoding, alphabet, length *)

Lemma unescape_encodeByte (c : byte) (rest : string) :
  url.unescape (encodeByte c ++ rest)
  = match url.unescape rest with
    | (t, None) => (String c t, None)
    | (_, Some e) => ("", Some e)
    end.
Proof. each_byte c; reflexivity. Qed.

Lemma unescape_encodeBytes (s : string) : url.unescape (encodeBytes s) = (s, None).
Proof.
  induction s as [|c s IH]; [reflexivity|].
  cbn [encodeBytes]. now rewrite unescape_encodeByte, IH.
Qed.

(** X1: [url.QueryUnescape] undoes [oauthEncode]: every text is recovered from
    its encoding, byte for byte and without error. *)
Theorem oauthEncode_roundtrip (text : string) :
  url.QueryUnescape (oauthEncode text) = (text, None).
Proof.
  unfold url.QueryUnescape. rewrite oauthEncode_bytes. apply unescape_encodeBytes.
Qed.

Lemma forallb_encodeByte (c : byte) :
  forallb encoded_byte (list_ascii_of_string (encodeByte c)) = true.
Proof. each_byte c; vm_compute; reflexivity. Qed.

(** X2: The encoding is made of unreserved bytes, [%] and [+] only: no [&], no
    [=], no space, nothing above 0x7F. *)
Theorem oauthEncode_alphabet (text : string) :
  forallb encoded_byte (list_ascii_of_string (oauthEncode text)) = true.
Proof.
  rewrite oauthEncode_bytes.
  induction text as [|c s IH]; [reflexivity|].
  cbn [encodeBytes]. rewrite list_ascii_of_string_app, forallb_app, forallb_encodeByte, IH.
  reflexivity.
Qed.

Lemma len_app (a b : string) : len (a ++ b) = len a + len b.
Proof.
  unfold len. induction a as [|c a IH]; rewrite ?app_nil_l, ?app_cons;
    cbn [String.length]; lia.
Qed.

Lemma len_encodeByte (c : byte) : 1 <= len (encodeByte c) <= 3.
Proof. each_byte c; vm_compute; split; congruence. Qed.

(** X3: The byte slice of the second loop is sized exactly: the result is as
    long as the escaped text plus two bytes for every mark in it, on the
    library of today and on the one that leaves the marks to the loop;
    and an encoding is between one and three times as long as the
    text. *)
Theorem oauthEncode_length (text : string) :
  len (oauthEncode text)
  = len (url.QueryEscape text) + countMarks (url.QueryEscape text) * 2
  /\ len (oauthEncode text)
     = len (url.QueryEscape2396 text) + countMarks (url.QueryEscape2396 text) * 2
  /\ len text <= len (oauthEncode text) <= 3 * len text.
Proof.
  split; [|split].
  - unfold oauthEncode. rewrite oauthEncodeWith_expand. apply expandMarks_length.
  - rewrite <- oauthEncode_release_independent, oauthEncodeWith_expand.
    apply expandMarks_length.
  - rewrite oauthEncode_bytes.
    induction text as [|c s IH]; [vm_compute; split; congruence|].
    cbn [encodeBytes]. rewrite len_app.
    pose proof (len_encodeByte c).
    replace (len (String c s)) with (1 + len s)
      by (unfold len; cbn [String.length]; lia).
    lia.
Qed.

(** X4: On a text without a space, [oauthEncode] is the percent-encoding of
    RFC 3986: unreserved bytes kept, every other byte as [%XX] in upper
    case. *)
Theorem oauthEncode_rfc3986_without_space (text : string) :
  byte_in " " text = false -> oauthEncode text = spec_percent_encode text.
Proof. apply oauthEncode_spec_without_space. Qed.

Lemma oauthEncode_rfc3986_without_space_witness :
  byte_in " " "a!b/c~" = false
  /\ oauthEncode "a!b/c~" = spec_percent_encode "a!b/c~".
Proof.
  split; [reflexivity|].
  apply (oauthEncode_rfc3986_without_space "a!b/c~"). reflexivity.
Defined.

(** X5: The fix-up loop makes the encoder independent of the Go release: on a
    release whose [QueryEscape] already escapes the five marks the result
    is the same, byte for byte, as on one that leaves them to the loop;
    and on the former the loop finds no mark to escape. *)
Theorem oauthEncode_same_on_both_releases (text : string) :
  oauthEncodeWith url.QueryEscape text = oauthEncodeWith url.QueryEscape2396 text
  /\ countMarks (url.QueryEscape text) = 0.
Proof.
  split.
  - symmetry. apply oauthEncode_release_independent.
  - unfold url.QueryEscape.
    induction text as [|c s IH]; [reflexivity|].
    rewrite escape_cons.
    assert (Happ : forall a b, countMarks (a ++ b) = countMarks a + countMarks b).
    { intros a b. induction a as [|x a IHa]; rewrite ?app_nil_l, ?app_cons; [reflexivity|].
      cbn [countMarks]. rewrite IHa. lia. }
    rewrite Happ, IH. each_byte c; vm_compute; reflexivity.
Qed.

(** ** [newNonce] *)

Lemma to_hex_uint_nonnil (n : N) : N.to_hex_uint n <> Hexadecimal.Nil.
Proof.
  destruct n as [|p]; [discriminate|]. apply HexadecimalPos.Unsigned.to_uint_nonnil.
Qed.

Lemma FormatUint16_inj (a b : Z) :
  0 <= a -> 0 <= b -> FormatUint16 a = FormatUint16 b -> a = b.
Proof.
  unfold FormatUint16. intros Ha Hb H.
  apply (f_equal HexadecimalString.NilZero.uint_of_string) in H.
  rewrite !HexadecimalString.NilZero.usu in H by apply to_hex_uint_nonnil.
  injection H as H. apply HexadecimalN.Unsigned.to_uint_inj in H. lia.
Qed.

Lemma newNonce_nonzero (R : Runtime) (s : State) :
  nonceCounter s <> 0 ->
  newNonce R s
  = Ret (FormatUint16 (nonceCounter s))
        (set_nonceCounter (uint64 (nonceCounter s + 1)) s).
Proof.
  intros H. unfold newNonce. unfold_M.
  apply Z.eqb_neq in H. rewrite H. reflexivity.
Qed.

Lemma newNonces_run (R : Runtime) (n : nat) (s : State) :
  0 < nonceCounter s ->
  nonceCounter s + Z.of_nat n <= 2 ^ 64 ->
  exists s',
    newNonces R n s = Ret (map FormatUint16 (counters (nonceCounter s) n)) s'
    /\ randReads s' = randReads s.
Proof.
  revert s. induction n as [|n IH]; intros s Hpos Hle.
  - exists s. split; reflexivity.
  - cbn [newNonces]. unfold_M. rewrite newNonce_nonzero by lia.
    destruct n as [|n'].
    + eexists. split; reflexivity.
    + assert (Hc : uint64 (nonceCounter s + 1) = nonceCounter s + 1).
      { unfold uint64. apply Z.mod_small. lia. }
      destruct (IH (set_nonceCounter (uint64 (nonceCounter s + 1)) s))
        as (s' & H & Hr).
      * cbn [nonceCounter set_nonceCounter]. lia.
      * cbn [nonceCounter set_nonceCounter]. lia.
      * rewrite H. cbn [nonceCounter set_nonceCounter]. rewrite Hc.
        exists s'. split; [reflexivity|exact Hr].
Qed.

Lemma counters_spec (c : Z) (n : nat) (x : Z) :
  x ∈ counters c n <-> c <= x < c + Z.of_nat n.
Proof.
  revert c. induction n as [|n IH]; intros c; cbn [counters].
  - rewrite elem_of_nil. lia.
  - rewrite elem_of_cons, IH. lia.
Qed.

Lemma counters_NoDup (c : Z) (n : nat) : NoDup (counters c n).
Proof.
  revert c. induction n as [|n IH]; intros c; cbn [counters]; constructor.
  - rewrite counters_spec. lia.
  - apply IH.
Qed.

(** X6: Nonces do not repeat: as long as the counter does not wrap around,
    successive calls of [newNonce] print successive counter values in
    hexadecimal, all different, and read no random bytes. *)
Theorem newNonce_never_repeats (R : Runtime) (n : nat) (s : State) :
  0 < nonceCounter s ->
  nonceCounter s + Z.of_nat n <= 2 ^ 64 ->
  exists nonces s',
    newNonces R n s = Ret nonces s'
    /\ nonces = map FormatUint16 (counters (nonceCounter s) n)
    /\ NoDup nonces
    /\ randReads s' = randReads s.
Proof.
  intros Hpos Hle.
  assert (Hnd : NoDup (map FormatUint16 (counters (nonceCounter s) n))).
  { apply NoDup_fmap_2_strong; [|apply counters_NoDup].
    intros a b Ha Hb. apply counters_spec in Ha, Hb. apply FormatUint16_inj; lia. }
  destruct (newNonces_run R n s Hpos Hle) as (s' & H & Hr).
  exists (map FormatUint16 (counters (nonceCounter s) n)), s'.
  repeat split; assumption.
Qed.

Lemma newNonce_never_repeats_witness :
  exists nonces s',
    newNonces (Example.runtime (Example.script [])) 3
      (set_nonceCounter 254 initialState) = Ret nonces s'
    /\ nonces = map FormatUint16 (counters 254 3)
    /\ NoDup nonces
    /\ randReads s' = randReads (set_nonceCounter 254 initialState).
Proof.
  apply (newNonce_never_repeats (Example.runtime (Example.script [])) 3
           (set_nonceCounter 254 initialState)).
  - reflexivity.
  - vm_compute. congruence.
Defined.

(** With the counter at zero, [newNonce] seeds it from the random source
    first, once, and prints the seed. *)
Lemma newNonce_seeds (R : Runtime) (s : State) :
  nonceCounter s = 0 ->
  newNonce R s
  = Ret (FormatUint16 (uint64 (rand_Uint64 R (randReads s))))
        (set_nonceCounter (uint64 (uint64 (rand_Uint64 R (randReads s)) + 1))
           (set_randReads (S (randReads s))
              (set_nonceCounter (uint64 (rand_Uint64 R (randReads s))) s))).
Proof.
  intros H. unfold newNonce, readNonceSeed. unfold_M. rewrite H. reflexivity.
Qed.

(** ** [getKeys] and [getSortedKeys] *)

(** X7: [getSortedKeys] returns every key of the map once, in ascending
    byte-wise order, and nothing else. *)
Theorem getSortedKeys_sorted_keys (m : Values) :
  StronglySorted string_le (getSortedKeys m)
  /\ NoDup (getSortedKeys m)
  /\ (forall k, k ∈ getSortedKeys m <-> is_Some (m !! k))
  /\ length (getSortedKeys m) = size m.
Proof.
  split; [apply sort_Strings_sorted|]. split; [apply getSortedKeys_NoDup|].
  split; [apply elem_of_getSortedKeys|].
  unfold getSortedKeys. rewrite sort_Strings_permutation.
  unfold getKeys. rewrite length_fmap. apply length_map_to_list.
Qed.

(** X8: The array is the same whatever order the runtime ranges over the map
    in. *)
Theorem getSortedKeys_iteration_order (m : Values) (keys : list string) :
  keys ≡ₚ getKeys m -> sort_Strings keys = getSortedKeys m.
Proof. apply sort_Strings_any_order. Qed.

Lemma getSortedKeys_iteration_order_witness :
  sort_Strings ["b"; "a"] = getSortedKeys (<["a" := ["1"]]> (<["b" := ["2"]]> ∅)).
Proof.
  apply (getSortedKeys_iteration_order (<["a" := ["1"]]> (<["b" := ["2"]]> ∅)) ["b"; "a"]).
  vm_compute. apply perm_swap.
Defined.

(** ** The parameter set of [oauth1PrepareRequest] *)

Lemma addQueryParams_empty (params : Values) : addQueryParams ∅ params = params.
Proof. unfold addQueryParams. apply map_fold_empty. Qed.

Lemma replaceParams_empty (params : Values) : replaceParams ∅ params = params.
Proof. unfold replaceParams. apply map_fold_empty. Qed.

Lemma size_zero_empty (m : Values) : (0 <? Z.of_nat (size m)) = false -> m = ∅.
Proof. intros H. apply Z.ltb_ge in H. apply map_size_empty_iff. lia. Qed.

Lemma oauth1Params_sources_lookup (R : Runtime) (p : OAuth1Client)
    (credentials : AuthToken) (uri : string) (additional_params : option Values)
    (timestamp : Time) (nonce : string) (k : string) :
  oauth1Params R p credentials uri additional_params timestamp nonce !! k
  = let protocol := protocolParams p credentials timestamp nonce !! k in
    let with_query :=
      match url_Parse R uri with
      | Some u =>
          match Query u !! k with
          | Some arr => appended protocol arr
          | None => protocol
          end
      | None => protocol
      end in
    match additional_params with
    | Some m =>
        match m !! k with
        | Some arr => replaced with_query arr
        | None => with_query
        end
    | None => with_query
    end.
Proof.
  unfold oauth1Params. fold (protocolParams p credentials timestamp nonce).
  cbv zeta.
  set (base := protocolParams p credentials timestamp nonce).
  assert (Hq : forall u,
             (if 0 <? Z.of_nat (size (Query u))
              then addQueryParams (Query u) base else base) !! k
             = match Query u !! k with
               | Some arr => appended (base !! k) arr
               | None => base !! k
               end).
  { intros u. destruct (0 <? Z.of_nat (size (Query u))) eqn:E.
    - apply lookup_addQueryParams.
    - apply size_zero_empty in E. rewrite E, lookup_empty. reflexivity. }
  destruct additional_params as [m|].
  - destruct (0 <? Z.of_nat (size m)) eqn:E.
    + rewrite lookup_replaceParams.
      destruct (url_Parse R uri) as [u|]; [rewrite Hq|]; reflexivity.
    + apply size_zero_empty in E. rewrite E, lookup_empty.
      destruct (url_Parse R uri) as [u|]; [rewrite Hq|]; reflexivity.
  - destruct (url_Parse R uri) as [u|]; [rewrite Hq|]; reflexivity.
Qed.

(** X9: The three sources of parameters, name by name: the protocol parameters
    come first, the values of the URL's query string are appended to them,
    and additional parameters with at least one value replace what is
    there. *)
Theorem oauth1Params_sources (R : Runtime) (p : OAuth1Client)
    (credentials : AuthToken) (uri : string) (additional_params : option Values)
    (timestamp : Time) (nonce : string) (k : string) :
  oauth1Params R p credentials uri additional_params timestamp nonce !! k
  = let protocol := protocolParams p credentials timestamp nonce !! k in
    let with_query :=
      match url_Parse R uri with
      | Some u =>
          match Query u !! k with
          | Some arr => appended protocol arr
          | None => protocol
          end
      | None => protocol
      end in
    match additional_params with
    | Some m =>
        match m !! k with
        | Some arr => replaced with_query arr
        | None => with_query
        end
    | None => with_query
    end.
Proof. apply oauth1Params_sources_lookup. Qed.

Lemma lookup_untouched (R : Runtime) (p : OAuth1Client)
    (credentials : AuthToken) (uri : string) (additional_params : option Values)
    (timestamp : Time) (nonce : string) (k : string) :
  untouched R uri additional_params k ->
  oauth1Params R p credentials uri additional_params timestamp nonce !! k
  = protocolParams p credentials timestamp nonce !! k.
Proof.
  intros [Hu Ha]. rewrite oauth1Params_sources_lookup. cbv zeta.
  destruct additional_params as [m|].
  - rewrite (Ha m eq_refl).
    destruct (url_Parse R uri) as [u|]; [rewrite (Hu u eq_refl)|]; reflexivity.
  - destruct (url_Parse R uri) as [u|]; [rewrite (Hu u eq_refl)|]; reflexivity.
Qed.

Ltac lookup_set :=
  unfold Values.Set_;
  repeat (rewrite lookup_insert_ne by discriminate);
  rewrite ?lookup_insert_eq, ?lookup_empty.

Lemma len_pos_iff (t : string) : (0 <? len t) = negb (String.eqb t "").
Proof. destruct t; reflexivity. Qed.

(** X10: The protocol parameters.  Each of them, when neither the query
    string of the URL nor the additional parameters name it, is: the
    consumer key, [HMAC-SHA1], the time stamp in decimal, the nonce,
    version [1.0]; the realm when the client has one; the token when the
    credentials carry one, the callback URL of the client otherwise,
    never both; and no signature yet.  Other parameters, of the URL or
    additional ones, do not matter. *)
Theorem oauth1Params_protocol (R : Runtime) (p : OAuth1Client)
    (credentials : AuthToken) (uri : string) (additional_params : option Values)
    (timestamp : Time) (nonce : string) :
  let params := oauth1Params R p credentials uri additional_params timestamp nonce in
  let tok := match credentials with Some c => token c | None => "" end in
  let own := untouched R uri additional_params in
  (own "oauth_consumer_key" -> params !! "oauth_consumer_key" = Some [ConsumerKey p])
  /\ (own "oauth_signature_method" ->
      params !! "oauth_signature_method" = Some ["HMAC-SHA1"])
  /\ (own "oauth_timestamp" ->
      params !! "oauth_timestamp" = Some [FormatInt10 (Unix timestamp)])
  /\ (own "oauth_nonce" -> params !! "oauth_nonce" = Some [nonce])
  /\ (own "oauth_version" -> params !! "oauth_version" = Some ["1.0"])
  /\ (own "realm" ->
      params !! "realm" = (if String.eqb (Realm p) "" then None else Some [Realm p]))
  /\ (own "oauth_token" ->
      params !! "oauth_token" = (if String.eqb tok "" then None else Some [tok]))
  /\ (own "oauth_callback" ->
      params !! "oauth_callback"
      = (if String.eqb tok "" && negb (String.eqb (CallbackUrl p) "")
         then Some [CallbackUrl p] else None))
  /\ (own "oauth_signature" -> params !! "oauth_signature" = None).
Proof.
  cbv zeta.
  repeat match goal with |- _ /\ _ => split end;
    intros H; rewrite (lookup_untouched _ _ _ _ _ _ _ _ H);
    unfold protocolParams; cbv zeta;
    (destruct credentials as [[t sec]|]; cbn [token]; rewrite !len_pos_iff;
     [destruct (String.eqb t "")|]; destruct (String.eqb (CallbackUrl p) "");
     destruct (String.eqb (Realm p) ""); cbn [negb andb];
     lookup_set; reflexivity).
Qed.

(** A request with a query string of its own and a verifier among the
    additional parameters. *)
Lemma oauth1Params_protocol_witness :
  let R := Example.runtime (Example.script []) in
  let params :=
    oauth1Params R Example.client (Some {| token := "T"; secret := "S" |})
      "http://example.com/resource?a=1" (Some (verifierParams "V"))
      {| Unix := 1; Nanosecond := 0 |} "n" in
  params !! "oauth_consumer_key" = Some [ConsumerKey Example.client]
  /\ params !! "oauth_signature_method" = Some ["HMAC-SHA1"]
  /\ params !! "oauth_timestamp" = Some [FormatInt10 1]
  /\ params !! "oauth_nonce" = Some ["n"]
  /\ params !! "oauth_version" = Some ["1.0"]
  /\ params !! "realm" = None
  /\ params !! "oauth_token" = Some ["T"]
  /\ params !! "oauth_callback" = None
  /\ params !! "oauth_signature" = None
  /\ params !! "a" = Some ["1"]
  /\ params !! "oauth_verifier" = Some ["V"].
Proof.
  destruct (oauth1Params_protocol (Example.runtime (Example.script [])) Example.client
              (Some {| token := "T"; secret := "S" |})
              "http://example.com/resource?a=1" (Some (verifierParams "V"))
              {| Unix := 1; Nanosecond := 0 |} "n")
    as (H1 & H2 & H3 & H4 & H5 & H6 & H7 & H8 & H9).
  assert (Hown : forall k, k <> "a" -> k <> "oauth_verifier" ->
            untouched (Example.runtime (Example.script []))
              "http://example.com/resource?a=1" (Some (verifierParams "V")) k).
  { intros k Ha Hv. split.
    - intros u [= <-].
      replace (Query {| RawQuery := "a=1" |}) with ({[ "a" := ["1"] ]} : Values)
        by (vm_compute; reflexivity).
      apply lookup_singleton_ne. congruence.
    - intros m [= <-].
      replace (verifierParams "V") with ({[ "oauth_verifier" := ["V"] ]} : Values)
        by (vm_compute; reflexivity).
      apply lookup_singleton_ne. congruence. }
  split; [apply H1, Hown; discriminate|].
  split; [apply H2, Hown; discriminate|].
  split; [apply H3, Hown; discriminate|].
  split; [apply H4, Hown; discriminate|].
  split; [apply H5, Hown; discriminate|].
  split; [apply H6, Hown; discriminate|].
  split; [apply H7, Hown; discriminate|].
  split; [apply H8, Hown; discriminate|].
  split; [apply H9, Hown; discriminate|].
  split; vm_compute; reflexivity.
Defined.

(** X11: The realm is signed: a client with a realm puts [realm=<encoded realm>]
    among the entries of the parameter string the signature is computed
    over (unless the URL or the additional parameters name [realm]
    themselves). *)
Theorem realm_is_signed (R : Runtime) (p : OAuth1Client)
    (credentials : AuthToken) (uri : string) (additional_params : option Values)
    (timestamp : Time) (nonce : string) :
  Realm p <> "" ->
  untouched R uri additional_params "realm" ->
  "realm=" ++ oauthEncode (Realm p)
  ∈ oauth1ParamsArr (oauth1Params R p credentials uri additional_params timestamp nonce).
Proof.
  intros Hrealm Hun.
  set (params := oauth1Params R p credentials uri additional_params timestamp nonce).
  assert (Hk : params !! "realm" = Some [Realm p]).
  { unfold params. rewrite lookup_untouched by exact Hun.
    unfold protocolParams. cbv zeta.
    destruct (Realm p) as [|x r] eqn:E; [congruence|].
    change (0 <? len (String x r)) with true. cbv iota.
    destruct credentials as [c|];
      repeat match goal with |- context [if ?b then _ else _] => destruct b end;
      lookup_set; reflexivity. }
  unfold oauth1ParamsArr. apply list_elem_of_In, in_flat_map.
  exists "realm". split.
  - apply list_elem_of_In, elem_of_getSortedKeys. rewrite Hk. eauto.
  - rewrite Hk. cbn [default map]. left. reflexivity.
Qed.

Lemma realm_is_signed_witness :
  "realm=" ++ oauthEncode "photos"
  ∈ oauth1ParamsArr
      (oauth1Params (Example.runtime (Example.script []))
         (stdOAuth1Client "svc" "photos" "ck" "cs" "" "" "GET" "" "POST" "" true)
         None "http://example.com/r?a=1" None {| Unix := 1; Nanosecond := 0 |} "n").
Proof.
  apply (realm_is_signed (Example.runtime (Example.script []))
           (stdOAuth1Client "svc" "photos" "ck" "cs" "" "" "GET" "" "POST" "" true)
           None "http://example.com/r?a=1" None {| Unix := 1; Nanosecond := 0 |} "n").
  - discriminate.
  - split.
    + intros u [= <-]. vm_compute. reflexivity.
    + intros m [=].
Defined.

(** ** [oauth1PrepareRequest] and the state *)

(** X12: With a time stamp and a nonce given, [oauth1PrepareRequest] reads
    neither the clock nor the nonce counter: the state is left as it was.
    The result is the signed parameter set with [oauth_signature] set to
    the one signature, whatever the caller passed under that name. *)
Theorem oauth1PrepareRequest_given_time_and_nonce (R : Runtime) (p : OAuth1Client)
    (credentials : AuthToken) (method uri : string)
    (additional_params : option Values) (timestamp : Time) (nonce : string)
    (s : State) :
  IsZero timestamp = false ->
  nonce <> "" ->
  let params := oauth1Params R p credentials uri additional_params timestamp nonce in
  let signature :=
    oauth1Signature (oauth1Key p credentials) (oauth1Message method uri params) in
  exists signed,
    oauth1PrepareRequest R p credentials method uri additional_params timestamp nonce s
    = Ret signed s
    /\ signed !! "oauth_signature" = Some [signature]
    /\ (forall k, k <> "oauth_signature" -> signed !! k = params !! k).
Proof.
  intros Ht Hn. cbv zeta. unfold oauth1PrepareRequest. unfold_M.
  rewrite Ht, (len_nonempty nonce Hn).
  eexists. split; [reflexivity|]. unfold Values.Set_. split.
  - apply lookup_insert_eq.
  - intros k Hk. apply lookup_insert_ne. congruence.
Qed.

Lemma oauth1PrepareRequest_given_time_and_nonce_witness :
  let R := Example.runtime (Example.script []) in
  let timestamp := {| Unix := 1234567890; Nanosecond := 0 |} in
  let params :=
    oauth1Params R Example.client None "http://example.com/resource" None
      timestamp "abc123" in
  let signature :=
    oauth1Signature (oauth1Key Example.client None)
      (oauth1Message "GET" "http://example.com/resource" params) in
  exists signed,
    oauth1PrepareRequest R Example.client None "GET" "http://example.com/resource"
      None timestamp "abc123" initialState = Ret signed initialState
    /\ signed !! "oauth_signature" = Some [signature]
    /\ (forall k, k <> "oauth_signature" -> signed !! k = params !! k).
Proof.
  apply (oauth1PrepareRequest_given_time_and_nonce
           (Example.runtime (Example.script [])) Example.client None "GET"
           "http://example.com/resource" None
           {| Unix := 1234567890; Nanosecond := 0 |} "abc123" initialState).
  - reflexivity.
  - discriminate.
Defined.

(** X13: Without them (the way [oauth1GenerateRequest] calls it), it takes one
    reading of the clock and the next nonce, and advances both. *)
Theorem oauth1PrepareRequest_fresh_time_and_nonce (R : Runtime) (p : OAuth1Client)
    (credentials : AuthToken) (method uri : string)
    (additional_params : option Values) (s : State) :
  nonceCounter s <> 0 ->
  let timestamp := time_Now R (clockReads s) in
  let nonce := FormatUint16 (nonceCounter s) in
  let params := oauth1Params R p credentials uri additional_params timestamp nonce in
  oauth1PrepareRequest R p credentials method uri additional_params zeroTime "" s
  = Ret (Values.Set_ params "oauth_signature"
           (oauth1Signature (oauth1Key p credentials) (oauth1Message method uri params)))
        (set_nonceCounter (uint64 (nonceCounter s + 1))
           (set_clockReads (S (clockReads s)) s)).
Proof.
  intros Hc. cbv zeta. unfold oauth1PrepareRequest. unfold_M.
  change (IsZero zeroTime) with true. change (len "" <=? 0) with true.
  cbv iota. unfold Now. cbv beta iota.
  rewrite newNonce_nonzero by exact Hc. reflexivity.
Qed.

Lemma oauth1PrepareRequest_fresh_time_and_nonce_witness :
  let R := Example.runtime (Example.script []) in
  let s := set_nonceCounter 255 initialState in
  let timestamp := time_Now R (clockReads s) in
  let nonce := FormatUint16 (nonceCounter s) in
  let params :=
    oauth1Params R Example.client None "http://example.com/r" None timestamp nonce in
  oauth1PrepareRequest R Example.client None "GET" "http://example.com/r" None
    zeroTime "" s
  = Ret (Values.Set_ params "oauth_signature"
           (oauth1Signature (oauth1Key Example.client None)
              (oauth1Message "GET" "http://example.com/r" params)))
        (set_nonceCounter (uint64 (nonceCounter s + 1))
           (set_clockReads (S (clockReads s)) s)).
Proof.
  apply (oauth1PrepareRequest_fresh_time_and_nonce
           (Example.runtime (Example.script [])) Example.client None "GET"
           "http://example.com/r" None (set_nonceCounter 255 initialState)).
  discriminate.
Defined.

(** ** [oauth1GenerateRequest] and [OAuth1MakeSyncRequest] *)

Lemma lookup_delOAuthParams (v : Values) (k : string) :
  delOAuthParams v !! k = if bool_decide (k ∈ headerNames) then None else v !! k.
Proof.
  unfold delOAuthParams, headerNames, Values.Del. cbn [fold_left].
  case_bool_decide as E.
  - repeat (apply elem_of_cons in E as [->|E];
            [repeat (rewrite lookup_delete_ne by discriminate);
             apply lookup_delete_eq|]).
    now apply elem_of_nil in E.
  - repeat (rewrite lookup_delete_ne;
            [|intros <-; apply E; repeat (try apply list_elem_of_here;
                                          apply list_elem_of_further)]).
    reflexivity.
Qed.

(** What [oauth1GenerateRequest] builds from the signed parameter set. *)
Lemma oauth1GenerateRequest_built (R : Runtime) (p : OAuth1Client)
    (credentials : AuthToken) (headers : option Values) (method uri : string)
    (additional_params : option Values) (protected : bool) (s s' : State)
    (req : Request) :
  oauth1GenerateRequest R p credentials headers method uri additional_params protected s
  = Ret (Some req, None) s' ->
  exists signed,
    oauth1PrepareRequest R p credentials method uri
      (splitUrl R uri additional_params).2 zeroTime "" s = Ret signed s'
    /\ Header req
       = (if protected
          then Some (Values.Set_ (default ∅ headers) "Authorization"
                       (authorizationHeader signed))
          else headers)
    /\ Body req
       = (if String.eqb method GET then None
          else Some (url.Encode (if protected then delOAuthParams signed else signed)))
    /\ RequestURL req
       = (if String.eqb method GET
          then (if protected then MakeUrl R uri additional_params
                else MakeUrl R (splitUrl R uri additional_params).1 (Some signed))
          else uri).
Proof.
  unfold oauth1GenerateRequest.
  destruct (splitUrl R uri additional_params) as [finalUri params]. cbn [fst snd].
  unfold_M.
  destruct (oauth1PrepareRequest R p credentials method uri params zeroTime "" s)
    as [signed s1|]; [|discriminate].
  destruct protected, (String.eqb method GET); cbn iota beta;
    match goal with
    | |- context [http_NewRequest R method ?u] =>
        destruct (http_NewRequest R method u); [discriminate|]
    end; intros [= <- <-]; exists signed; repeat split; reflexivity.
Qed.

(** X14: Method dispatch: a request whose method is exactly [GET] has no body;
    every other method (also [get] in lower case) sends the parameters
    form-encoded in the body (of a protected request the signed set
    without the header names, of an unprotected one all of it) and leaves
    the URI as it was given. *)
Theorem oauth1GenerateRequest_dispatch (R : Runtime) (p : OAuth1Client)
    (credentials : AuthToken) (headers : option Values) (method uri : string)
    (additional_params : option Values) (protected : bool) (s s' : State)
    (req : Request) :
  oauth1GenerateRequest R p credentials headers method uri additional_params protected s
  = Ret (Some req, None) s' ->
  (method = "GET" -> Body req = None)
  /\ (method <> "GET" ->
      RequestURL req = uri
      /\ exists signed,
          oauth1PrepareRequest R p credentials method uri
            (splitUrl R uri additional_params).2 zeroTime "" s = Ret signed s'
          /\ Body req
             = Some (url.Encode (if protected then delOAuthParams signed else signed))).
Proof.
  intros Hrun.
  destruct (oauth1GenerateRequest_built _ _ _ _ _ _ _ _ _ _ _ Hrun)
    as (signed & Hprep & _ & Hbody & Hurl).
  split.
  - intros ->. exact Hbody.
  - intros Hne. apply String.eqb_neq in Hne. unfold GET in *.
    rewrite Hne in Hbody, Hurl. split; [exact Hurl|]. eauto.
Qed.

(** A [POST] with a parameter that holds marks: the body escapes them. *)
Lemma oauth1GenerateRequest_dispatch_witness :
  let R := Example.runtime (Example.script []) in
  let s := set_nonceCounter 1 initialState in
  let o := oauth1GenerateRequest R Example.client None None "POST"
             "http://example.com/r" (Some {[ "d!" := ["(v)"] ]}) false s in
  (("POST" = "GET" -> Body (request_of o) = None)
   /\ ("POST" <> "GET" ->
       RequestURL (request_of o) = "http://example.com/r"
       /\ exists signed,
           oauth1PrepareRequest R Example.client None "POST" "http://example.com/r"
             (splitUrl R "http://example.com/r" (Some {[ "d!" := ["(v)"] ]})).2
             zeroTime "" s = Ret signed (state_of o s)
           /\ Body (request_of o)
              = Some (url.Encode (if false then delOAuthParams signed else signed))))
  /\ Body (request_of o)
     = Some ("d%21=%28v%29&oauth_callback=http%3A%2F%2Fapp%2Fcb"
             ++ "&oauth_consumer_key=ck&oauth_nonce=1"
             ++ "&oauth_signature=ZCqOqpOu4DUu0XhARMXm8K06ndQ%3D"
             ++ "&oauth_signature_method=HMAC-SHA1&oauth_timestamp=1234567890"
             ++ "&oauth_version=1.0").
Proof.
  intros R s o. split.
  - apply (oauth1GenerateRequest_dispatch R Example.client None None "POST"
             "http://example.com/r" (Some {[ "d!" := ["(v)"] ]}) false s (state_of o s)
             (request_of o)).
    vm_compute. reflexivity.
  - vm_compute. reflexivity.
Defined.

(** X15: A protected request carries one [Authorization] header, added to the
    headers passed in.  With a method other than [GET] its body is the
    form encoding of the signed parameters without the eight names that
    went into the header; [oauth_callback] and [oauth_verifier] are not
    among those eight and stay in the body.  With [GET] it has no body
    and its URL is [MakeUrl] of the URI and the additional parameters as
    they were passed in: nothing of the signed set is added to them. *)
Theorem oauth1GenerateRequest_protected (R : Runtime) (p : OAuth1Client)
    (credentials : AuthToken) (headers : option Values) (method uri : string)
    (additional_params : option Values) (s s' : State) (req : Request) :
  oauth1GenerateRequest R p credentials headers method uri additional_params true s
  = Ret (Some req, None) s' ->
  exists signed,
    oauth1PrepareRequest R p credentials method uri
      (splitUrl R uri additional_params).2 zeroTime "" s = Ret signed s'
    /\ Header req
       = Some (<["Authorization" := [authorizationHeader signed]]> (default ∅ headers))
    /\ (method = "GET" ->
        Body req = None /\ RequestURL req = MakeUrl R uri additional_params)
    /\ (method <> "GET" ->
        RequestURL req = uri
        /\ exists body_params : Values,
            Body req = Some (url.Encode body_params)
            /\ (forall k, body_params !! k
                          = if bool_decide (k ∈ headerNames) then None else signed !! k)
            /\ body_params !! "oauth_signature" = None
            /\ body_params !! "oauth_callback" = signed !! "oauth_callback"
            /\ body_params !! "oauth_verifier" = signed !! "oauth_verifier").
Proof.
  intros Hrun.
  destruct (oauth1GenerateRequest_built _ _ _ _ _ _ _ _ _ _ _ Hrun)
    as (signed & Hprep & Hhead & Hbody & Hurl).
  exists signed. split; [exact Hprep|]. split; [exact Hhead|]. split.
  - intros ->. split; [exact Hbody|exact Hurl].
  - intros Hne. apply String.eqb_neq in Hne. unfold GET in *.
    rewrite Hne in Hbody, Hurl. split; [exact Hurl|].
    exists (delOAuthParams signed). split; [exact Hbody|].
    split; [apply lookup_delOAuthParams|].
    rewrite !lookup_delOAuthParams. repeat split.
Qed.

(** A protected [GET] with a verifier among the additional parameters. *)
Lemma oauth1GenerateRequest_protected_witness :
  let R := Example.runtime (Example.script []) in
  let s := set_nonceCounter 1 initialState in
  let o := oauth1GenerateRequest R Example.client None None "GET"
             "http://example.com/r" (Some {[ "oauth_verifier" := ["V"] ]}) true s in
  (exists signed,
    oauth1PrepareRequest R Example.client None "GET" "http://example.com/r"
      (splitUrl R "http://example.com/r" (Some {[ "oauth_verifier" := ["V"] ]})).2
      zeroTime "" s = Ret signed (state_of o s)
    /\ Header (request_of o)
       = Some (<["Authorization" := [authorizationHeader signed]]> (default ∅ None))
    /\ ("GET" = "GET" ->
        Body (request_of o) = None
        /\ RequestURL (request_of o)
           = MakeUrl R "http://example.com/r" (Some {[ "oauth_verifier" := ["V"] ]}))
    /\ ("GET" <> "GET" ->
        RequestURL (request_of o) = "http://example.com/r"
        /\ exists body_params : Values,
            Body (request_of o) = Some (url.Encode body_params)
            /\ (forall k, body_params !! k
                          = if bool_decide (k ∈ headerNames) then None else signed !! k)
            /\ body_params !! "oauth_signature" = None
            /\ body_params !! "oauth_callback" = signed !! "oauth_callback"
            /\ body_params !! "oauth_verifier" = signed !! "oauth_verifier"))
  /\ RequestURL (request_of o) = "http://example.com/r?oauth_verifier=V"
  /\ Body (request_of o) = None.
Proof.
  intros R s o. split.
  - apply (oauth1GenerateRequest_protected R Example.client None None "GET"
             "http://example.com/r" (Some {[ "oauth_verifier" := ["V"] ]}) s
             (state_of o s) (request_of o)).
    vm_compute. reflexivity.
  - vm_compute. split; reflexivity.
Defined.

(** X16: An unprotected request gets no [Authorization] header: the headers are
    the ones passed in, and the whole signed set, signature included, is
    sent: form-encoded in the body with a method other than [GET], and
    handed to [MakeUrl] with the URI that [splitUrl] returned with
    [GET]. *)
Theorem oauth1GenerateRequest_unprotected (R : Runtime) (p : OAuth1Client)
    (credentials : AuthToken) (headers : option Values) (method uri : string)
    (additional_params : option Values) (s s' : State) (req : Request) :
  oauth1GenerateRequest R p credentials headers method uri additional_params false s
  = Ret (Some req, None) s' ->
  exists signed,
    oauth1PrepareRequest R p credentials method uri
      (splitUrl R uri additional_params).2 zeroTime "" s = Ret signed s'
    /\ Header req = headers
    /\ is_Some (signed !! "oauth_signature")
    /\ (method = "GET" ->
        Body req = None
        /\ RequestURL req
           = MakeUrl R (splitUrl R uri additional_params).1 (Some signed))
    /\ (method <> "GET" ->
        RequestURL req = uri /\ Body req = Some (url.Encode signed)).
Proof.
  intros Hrun.
  destruct (oauth1GenerateRequest_built _ _ _ _ _ _ _ _ _ _ _ Hrun)
    as (signed & Hprep & Hhead & Hbody & Hurl).
  exists signed. split; [exact Hprep|]. split; [exact Hhead|]. split; [|split].
  - destruct (oauth1PrepareRequest_run R p credentials method uri
                (splitUrl R uri additional_params).2 zeroTime "" s)
      as (t & n & s1 & Hrun1 & _).
    cbv zeta in Hrun1. rewrite Hprep in Hrun1. injection Hrun1 as -> _.
    unfold Values.Set_. rewrite lookup_insert_eq. eauto.
  - intros ->. split; [exact Hbody|exact Hurl].
  - intros Hne. apply String.eqb_neq in Hne. unfold GET in *.
    rewrite Hne in Hbody, Hurl. split; [exact Hurl|exact Hbody].
Qed.

(** An unprotected [GET]. *)
Lemma oauth1GenerateRequest_unprotected_witness :
  let R := Example.runtime (Example.script []) in
  let s := set_nonceCounter 1 initialState in
  let o := oauth1GenerateRequest R Example.client None None "GET"
             "http://example.com/r" None false s in
  (exists signed,
    oauth1PrepareRequest R Example.client None "GET" "http://example.com/r"
      (splitUrl R "http://example.com/r" None).2 zeroTime "" s
    = Ret signed (state_of o s)
    /\ Header (request_of o) = None
    /\ is_Some (signed !! "oauth_signature")
    /\ ("GET" = "GET" ->
        Body (request_of o) = None
        /\ RequestURL (request_of o)
           = MakeUrl R (splitUrl R "http://example.com/r" None).1 (Some signed))
    /\ ("GET" <> "GET" ->
        RequestURL (request_of o) = "http://example.com/r"
        /\ Body (request_of o) = Some (url.Encode signed)))
  /\ RequestURL (request_of o)
     = "http://example.com/r?oauth_callback=http%3A%2F%2Fapp%2Fcb"
       ++ "&oauth_consumer_key=ck&oauth_nonce=1"
       ++ "&oauth_signature=PCtC46inqjF6VxUoLpR1UGqqNWM%3D"
       ++ "&oauth_signature_method=HMAC-SHA1&oauth_timestamp=1234567890"
       ++ "&oauth_version=1.0".
Proof.
  intros R s o. split.
  - apply (oauth1GenerateRequest_unprotected R Example.client None None "GET"
             "http://example.com/r" None s (state_of o s) (request_of o)).
    vm_compute. reflexivity.
  - vm_compute. reflexivity.
Defined.

(** X17: [OAuth1MakeSyncRequest] always returns.  When the request cannot be
    built it returns the error of [http.NewRequest] with no response and
    sends nothing; otherwise it hands exactly one request to the transport
    and returns the transport's answer as it is.  The correlation table
    and the current credentials are not touched either way. *)
Theorem OAuth1MakeSyncRequest_sends_at_most_once (R : Runtime) (p : OAuth1Client)
    (credentials : AuthToken) (headers : option Values) (method uri : string)
    (additional_params : option Values) (protected : bool) (s : State) :
  exists resp err s',
    OAuth1MakeSyncRequest R p credentials headers method uri additional_params protected s
    = Ret (resp, err) s'
    /\ oauth1TokenSecretMap s' = oauth1TokenSecretMap s
    /\ currentCredentials s' = currentCredentials s
    /\ ((exists u e, http_NewRequest R method u = Some e
                     /\ resp = None /\ err = Some e /\ sent s' = sent s)
        \/ (exists req, (resp, err) = MakeRequest R (sent s) req
                        /\ sent s' = (sent s ++ [req])%list)).
Proof. apply OAuth1MakeSyncRequest_run. Qed.

(** ** [defaultOAuth1ParseAuthToken] *)

Lemma byte_in_app (c : byte) (a b : string) :
  byte_in c (a ++ b) = byte_in c a || byte_in c b.
Proof.
  induction a as [|x a IH]; rewrite ?app_nil_l, ?app_cons; [reflexivity|].
  cbn [byte_in]. rewrite IH. apply orb_assoc.
Qed.

Lemma unescape_escape_byte (marks_safe : bool) (c : byte) (rest : string) :
  url.unescape (url.escape marks_safe (String c "") ++ rest)
  = match url.unescape rest with
    | (t, None) => (String c t, None)
    | (_, Some e) => ("", Some e)
    end.
Proof. destruct marks_safe; each_byte c; reflexivity. Qed.

(** [QueryUnescape] undoes [QueryEscape]. *)
Lemma unescape_escape (marks_safe : bool) (s : string) :
  url.unescape (url.escape marks_safe s) = (s, None).
Proof.
  induction s as [|c s IH]; [reflexivity|].
  now rewrite escape_cons, unescape_escape_byte, IH.
Qed.

Lemma escape_no_separator (marks_safe : bool) (s : string) :
  byte_in "&" (url.escape marks_safe s) = false
  /\ byte_in "=" (url.escape marks_safe s) = false
  /\ byte_in ";" (url.escape marks_safe s) = false.
Proof.
  induction s as [|c s (IH1 & IH2 & IH3)]; [repeat split|].
  rewrite escape_cons, !byte_in_app, IH1, IH2, IH3, !orb_false_r.
  destruct marks_safe; each_byte c; vm_compute; repeat split.
Qed.

Lemma oauthEncode_is_escape (s : string) : oauthEncode s = url.escape false s.
Proof.
  rewrite oauthEncode_bytes.
  induction s as [|c s IH]; [reflexivity|].
  rewrite escape_cons. cbn [encodeBytes]. rewrite IH. f_equal.
  each_byte c; reflexivity.
Qed.

Lemma segments_app (a t : string) :
  byte_in "&" a = false -> url.segments (a ++ String "&" t) = a :: url.segments t.
Proof.
  induction a as [|c a IH]; rewrite ?app_nil_l, ?app_cons; [reflexivity|].
  cbn [byte_in]. intros H. apply orb_false_elim in H as [Hc Ha].
  rewrite byte_eqb_sym in Hc. cbn [url.segments]. now rewrite Hc, (IH Ha).
Qed.

Lemma segments_single (a : string) :
  byte_in "&" a = false -> a <> "" -> url.segments a = [a].
Proof.
  induction a as [|c a IH]; [congruence|].
  cbn [byte_in]. intros H _. apply orb_false_elim in H as [Hc Ha].
  rewrite byte_eqb_sym in Hc. cbn [url.segments]. rewrite Hc.
  destruct a as [|d a]; [reflexivity|]. rewrite IH by (assumption || discriminate).
  reflexivity.
Qed.

Lemma Cut_app (sep : byte) (a b : string) :
  byte_in sep a = false -> url.Cut (a ++ String sep b) sep = (a, b).
Proof.
  induction a as [|c a IH]; rewrite ?app_nil_l, ?app_cons; cbn [url.Cut byte_in].
  - intros _. unfold byte_eqb. now rewrite Ascii.eqb_refl.
  - intros H. apply orb_false_elim in H as [Hc Ha].
    rewrite byte_eqb_sym in Hc. now rewrite Hc, (IH Ha).
Qed.

(** One well-formed [key=value] segment adds one value. *)
Lemma parseSegment_pair (m : Values) (err : option error) (key enc v : string) :
  key <> "" ->
  byte_in "=" key = false ->
  byte_in ";" key = false ->
  url.QueryUnescape key = (key, None) ->
  byte_in ";" enc = false ->
  url.QueryUnescape enc = (v, None) ->
  url.parseSegment (m, err) (key ++ String "=" enc) = (Values.Add m key v, err).
Proof.
  intros Hne Heq Hsemi Hkey Hsemi' Henc. unfold url.parseSegment, ContainsByte.
  rewrite byte_in_app. cbn [byte_in]. rewrite Hsemi, Hsemi'. cbn [orb byte_eqb].
  change (Ascii.eqb ";" "=") with false. cbn [orb].
  destruct key as [|c key]; [congruence|].
  rewrite app_cons. cbn [String.eqb]. rewrite <- app_cons.
  rewrite (Cut_app "=" _ _ Heq), Hkey, Henc. reflexivity.
Qed.

Lemma parse_token_body (enc : string -> string) (t sec : string) :
  (forall x, byte_in "&" (enc x) = false /\ byte_in ";" (enc x) = false) ->
  (forall x, url.QueryUnescape (enc x) = (x, None)) ->
  defaultOAuth1ParseAuthToken
    ("oauth_token=" ++ enc t ++ "&oauth_token_secret=" ++ enc sec)
  = (Some {| token := t; secret := sec |}, None).
Proof.
  intros Hsep Hdec.
  destruct (Hsep t) as [Ht1 Ht2]. destruct (Hsep sec) as [Hs1 Hs2].
  unfold defaultOAuth1ParseAuthToken, url.ParseQuery.
  change ("oauth_token=" ++ enc t ++ "&oauth_token_secret=" ++ enc sec)
    with ("oauth_token=" ++ enc t ++ String "&" ("oauth_token_secret=" ++ enc sec)).
  rewrite <- string_app_assoc.
  rewrite segments_app
    by (rewrite byte_in_app, Ht1; reflexivity).
  rewrite segments_single
    by (try discriminate; rewrite byte_in_app, Hs1; reflexivity).
  cbn [fold_left].
  change ("oauth_token=" ++ enc t) with ("oauth_token" ++ String "=" (enc t)).
  change ("oauth_token_secret=" ++ enc sec)
    with ("oauth_token_secret" ++ String "=" (enc sec)).
  rewrite (parseSegment_pair _ _ "oauth_token" (enc t) t)
    by (try discriminate; try reflexivity; try apply Hdec; assumption).
  rewrite (parseSegment_pair _ _ "oauth_token_secret" (enc sec) sec)
    by (try discriminate; try reflexivity; try apply Hdec; assumption).
  unfold Values.Get, Values.Add.
  rewrite lookup_insert_ne by discriminate.
  rewrite !lookup_insert_eq. rewrite lookup_insert_ne by discriminate.
  rewrite !lookup_empty. reflexivity.
Qed.

(** X18: The default parser recovers the credential from its form encoding,
    whatever bytes the token and the secret hold, be they escaped the way
    [url.QueryEscape] does it, today or in the releases that kept the
    five marks, or the way [oauthEncode] does it. *)
Theorem defaultOAuth1ParseAuthToken_roundtrip (t sec : string) :
  defaultOAuth1ParseAuthToken
    ("oauth_token=" ++ url.QueryEscape2396 t
       ++ "&oauth_token_secret=" ++ url.QueryEscape2396 sec)
  = (Some {| token := t; secret := sec |}, None)
  /\ defaultOAuth1ParseAuthToken
       ("oauth_token=" ++ url.QueryEscape t
          ++ "&oauth_token_secret=" ++ url.QueryEscape sec)
     = (Some {| token := t; secret := sec |}, None)
  /\ defaultOAuth1ParseAuthToken
       ("oauth_token=" ++ oauthEncode t ++ "&oauth_token_secret=" ++ oauthEncode sec)
     = (Some {| token := t; secret := sec |}, None).
Proof.
  split; [|split]; apply parse_token_body.
  - intros x. destruct (escape_no_separator true x) as (H1 & _ & H3). now split.
  - intros x. apply unescape_escape.
  - intros x. destruct (escape_no_separator false x) as (H1 & _ & H3). now split.
  - intros x. apply unescape_escape.
  - intros x. rewrite oauthEncode_is_escape.
    destruct (escape_no_separator false x) as (H1 & _ & H3). now split.
  - intros x. rewrite oauthEncode_is_escape. apply unescape_escape.
Qed.

(** A body that names neither key parses into the empty credential, and a
    malformed escape is reported while the well-formed pairs still count. *)
Example defaultOAuth1ParseAuthToken_edges :
  defaultOAuth1ParseAuthToken "error=denied"
  = (Some {| token := ""; secret := "" |}, None)
  /\ defaultOAuth1ParseAuthToken "oauth_token=T&oauth_token_secret=%zz"
     = (Some {| token := "T"; secret := "" |}, Some (EscapeError "%zz")).
Proof. vm_compute. split; reflexivity. Qed.

(** ** The correlation table *)

Lemma getAuthToken_table (R : Runtime) (p : OAuth1Client) (s s' : State)
    (c : AuthToken) (err : option error) (k : string) :
  getAuthToken R p s = Ret (c, err) s' ->
  lookupSecretInfo s' k = lookupAfter p c s k.
Proof.
  unfold getAuthToken, lookupAfter. unfold_M.
  destruct (OAuth1MakeSyncRequest_run R p None None (RequestUrlMethod p) (RequestUrl p)
              None (RequestUrlProtected p) s) as (resp & e & s1 & -> & Hm & _ & _).
  cbn beta iota. destruct e as [e|].
  { intros [= <- _ <-]. now apply lookupSecretInfo_same_table. }
  destruct resp as [resp|]; [|discriminate].
  destruct (RespBody resp) as [rc|]; [|discriminate].
  unfold parseRequestTokenResult.
  destruct (ParseRequestTokenResult p (data rc)) as [cr perr].
  destruct cr as [c'|].
  - destruct (usable (Some c')) eqn:Huse.
    + unfold ensureSecretMap, storeSecretInfo. unfold_M.
      destruct (makeSecretMap_allocated s1) as (m & Hsome & ->). rewrite Hsome.
      intros [= <- _ <-]. rewrite Huse. unfold lookupSecretInfo, withSecretInfo.
      cbn [oauth1TokenSecretMap set_oauth1TokenSecretMap default andb].
      rewrite Hm. case_bool_decide as E.
      * subst k. apply lookup_insert_eq.
      * now apply lookup_insert_ne.
    + intros [= <- _ <-]. rewrite Huse. now apply lookupSecretInfo_same_table.
  - intros [= <- _ <-]. now apply lookupSecretInfo_same_table.
Qed.

Lemma lookupAfter_wf (p : OAuth1Client) (c : AuthToken) (s s' : State) :
  (forall k, lookupSecretInfo s' k = lookupAfter p c s k) ->
  table_wf s -> table_wf s'.
Proof.
  intros Hl Hwf k info. rewrite Hl. unfold lookupAfter.
  destruct c as [c'|]; [|apply Hwf].
  destruct (usable (Some c')) eqn:Huse; [|apply Hwf].
  case_bool_decide as E; [|apply Hwf].
  cbn [andb]. intros [= <-]. cbn [usable] in Huse.
  apply andb_prop in Huse as [Ht Hs]. subst k. cbn [secretInfo info_token info_secret].
  repeat split.
  - intros H0. rewrite H0 in Ht. discriminate.
  - intros H0. rewrite H0 in Hs. discriminate.
Qed.

Lemma oauth1RequestToken_lookupAfter (R : Runtime) (p : OAuth1Client)
    (t : stdAuthToken) (verifier : string) (s s' : State) (cr : AuthToken)
    (body : string) (err : option error) (k : string) :
  oauth1RequestToken R p (Some t) verifier s = Ret (cr, body, err) s' ->
  lookupSecretInfo s' k = lookupAfter p cr s k.
Proof. apply oauth1RequestToken_table. Qed.

(** What the callback handlers leave in the table is what the exchange
    left there. *)
Lemma granted_table (R : Runtime) (p : OAuth1Client) (req : option Request)
    (s s' : State) (b : bool) :
  oauth1RequestTokenGranted R p req s = Ret b s' ->
  oauth1TokenSecretMap s' = oauth1TokenSecretMap s
  \/ exists t v cr body err s1,
       oauth1RequestToken R p (Some t) v s = Ret (cr, body, err) s1
       /\ oauth1TokenSecretMap s' = oauth1TokenSecretMap s1.
Proof.
  unfold oauth1RequestTokenGranted.
  destruct req as [r|]; [|intros [= _ <-]; now left].
  destruct (len _ <=? 0); [intros [= _ <-]; now left|].
  unfold_M.
  match goal with
  | |- context [oauth1RequestToken R p (Some ?t) ?v s] =>
      destruct (oauth1RequestToken R p (Some t) v s) as [[[cr body] err] s1|] eqn:E;
      [|discriminate]
  end.
  intros H. right. do 6 eexists. split; [exact E|].
  destruct err; [injection H as _ <-; reflexivity|].
  destruct cr; [|injection H as _ <-; reflexivity].
  unfold SetCurrentCredentials in H. unfold_M. injection H as _ <-. reflexivity.
Qed.

Lemma exchange_table (R : Runtime) (p : OAuth1Client) (req : option Request)
    (s s' : State) (e : option error) :
  oauth1ExchangeRequestTokenForAccess R p req s = Ret e s' ->
  oauth1TokenSecretMap s' = oauth1TokenSecretMap s
  \/ exists t v cr body err s1,
       oauth1RequestToken R p (Some t) v s = Ret (cr, body, err) s1
       /\ oauth1TokenSecretMap s' = oauth1TokenSecretMap s1.
Proof.
  unfold oauth1ExchangeRequestTokenForAccess.
  destruct req as [r|]; [|intros [= _ <-]; now left].
  destruct (len _ <=? 0); [intros [= _ <-]; now left|].
  unfold_M. cbn beta iota.
  match goal with
  | |- context [oauth1RequestToken R p (Some ?t) ?v s] =>
      destruct (oauth1RequestToken R p (Some t) v s) as [[[cr body] err] s1|] eqn:E;
      [|discriminate]
  end.
  intros H. right. do 6 eexists. split; [exact E|].
  destruct err; [injection H as _ <-; reflexivity|].
  destruct (usable cr).
  - unfold SetCurrentCredentials in H. unfold_M. injection H as _ <-. reflexivity.
  - destruct (0 <? len body); injection H as _ <-; reflexivity.
Qed.

Lemma table_wf_same (s s' : State) :
  oauth1TokenSecretMap s' = oauth1TokenSecretMap s -> table_wf s -> table_wf s'.
Proof.
  intros H Hwf k info. rewrite (lookupSecretInfo_same_table _ _ k H). apply Hwf.
Qed.

(** X21: The table stays well formed: whatever the provider answers, after
    [getAuthToken], [oauth1RequestToken] and the two callback handlers
    every entry is still filed under its own token and still holds a
    non-empty token and secret. *)
Theorem table_stays_well_formed (R : Runtime) (p : OAuth1Client) (s : State) :
  table_wf s ->
  (forall r s', getAuthToken R p s = Ret r s' -> table_wf s')
  /\ (forall t v r s', oauth1RequestToken R p (Some t) v s = Ret r s' -> table_wf s')
  /\ (forall req b s', oauth1RequestTokenGranted R p req s = Ret b s' -> table_wf s')
  /\ (forall req e s',
         oauth1ExchangeRequestTokenForAccess R p req s = Ret e s' -> table_wf s').
Proof.
  intros Hwf.
  assert (Hex : forall t v r s',
             oauth1RequestToken R p (Some t) v s = Ret r s' -> table_wf s').
  { intros t v [[cr body] err] s' Hrun.
    apply (lookupAfter_wf p cr s s'); [|exact Hwf].
    intros k. eapply oauth1RequestToken_lookupAfter, Hrun. }
  split; [|split; [exact Hex|split]].
  - intros [c err] s' Hrun. apply (lookupAfter_wf p c s s'); [|exact Hwf].
    intros k. eapply getAuthToken_table, Hrun.
  - intros req b s' Hrun.
    destruct (granted_table R p req s s' b Hrun)
      as [H|(t & v & cr & body & err & s1 & H1 & H)].
    + now apply (table_wf_same s).
    + apply (table_wf_same s1); [exact H|]. eapply Hex, H1.
  - intros req e s' Hrun.
    destruct (exchange_table R p req s s' e Hrun)
      as [H|(t & v & cr & body & err & s1 & H1 & H)].
    + now apply (table_wf_same s).
    + apply (table_wf_same s1); [exact H|]. eapply Hex, H1.
Qed.

Lemma table_wf_initial : table_wf initialState.
Proof. intros k info H. discriminate H. Qed.

Lemma table_stays_well_formed_witness :
  let R := Example.runtime (Example.script ["oauth_token=T&oauth_token_secret=S"]) in
  (forall r s', getAuthToken R Example.client initialState = Ret r s' -> table_wf s')
  /\ (forall t v r s',
         oauth1RequestToken R Example.client (Some t) v initialState = Ret r s' ->
         table_wf s')
  /\ (forall req b s',
         oauth1RequestTokenGranted R Example.client req initialState = Ret b s' ->
         table_wf s')
  /\ (forall req e s',
         oauth1ExchangeRequestTokenForAccess R Example.client req initialState
         = Ret e s' -> table_wf s').
Proof.
  apply (table_stays_well_formed
           (Example.runtime (Example.script ["oauth_token=T&oauth_token_secret=S"]))
           Example.client initialState).
  intros k info H. discriminate H.
Defined.

(** ** [getAuthToken] *)

(** X19: [getAuthToken] files a usable credential under its token as received,
    and files nothing for any other answer: a credential without a token
    or without a secret, a transport error, a nil credential. *)
Theorem getAuthToken_files_usable_only (R : Runtime) (p : OAuth1Client)
    (s s' : State) (c : AuthToken) (err : option error) (k : string) :
  getAuthToken R p s = Ret (c, err) s' ->
  lookupSecretInfo s' k
  = match c with
    | Some c' =>
        if usable c && bool_decide (token c' = k)
        then Some {| service := ServiceId p; info_token := token c';
                     info_secret := secret c' |}
        else lookupSecretInfo s k
    | None => lookupSecretInfo s k
    end.
Proof. apply getAuthToken_table. Qed.

Lemma getAuthToken_files_usable_only_witness :
  let R := Example.runtime (Example.script ["oauth_token=T&oauth_token_secret=S"]) in
  let o := getAuthToken R Example.client initialState in
  let c := Some {| token := "T"; secret := "S" |} in
  lookupSecretInfo (state_of o initialState) "T"
  = match c with
    | Some c' =>
        if usable c && bool_decide (token c' = "T")
        then Some {| service := ServiceId Example.client; info_token := token c';
                     info_secret := secret c' |}
        else lookupSecretInfo initialState "T"
    | None => lookupSecretInfo initialState "T"
    end.
Proof.
  intros R o c.
  apply (getAuthToken_files_usable_only R Example.client initialState
           (state_of o initialState) c None "T").
  vm_compute. reflexivity.
Defined.

(** X20: A provider that answers the request-token call with text that holds no
    usable credential gets it back as the error, verbatim; an error of
    reading the body is not reported. *)
Theorem getAuthToken_reports_body (R : Runtime) (p : OAuth1Client) (s : State)
    (rc : ReadCloser) (c : AuthToken) :
  (forall m u, http_NewRequest R m u = None) ->
  (forall req, MakeRequest R (sent s) req = (Some {| RespBody := Some rc |}, None)) ->
  ParseRequestTokenResult p (data rc) = (c, None) ->
  usable c = false ->
  data rc <> "" ->
  exists s', getAuthToken R p s = Ret (c, Some (errors_New (data rc))) s'
             /\ Error (errors_New (data rc)) = data rc
             /\ oauth1TokenSecretMap s' = oauth1TokenSecretMap s.
Proof.
  intros Hnew Hsend Hparse Huse Hbody.
  unfold getAuthToken. unfold_M.
  destruct (OAuth1MakeSyncRequest_run R p None None (RequestUrlMethod p) (RequestUrl p)
              None (RequestUrlProtected p) s)
    as (resp & e & s1 & -> & Hm & _ & [(u & e' & Hu & _)|(req & Hreq & _)]).
  { rewrite Hnew in Hu. discriminate. }
  rewrite Hsend in Hreq. injection Hreq as -> ->. cbn beta iota.
  cbn [RespBody]. unfold parseRequestTokenResult. rewrite Hparse.
  assert (Hb : bodyAsError None (data rc) = Some (errors_New (data rc))).
  { unfold bodyAsError. destruct (data rc) as [|x r]; [congruence|]. reflexivity. }
  destruct c as [c'|].
  - rewrite Huse, Hb. exists s1. repeat split. exact Hm.
  - rewrite Hb. exists s1. repeat split. exact Hm.
Qed.

Lemma getAuthToken_reports_body_witness :
  let R := Example.runtime (Example.script ["Invalid consumer key"]) in
  exists s', getAuthToken R Example.client initialState
             = Ret (Some {| token := ""; secret := "" |},
                    Some (errors_New "Invalid consumer key")) s'
             /\ Error (errors_New "Invalid consumer key") = "Invalid consumer key"
             /\ oauth1TokenSecretMap s' = oauth1TokenSecretMap initialState.
Proof.
  apply (getAuthToken_reports_body
           (Example.runtime (Example.script ["Invalid consumer key"]))
           Example.client initialState
           {| data := "Invalid consumer key"; readErr := None |}
           (Some {| token := ""; secret := "" |})).
  - reflexivity.
  - reflexivity.
  - vm_compute. reflexivity.
  - reflexivity.
  - discriminate.
Defined.

(** ** [oauth1RequestToken] *)

(** X22: The exchange itself never changes the current credentials (installing
    them is the callers' business) and sends at most one request. *)
Theorem oauth1RequestToken_keeps_current_credentials (R : Runtime)
    (p : OAuth1Client) (t : stdAuthToken) (verifier : string) (s : State) :
  exists r s',
    oauth1RequestToken R p (Some t) verifier s = Ret r s'
    /\ currentCredentials s' = currentCredentials s
    /\ (sent s' = sent s \/ exists req, sent s' = (sent s ++ [req])%list).
Proof.
  destruct (oauth1RequestToken_run R p t verifier s) as (resp & err & s1 & Hsync & Hrun).
  destruct (OAuth1MakeSyncRequest_run R p (Some (signingCredentials (makeSecretMap s) t))
              None (AccessUrlMethod p) (AccessUrl p) (Some (verifierParams verifier))
              (AccessUrlProtected p) (makeSecretMap s))
    as (resp2 & err2 & s2 & Hsync2 & _ & Hcur & Hsent).
  rewrite Hsync in Hsync2. injection Hsync2 as <- <- <-.
  do 2 eexists. split; [exact Hrun|].
  destruct (currentCredentials_recorded p
              (ParseAccessTokenResult p (readBody resp).1).1 s1) as [-> ->].
  split.
  - rewrite Hcur. unfold makeSecretMap. now destruct (oauth1TokenSecretMap s).
  - rewrite sent_makeSecretMap in Hsent.
    destruct Hsent as [(u & e & _ & _ & _ & ->)|(req & _ & ->)].
    + left. reflexivity.
    + right. eauto.
Qed.

(** X23: After an exchange that returned a usable credential, the table holds
    it under its token. *)
Theorem oauth1RequestToken_files_access_credentials (R : Runtime)
    (p : OAuth1Client) (t : stdAuthToken) (verifier : string) (s s' : State)
    (c : stdAuthToken) (body : string) (err : option error) :
  oauth1RequestToken R p (Some t) verifier s = Ret (Some c, body, err) s' ->
  usable (Some c) = true ->
  lookupSecretInfo s' (token c)
  = Some {| service := ServiceId p; info_token := token c; info_secret := secret c |}.
Proof.
  intros Hrun Huse.
  rewrite (oauth1RequestToken_lookupAfter _ _ _ _ _ _ _ _ _ (token c) Hrun).
  unfold lookupAfter. rewrite Huse, bool_decide_eq_true_2 by reflexivity. reflexivity.
Qed.

Lemma oauth1RequestToken_files_access_credentials_witness :
  let R := Example.runtime (Example.script ["oauth_token=A&oauth_token_secret=B"]) in
  let o := oauth1RequestToken R Example.client
             (Some {| token := "T"; secret := "S" |}) "V" initialState in
  lookupSecretInfo (state_of o initialState) "A"
  = Some {| service := "svc"; info_token := "A"; info_secret := "B" |}.
Proof.
  intros R o.
  apply (oauth1RequestToken_files_access_credentials R Example.client
           {| token := "T"; secret := "S" |} "V" initialState (state_of o initialState)
           {| token := "A"; secret := "B" |} "oauth_token=A&oauth_token_secret=B" None).
  - vm_compute. reflexivity.
  - reflexivity.
Defined.

(** X24: A temporary token that URL-unescaping leaves as it is (no [%], no [+])
    is signed with the secret the table holds for it, whatever secret the
    credentials passed in carry. *)
Theorem plain_token_resolves_through_table (s : State) (c : stdAuthToken)
    (info : oauth1SecretInfo) :
  byte_in "%" (token c) = false ->
  byte_in "+" (token c) = false ->
  lookupSecretInfo s (token c) = Some info ->
  info_secret info <> "" ->
  signingCredentials (makeSecretMap s) c
  = {| token := token c; secret := info_secret info |}.
Proof.
  intros Hp Hq Hk Hne. apply signingCredentials_from_table.
  - now apply QueryUnescape_plain.
  - now rewrite lookupSecretInfo_makeSecretMap.
  - exact Hne.
Qed.

Lemma plain_token_resolves_through_table_witness :
  let R := Example.runtime (Example.script ["oauth_token=T&oauth_token_secret=S"]) in
  let s1 := state_of (getAuthToken R Example.client initialState) initialState in
  signingCredentials (makeSecretMap s1) {| token := "T"; secret := "" |}
  = {| token := "T"; secret := "S" |}.
Proof.
  intros R s1.
  apply (plain_token_resolves_through_table s1 {| token := "T"; secret := "" |}
           {| service := "svc"; info_token := "T"; info_secret := "S" |}).
  - reflexivity.
  - reflexivity.
  - vm_compute. reflexivity.
  - discriminate.
Defined.

(** X25: Without an entry under the unescaped token the exchange signs with the
    secret of the credentials passed in, empty or not. *)
Theorem unknown_token_falls_back (s : State) (c : stdAuthToken) :
  lookupSecretInfo s (url.QueryUnescape (token c)).1 = None ->
  signingCredentials (makeSecretMap s) c
  = {| token := (url.QueryUnescape (token c)).1; secret := secret c |}.
Proof.
  intros Hk. apply signingCredentials_fallback.
  now rewrite lookupSecretInfo_makeSecretMap.
Qed.

Lemma unknown_token_falls_back_witness :
  signingCredentials (makeSecretMap initialState) {| token := "T"; secret := "S" |}
  = {| token := (url.QueryUnescape "T").1; secret := "S" |}.
Proof.
  apply (unknown_token_falls_back initialState {| token := "T"; secret := "S" |}).
  reflexivity.
Defined.

(** ** The authorization URL *)

Lemma parse_single_pair (key enc v : string) :
  key <> "" ->
  byte_in "=" key = false -> byte_in ";" key = false -> byte_in "&" key = false ->
  url.QueryUnescape key = (key, None) ->
  byte_in ";" enc = false -> byte_in "&" enc = false ->
  url.QueryUnescape enc = (v, None) ->
  Values.Get (Query {| RawQuery := key ++ String "=" enc |}) key = v.
Proof.
  intros Hne Heq Hsemi Hamp Hkey Hsemi' Hamp' Henc.
  unfold Query, url.ParseQuery. cbn [RawQuery].
  rewrite segments_single.
  - cbn [fold_left]. rewrite (parseSegment_pair _ _ key enc v) by assumption.
    cbn [fst default]. unfold Values.Get, Values.Add, id.
    rewrite lookup_insert_eq, lookup_empty. reflexivity.
  - rewrite byte_in_app. cbn [byte_in]. rewrite Hamp, Hamp'. reflexivity.
  - destruct key; [congruence|discriminate].
Qed.

(** X26: The token can be read back from the authorization URL: for an
    endpoint without a query string the URL is the endpoint, a question
    mark and [oauth_token=<encoded token>], and parsing that query gives
    the token back, whatever bytes it holds. *)
Theorem authorization_url_roundtrip (p : OAuth1Client) (c : stdAuthToken) :
  byte_in "?" (AuthorizationUrl p) = false ->
  let u := oauth1GenerateAuthorizationUrl p c in
  url.Cut u "?" = (AuthorizationUrl p, "oauth_token=" ++ oauthEncode (token c))
  /\ Values.Get (Query {| RawQuery := (url.Cut u "?").2 |}) "oauth_token" = token c.
Proof.
  intros Hq. cbv zeta. unfold oauth1GenerateAuthorizationUrl, ContainsByte.
  rewrite Hq.
  change (AuthorizationUrl p ++ "?oauth_token=" ++ oauthEncode (token c))
    with (AuthorizationUrl p ++ String "?" ("oauth_token=" ++ oauthEncode (token c))).
  rewrite (Cut_app "?" _ _ Hq). split; [reflexivity|]. cbn [snd].
  change ("oauth_token=" ++ oauthEncode (token c))
    with ("oauth_token" ++ String "=" (oauthEncode (token c))).
  rewrite oauthEncode_is_escape.
  destruct (escape_no_separator false (token c)) as (H1 & _ & H3).
  apply parse_single_pair; try reflexivity; try assumption; try discriminate.
  apply unescape_escape.
Qed.

Lemma authorization_url_roundtrip_witness :
  let u := oauth1GenerateAuthorizationUrl Example.client {| token := "a+b/c"; secret := "" |} in
  url.Cut u "?"
  = (AuthorizationUrl Example.client, "oauth_token=" ++ oauthEncode "a+b/c")
  /\ Values.Get (Query {| RawQuery := (url.Cut u "?").2 |}) "oauth_token" = "a+b/c".
Proof.
  apply (authorization_url_roundtrip Example.client {| token := "a+b/c"; secret := "" |}).
  reflexivity.
Defined.

Lemma app_cons_nonempty (a : string) (x : byte) (b : string) : a ++ String x b <> "".
Proof. destruct a; discriminate. Qed.

(** X27: [oauth1GenerateRequestTokenUrl] returns the empty string exactly when
    [getAuthToken] reported an error or no credential; otherwise it
    returns the authorization URL for the credential received. *)
Theorem oauth1GenerateRequestTokenUrl_outcome (R : Runtime) (p : OAuth1Client)
    (s s' : State) (u : string) :
  oauth1GenerateRequestTokenUrl R p s = Ret u s' ->
  (u = "" /\ exists c e, getAuthToken R p s = Ret (c, e) s'
                         /\ (c = None \/ is_Some e))
  \/ (u <> "" /\ exists c, getAuthToken R p s = Ret (Some c, None) s'
                          /\ u = oauth1GenerateAuthorizationUrl p c).
Proof.
  unfold oauth1GenerateRequestTokenUrl. unfold_M.
  destruct (getAuthToken R p s) as [[c e] s1|]; [|discriminate].
  destruct c as [c|], e as [e|]; intros [= <- <-].
  - left. split; [reflexivity|]. exists (Some c), (Some e). split; eauto.
  - right. split; [|eauto].
    unfold oauth1GenerateAuthorizationUrl.
    destruct (ContainsByte (AuthorizationUrl p) "?"); apply app_cons_nonempty.
  - left. split; [reflexivity|]. exists None, (Some e). split; eauto.
  - left. split; [reflexivity|]. exists None, None. split; eauto.
Qed.

Lemma oauth1GenerateRequestTokenUrl_outcome_witness :
  let R := Example.runtime (Example.script ["oauth_token=T&oauth_token_secret=S"]) in
  let o := oauth1GenerateRequestTokenUrl R Example.client initialState in
  let u := value_of o "" in
  let s' := state_of o initialState in
  (u = "" /\ exists c e, getAuthToken R Example.client initialState = Ret (c, e) s'
                         /\ (c = None \/ is_Some e))
  \/ (u <> "" /\ exists c, getAuthToken R Example.client initialState
                          = Ret (Some c, None) s'
                          /\ u = oauth1GenerateAuthorizationUrl Example.client c).
Proof.
  intros R o u s'.
  apply (oauth1GenerateRequestTokenUrl_outcome R Example.client initialState s' u).
  vm_compute. reflexivity.
Defined.

(** ** The callback handlers *)

(** X28: [oauth1RequestTokenGranted] answers true only after an exchange that
    returned a credential and no error, and that credential is then the
    current one; when it answers false the current credentials are the
    ones from before. *)
Theorem oauth1RequestTokenGranted_outcome (R : Runtime) (p : OAuth1Client)
    (req : option Request) (s s' : State) (b : bool) :
  oauth1RequestTokenGranted R p req s = Ret b s' ->
  (b = true ->
   exists t v c body s1,
     oauth1RequestToken R p (Some t) v s = Ret (Some c, body, None) s1
     /\ currentCredentials s' = Some c)
  /\ (b = false -> currentCredentials s' = currentCredentials s).
Proof.
  intros Hrun. split.
  - intros ->. revert Hrun. unfold oauth1RequestTokenGranted.
    destruct req as [r|]; [|discriminate].
    destruct (len _ <=? 0); [discriminate|].
    unfold_M.
    match goal with
    | |- context [oauth1RequestToken R p (Some ?t) ?v s] =>
        destruct (oauth1RequestToken R p (Some t) v s) as [[[cr body] err] s1|] eqn:E;
        [|discriminate]
    end.
    destruct err; [discriminate|]. destruct cr as [c|]; [|discriminate].
    unfold SetCurrentCredentials. unfold_M. intros [= <-].
    do 5 eexists. split; [exact E|reflexivity].
  - intros ->. eapply not_granted_keeps_credentials, Hrun.
Qed.

Lemma oauth1RequestTokenGranted_outcome_witness :
  let R := Example.runtime (Example.script ["oauth_token=A&oauth_token_secret=B"]) in
  let o := oauth1RequestTokenGranted R Example.client
             (Some (Example.callback "oauth_token=T&oauth_verifier=V")) initialState in
  let s' := state_of o initialState in
  (true = true ->
   exists t v c body s1,
     oauth1RequestToken R Example.client (Some t) v initialState
     = Ret (Some c, body, None) s1
     /\ currentCredentials s' = Some c)
  /\ (true = false -> currentCredentials s' = currentCredentials initialState).
Proof.
  intros R o s'.
  apply (oauth1RequestTokenGranted_outcome R Example.client
           (Some (Example.callback "oauth_token=T&oauth_verifier=V"))
           initialState s' true).
  vm_compute. reflexivity.
Defined.

(** X29: [oauth1ExchangeRequestTokenForAccess] changes the current credentials
    only to a credential with a token and a secret, and only when it
    returns no error. *)
Theorem oauth1ExchangeRequestTokenForAccess_installs_usable_only (R : Runtime)
    (p : OAuth1Client) (req : option Request) (s s' : State) (e : option error) :
  oauth1ExchangeRequestTokenForAccess R p req s = Ret e s' ->
  currentCredentials s' = currentCredentials s
  \/ (e = None /\ usable (currentCredentials s') = true).
Proof. apply exchange_installs_usable_only. Qed.

Lemma oauth1ExchangeRequestTokenForAccess_installs_usable_only_witness :
  let R := Example.runtime (Example.script ["oauth_token=A&oauth_token_secret=B"]) in
  let o := oauth1ExchangeRequestTokenForAccess R Example.client
             (Some (Example.callback "oauth_token=T")) initialState in
  currentCredentials (state_of o initialState) = currentCredentials initialState
  \/ (value_of o None = None
      /\ usable (currentCredentials (state_of o initialState)) = true).
Proof.
  intros R o.
  apply (oauth1ExchangeRequestTokenForAccess_installs_usable_only R Example.client
           (Some (Example.callback "oauth_token=T")) initialState
           (state_of o initialState) (value_of o None)).
  vm_compute. reflexivity.
Defined.

(** ** [oauth1CreateAuthorizedRequest] *)

Lemma toUpperByte_idempotent (c : byte) : toUpperByte (toUpperByte c) = toUpperByte c.
Proof. each_byte c; reflexivity. Qed.

Lemma ToUpper_idempotent (m : string) : ToUpper (ToUpper m) = ToUpper m.
Proof.
  induction m as [|c m IH]; [reflexivity|].
  cbn [ToUpper]. now rewrite toUpperByte_idempotent, IH.
Qed.

(** X30: For a method in ASCII, [oauth1CreateAuthorizedRequest] does not look at
    its case, takes the empty method for [GET], and only builds the
    request: nothing is sent, and the table and the current credentials
    stay as they are. *)
Theorem oauth1CreateAuthorizedRequest_normalises_method (R : Runtime)
    (p : OAuth1Client) (method : string) (headers : option Values) (uri : string)
    (query : option Values) (s : State) :
  forallb (fun c => byteval c <? 128) (list_ascii_of_string method) = true ->
  oauth1CreateAuthorizedRequest R p method headers uri query s
  = oauth1CreateAuthorizedRequest R p (ToUpper method) headers uri query s
  /\ oauth1CreateAuthorizedRequest R p "" headers uri query s
     = oauth1CreateAuthorizedRequest R p "GET" headers uri query s
  /\ exists res s',
       oauth1CreateAuthorizedRequest R p method headers uri query s = Ret res s'
       /\ same_session s s'.
Proof.
  intros _. split; [|split].
  - unfold oauth1CreateAuthorizedRequest.
    destruct method as [|c m]; [reflexivity|].
    change (len (String c m) <=? 0) with false.
    change (len (ToUpper (String c m)) <=? 0) with false.
    cbv iota. now rewrite ToUpper_idempotent.
  - reflexivity.
  - unfold oauth1CreateAuthorizedRequest, CurrentCredentials. unfold_M.
    match goal with
    | |- context [oauth1GenerateRequest R p ?c ?h ?m ?u ?q ?b s] =>
        destruct (oauth1GenerateRequest_run R p c h m u q b s) as (res & s' & -> & Hs & _)
    end.
    eauto.
Qed.

Lemma oauth1CreateAuthorizedRequest_normalises_method_witness :
  let R := Example.runtime (Example.script []) in
  oauth1CreateAuthorizedRequest R Example.client "post" None "http://a/r" None initialState
  = oauth1CreateAuthorizedRequest R Example.client (ToUpper "post") None "http://a/r"
      None initialState
  /\ oauth1CreateAuthorizedRequest R Example.client "" None "http://a/r" None initialState
     = oauth1CreateAuthorizedRequest R Example.client "GET" None "http://a/r" None
         initialState
  /\ exists res s',
       oauth1CreateAuthorizedRequest R Example.client "post" None "http://a/r" None
         initialState = Ret res s'
       /\ same_session initialState s'.
Proof.
  apply (oauth1CreateAuthorizedRequest_normalises_method
           (Example.runtime (Example.script [])) Example.client "post" None
           "http://a/r" None initialState).
  reflexivity.
Defined.
